(** * Decoder-to-output pipeline core: video output heap, dirty bands,
      aspect scaling, decoder FIFO pacing, flush, timestamp fixing.

    Shallow embedding of [src/video_output/video_output.c] and
    [src/input/decoder.c].  C [int] and [mtime_t] values are integers of
    [Z] reduced to 32 and 64 bits; arrays are lists read and written by
    index; pointers into the picture heap are slot indexes; calls into
    collaborators that are not part of these two files (allocator, clock,
    codecs, fonts, window system) are parameters and leave an event in a
    trace. *)

From Stdlib Require Import ZArith Lia Bool List.
From stdpp Require Import base tactics option list.
Import ListNotations.

Local Open Scope Z_scope.

(** ** Machine integers *)

Module MachInt.

(** Two's complement reduction to [bits] bits. *)
Definition wrap (bits : Z) (z : Z) : Z :=
  (z + 2 ^ (bits - 1)) mod 2 ^ bits - 2 ^ (bits - 1).

Definition int (z : Z) : Z := wrap 32 z.
Definition int64 (z : Z) : Z := wrap 64 z.

Definition INT_MAX : Z := 2 ^ 31 - 1.
Definition INT64_MAX : Z := 2 ^ 63 - 1.

End MachInt.
Import MachInt.

(** ** Outcome of a C computation

    [Fault] is undefined behaviour that the model detects (an array index
    out of bounds, a division by zero, a failed [assert]); [Timeout] is the
    model running out of fuel. *)

Inductive outcome (A : Type) : Type :=
| Done (a : A)
| Fault
| Timeout.
Arguments Done {A} a.
Arguments Fault {A}.
Arguments Timeout {A}.

Definition obind {A B : Type} (m : outcome A) (k : A -> outcome B) : outcome B :=
  match m with
  | Done a => k a
  | Fault => Fault
  | Timeout => Timeout
  end.

Notation "'do' x <- m ; k" := (obind m (fun x => k))
  (at level 10, x name, m at level 100, k at level 200).
Notation "'do' ' p <- m ; k" := (obind m (fun x => match x with p => k end))
  (at level 10, p pattern, m at level 100, k at level 200).

(** Array read [a[i]] and write [a[i] = x] with a C [int] index. *)
Definition arr_get (a : list Z) (i : Z) : outcome Z :=
  if (0 <=? i) && (i <? Z.of_nat (length a))
  then match a !! Z.to_nat i with Some x => Done x | None => Fault end
  else Fault.

Definition arr_set (a : list Z) (i : Z) (x : Z) : outcome (list Z) :=
  if (0 <=? i) && (i <? Z.of_nat (length a))
  then Done (<[Z.to_nat i := x]> a)
  else Fault.

(** C integer division [a / b] on [int] (truncation toward zero).  The
    division traps on a zero divisor and on [INT_MIN / -1], whose quotient
    is not an [int]. *)
Definition cdiv (a b : Z) : outcome Z :=
  if (b =? 0) || ((a =? - INT_MAX - 1) && (b =? -1))
  then Fault
  else Done (int (Z.quot a b)).

(** ** Video output *)

Module VideoOutput.

(** Build configuration: the preprocessor switches of [video_output.c] and
    the constants it takes from [config.h] and [common.h], which are not
    among the sources. *)
Record config : Type := {
  DEBUG : bool;
  DEBUG_VIDEO : bool;
  STATS : bool;
  VOUT_MAX_AREAS : Z;
  VOUT_DISPLAY_DELAY : Z;
  VOUT_FPS_SAMPLES : Z;
  VOUT_NODISPLAY_CHANGE : Z;
  VOUT_GAMMA_CHANGE : Z;
  VOUT_GRAYSCALE_CHANGE : Z;
  VOUT_INFO_CHANGE : Z;
  VOUT_INTF_CHANGE : Z;
  VOUT_SCALE_CHANGE : Z;
  sizeof_yuv_data_t : Z;
  size_t_bits : Z
}.

Inductive picture_type : Type :=
| EMPTY_PICTURE
| YUV_420_PICTURE
| YUV_422_PICTURE
| YUV_444_PICTURE.

Inductive picture_status : Type :=
| FREE_PICTURE
| RESERVED_PICTURE
| RESERVED_DATED_PICTURE
| RESERVED_DISP_PICTURE
| READY_PICTURE
| DISPLAYED_PICTURE
| DESTROYED_PICTURE.

Inductive aspect_ratio : Type :=
| AR_SQUARE_PICTURE
| AR_3_4_PICTURE
| AR_16_9_PICTURE
| AR_221_1_PICTURE.

#[global] Instance picture_type_eq_dec : EqDecision picture_type.
Proof. solve_decision. Defined.
#[global] Instance picture_status_eq_dec : EqDecision picture_status.
Proof. solve_decision. Defined.
#[global] Instance aspect_ratio_eq_dec : EqDecision aspect_ratio.
Proof. solve_decision. Defined.

(** [picture_t]; [p_data] is the address of the owned buffer (0 is NULL),
    [p_y], [p_u], [p_v] the plane addresses. *)
Record picture_t : Type := {
  i_type : picture_type;
  i_status : picture_status;
  i_matrix_coefficients : Z;
  i_width : Z;
  i_height : Z;
  i_chroma_width : Z;
  i_display_horizontal_offset : Z;
  i_display_vertical_offset : Z;
  i_display_width : Z;
  i_display_height : Z;
  i_aspect_ratio : aspect_ratio;
  i_refcount : Z;
  date : Z;
  p_data : Z;
  p_y : Z;
  p_u : Z;
  p_v : Z
}.

Definition set_status (s : picture_status) (p : picture_t) : picture_t :=
  {| i_type := i_type p; i_status := s;
     i_matrix_coefficients := i_matrix_coefficients p;
     i_width := i_width p; i_height := i_height p;
     i_chroma_width := i_chroma_width p;
     i_display_horizontal_offset := i_display_horizontal_offset p;
     i_display_vertical_offset := i_display_vertical_offset p;
     i_display_width := i_display_width p;
     i_display_height := i_display_height p;
     i_aspect_ratio := i_aspect_ratio p;
     i_refcount := i_refcount p; date := date p;
     p_data := p_data p; p_y := p_y p; p_u := p_u p; p_v := p_v p |}.

Definition set_refcount (n : Z) (p : picture_t) : picture_t :=
  {| i_type := i_type p; i_status := i_status p;
     i_matrix_coefficients := i_matrix_coefficients p;
     i_width := i_width p; i_height := i_height p;
     i_chroma_width := i_chroma_width p;
     i_display_horizontal_offset := i_display_horizontal_offset p;
     i_display_vertical_offset := i_display_vertical_offset p;
     i_display_width := i_display_width p;
     i_display_height := i_display_height p;
     i_aspect_ratio := i_aspect_ratio p;
     i_refcount := n; date := date p;
     p_data := p_data p; p_y := p_y p; p_u := p_u p; p_v := p_v p |}.

Definition set_date (d : Z) (p : picture_t) : picture_t :=
  {| i_type := i_type p; i_status := i_status p;
     i_matrix_coefficients := i_matrix_coefficients p;
     i_width := i_width p; i_height := i_height p;
     i_chroma_width := i_chroma_width p;
     i_display_horizontal_offset := i_display_horizontal_offset p;
     i_display_vertical_offset := i_display_vertical_offset p;
     i_display_width := i_display_width p;
     i_display_height := i_display_height p;
     i_aspect_ratio := i_aspect_ratio p;
     i_refcount := i_refcount p; date := d;
     p_data := p_data p; p_y := p_y p; p_u := p_u p; p_v := p_v p |}.

(** Buffer and planes after the [switch( i_type )] of vout_CreatePicture. *)
Definition set_planes (data y u v : Z) (p : picture_t) : picture_t :=
  {| i_type := i_type p; i_status := i_status p;
     i_matrix_coefficients := i_matrix_coefficients p;
     i_width := i_width p; i_height := i_height p;
     i_chroma_width := i_chroma_width p;
     i_display_horizontal_offset := i_display_horizontal_offset p;
     i_display_vertical_offset := i_display_vertical_offset p;
     i_display_width := i_display_width p;
     i_display_height := i_display_height p;
     i_aspect_ratio := i_aspect_ratio p;
     i_refcount := i_refcount p; date := date p;
     p_data := data; p_y := y; p_u := u; p_v := v |}.

(** Effects on collaborators, in call order. *)
Inductive event : Type :=
| EvMalloc (size ptr : Z)
| EvFree (ptr : Z)
| EvErrMsg
| EvSetBufferPicture (slot : option nat)
| EvRenderPicture (slot : nat)
| EvRenderPictureInfo (slot : nat)
| EvRenderInfo
| EvRenderInterface
| EvRenderSubPictureUnit
| EvMwait (date : Z)
| EvMsleepIdle
| EvSysDisplay
| EvSysManage
| EvResetTables.

(** *** Picture heap operations *)

(** vout_DisplayPicture, on the slot [p_pic] points to. *)
Definition vout_DisplayPicture (p_pic : picture_t) : picture_t :=
  match i_status p_pic with
  | RESERVED_PICTURE => set_status RESERVED_DISP_PICTURE p_pic
  | RESERVED_DATED_PICTURE => set_status READY_PICTURE p_pic
  | _ => p_pic
  end.

(** vout_DatePicture. *)
Definition vout_DatePicture (p_pic : picture_t) (d : Z) : picture_t :=
  let p := set_date d p_pic in
  match i_status p with
  | RESERVED_PICTURE => set_status RESERVED_DATED_PICTURE p
  | RESERVED_DISP_PICTURE => set_status READY_PICTURE p
  | _ => p
  end.

(** vout_DestroyPicture. *)
Definition vout_DestroyPicture (p_pic : picture_t) : picture_t :=
  set_status DESTROYED_PICTURE p_pic.

(** vout_LinkPicture. *)
Definition vout_LinkPicture (p_pic : picture_t) : picture_t :=
  set_refcount (int (i_refcount p_pic + 1)) p_pic.

(** vout_UnlinkPicture. *)
Definition vout_UnlinkPicture (cfg : config) (p_pic : picture_t) : picture_t :=
  let p := set_refcount (int (i_refcount p_pic - 1)) p_pic in
  let p := if DEBUG_VIDEO cfg && (i_refcount p <? 0)
           then set_refcount 0 p else p in
  if (i_refcount p =? 0) && bool_decide (i_status p = DISPLAYED_PICTURE)
  then set_status DESTROYED_PICTURE p
  else p.

(** Result of the scan loop of vout_CreatePicture: either the early return
    on a destroyed slot of the same type and size, or the loop ran to the
    end with [p_free_picture] and [p_destroyed_picture]. *)
Inductive scan_result : Type :=
| ScanMatch (i_picture : nat)
| ScanEnd (p_free_picture p_destroyed_picture : option nat).

Fixpoint scan_pictures (i_type0 : picture_type) (i_width0 i_height0 : Z)
    (l : list picture_t) (i_picture : nat)
    (p_free_picture p_destroyed_picture : option nat) : scan_result :=
  match l with
  | [] => ScanEnd p_free_picture p_destroyed_picture
  | p :: l' =>
      if bool_decide (i_status p = DESTROYED_PICTURE) then
        if bool_decide (i_type p = i_type0)
           && (i_height p =? i_height0) && (i_width p =? i_width0)
        then ScanMatch i_picture
        else scan_pictures i_type0 i_width0 i_height0 l' (S i_picture)
               p_free_picture
               (match p_destroyed_picture with
                | None => Some i_picture
                | Some d => Some d
                end)
      else if match p_free_picture with None => true | Some _ => false end
              && bool_decide (i_status p = FREE_PICTURE)
      then scan_pictures i_type0 i_width0 i_height0 l' (S i_picture)
             (Some i_picture) p_destroyed_picture
      else scan_pictures i_type0 i_width0 i_height0 l' (S i_picture)
             p_free_picture p_destroyed_picture
  end.

(** Conversion of an [int] to [size_t], and a byte count in [size_t]. *)
Definition to_size_t (cfg : config) (z : Z) : Z := z mod 2 ^ size_t_bits cfg.
Definition size_of_samples (cfg : config) (n : Z) : Z :=
  to_size_t cfg (to_size_t cfg n * sizeof_yuv_data_t cfg).

(** The allocation [switch( i_type )]: chroma width, requested size and the
    plane offsets (in samples); [None] when no [case] applies. *)
Definition plane_layout (i_type0 : picture_type) (i_width0 i_height0 : Z)
    : option (Z * Z * Z * Z) :=
  match i_type0 with
  | YUV_420_PICTURE =>
      let cw := int (Z.quot i_width0 2) in
      let hc := int (i_height0 * cw) in
      Some (cw, int (hc * 3),
            int (Z.quot (int (hc * 4)) 2), int (Z.quot (int (hc * 5)) 2))
  | YUV_422_PICTURE =>
      let cw := int (Z.quot i_width0 2) in
      let hc := int (i_height0 * cw) in
      Some (cw, int (hc * 4), int (hc * 2), int (hc * 3))
  | YUV_444_PICTURE =>
      let cw := i_width0 in
      let hc := int (i_height0 * cw) in
      Some (cw, int (hc * 3), hc, int (hc * 2))
  | EMPTY_PICTURE => None
  end.

(** The "Prepare picture" part of vout_CreatePicture on the chosen slot.
    [malloc] is the allocator's answer to the one request of this call. *)
Definition prepare_picture (cfg : config) (malloc : Z -> Z)
    (i_type0 : picture_type) (i_width0 i_height0 : Z) (p : picture_t)
    : picture_t * bool * list event :=
  let '(i_chroma_width0, p1, ev) :=
    match plane_layout i_type0 i_width0 i_height0 with
    | Some (cw, n, off_u, off_v) =>
        let size := size_of_samples cfg n in
        let d := malloc size in
        (cw,
         set_planes d d (d + off_u * sizeof_yuv_data_t cfg)
                      (d + off_v * sizeof_yuv_data_t cfg) p,
         [EvMalloc size d])
    | None =>
        (0, if DEBUG cfg then set_planes 0 (p_y p) (p_u p) (p_v p) p else p, [])
    end in
  if negb (p_data p1 =? 0) then
    ({| i_type := i_type0; i_status := RESERVED_PICTURE;
        i_matrix_coefficients := 1;
        i_width := i_width0; i_height := i_height0;
        i_chroma_width := i_chroma_width0;
        i_display_horizontal_offset := 0;
        i_display_vertical_offset := 0;
        i_display_width := i_width0;
        i_display_height := i_height0;
        i_aspect_ratio := AR_SQUARE_PICTURE;
        i_refcount := 0; date := date p1;
        p_data := p_data p1; p_y := p_y p1; p_u := p_u p1; p_v := p_v p1 |},
     true, ev)
  else
    ({| i_type := EMPTY_PICTURE; i_status := FREE_PICTURE;
        i_matrix_coefficients := i_matrix_coefficients p1;
        i_width := i_width p1; i_height := i_height p1;
        i_chroma_width := i_chroma_width p1;
        i_display_horizontal_offset := i_display_horizontal_offset p1;
        i_display_vertical_offset := i_display_vertical_offset p1;
        i_display_width := i_display_width p1;
        i_display_height := i_display_height p1;
        i_aspect_ratio := i_aspect_ratio p1;
        i_refcount := i_refcount p1; date := date p1;
        p_data := p_data p1; p_y := p_y p1; p_u := p_u p1; p_v := p_v p1 |},
     false, ev ++ [EvErrMsg]).

(** vout_CreatePicture on the heap [p_picture]: the new heap, the returned
    slot ([None] is the NULL pointer) and the allocator traffic. *)
Definition vout_CreatePicture (cfg : config) (malloc : Z -> Z)
    (p_picture : list picture_t)
    (i_type0 : picture_type) (i_width0 i_height0 : Z)
    : list picture_t * option nat * list event :=
  match scan_pictures i_type0 i_width0 i_height0 p_picture 0 None None with
  | ScanMatch i =>
      match p_picture !! i with
      | Some p => (<[i := set_status RESERVED_PICTURE p]> p_picture, Some i, [])
      | None => (p_picture, None, [])
      end
  | ScanEnd p_free_picture p_destroyed_picture =>
      let '(p_free_picture, ev_free) :=
        match p_free_picture, p_destroyed_picture with
        | None, Some d =>
            (Some d,
             match p_picture !! d with
             | Some p => [EvFree (p_data p)]
             | None => []
             end)
        | _, _ => (p_free_picture, [])
        end in
      match p_free_picture with
      | Some f =>
          match p_picture !! f with
          | Some p =>
              let '(p', ok, ev) :=
                prepare_picture cfg malloc i_type0 i_width0 i_height0 p in
              (<[f := p']> p_picture, if ok then Some f else None,
               ev_free ++ ev)
          | None => (p_picture, None, ev_free)
          end
      | None => (p_picture, None, [])
      end
  end.

(** *** Back buffers and dirty bands *)

(** [vout_buffer_t]: the picture region, the dirty bands
    [pi_area_begin[i] .. pi_area_end[i]] for [i < i_areas], and the pixel
    memory as a map from byte offset to byte. *)
Record vout_buffer_t : Type := {
  i_pic_x : Z;
  i_pic_y : Z;
  i_pic_width : Z;
  i_pic_height : Z;
  i_areas : Z;
  pi_area_begin : list Z;
  pi_area_end : list Z;
  buf_data : Z -> Z
}.

Definition set_areas (n : Z) (pb pe : list Z) (b : vout_buffer_t) : vout_buffer_t :=
  {| i_pic_x := i_pic_x b; i_pic_y := i_pic_y b;
     i_pic_width := i_pic_width b; i_pic_height := i_pic_height b;
     i_areas := n; pi_area_begin := pb; pi_area_end := pe;
     buf_data := buf_data b |}.

Definition set_pic (x y w h : Z) (b : vout_buffer_t) : vout_buffer_t :=
  {| i_pic_x := x; i_pic_y := y; i_pic_width := w; i_pic_height := h;
     i_areas := i_areas b; pi_area_begin := pi_area_begin b;
     pi_area_end := pi_area_end b; buf_data := buf_data b |}.

Definition set_data (m : Z -> Z) (b : vout_buffer_t) : vout_buffer_t :=
  {| i_pic_x := i_pic_x b; i_pic_y := i_pic_y b;
     i_pic_width := i_pic_width b; i_pic_height := i_pic_height b;
     i_areas := i_areas b; pi_area_begin := pi_area_begin b;
     pi_area_end := pi_area_end b; buf_data := m |}.

(** SetBufferArea, "Skip some extensions until interesting areas":
    [for( i_area = 0; i_area < i_areas && pi_area_end[i_area] + 1 <= i_y; i_area++ )]. *)
Fixpoint skip_areas (fuel : nat) (b : vout_buffer_t) (i_y i_area : Z) : outcome Z :=
  match fuel with
  | O => Timeout
  | S fuel' =>
      if i_area <? i_areas b then
        do e <- arr_get (pi_area_end b) i_area;
        if int (e + 1) <=? i_y
        then skip_areas fuel' b i_y (int (i_area + 1))
        else Done i_area
      else Done i_area
  end.

(** "move all old areas down":
    [for( i_area_copy = i_areas - 1; i_area_copy > i_area; i_area_copy++ )]. *)
Fixpoint move_areas_down (fuel : nat) (b : vout_buffer_t) (i_area i_area_copy : Z)
    : outcome vout_buffer_t :=
  match fuel with
  | O => Timeout
  | S fuel' =>
      if i_area_copy >? i_area then
        do x <- arr_get (pi_area_begin b) (int (i_area_copy - 1));
        do pb <- arr_set (pi_area_begin b) i_area_copy x;
        do y <- arr_get (pi_area_end b) (int (i_area_copy - 1));
        do pe <- arr_set (pi_area_end b) i_area_copy y;
        move_areas_down fuel' (set_areas (i_areas b) pb pe b) i_area
                        (int (i_area_copy + 1))
      else Done b
  end.

(** "Find further areas which can be merged with the new one":
    [for( i_area_copy = i_area + 1;
          i_area_copy < i_areas && pi_area_begin[i_area] <= i_h; i_area_copy++ )]. *)
Fixpoint find_merge_end (fuel : nat) (b : vout_buffer_t) (i_area i_h i_area_copy : Z)
    : outcome Z :=
  match fuel with
  | O => Timeout
  | S fuel' =>
      if i_area_copy <? i_areas b then
        do x <- arr_get (pi_area_begin b) i_area;
        if x <=? i_h
        then find_merge_end fuel' b i_area i_h (int (i_area_copy + 1))
        else Done i_area_copy
      else Done i_area_copy
  end.

(** "Shift lower areas upward":
    [for( i_area_copy = i_area + 1; i_area_copy < i_areas; i_area_copy++ )]. *)
Fixpoint shift_areas_up (fuel : nat) (b : vout_buffer_t) (i_area_shift i_area_copy : Z)
    : outcome vout_buffer_t :=
  match fuel with
  | O => Timeout
  | S fuel' =>
      if i_area_copy <? i_areas b then
        do x <- arr_get (pi_area_begin b) (int (i_area_copy + i_area_shift));
        do pb <- arr_set (pi_area_begin b) i_area_copy x;
        do y <- arr_get (pi_area_end b) (int (i_area_copy + i_area_shift));
        do pe <- arr_set (pi_area_end b) i_area_copy y;
        shift_areas_up fuel' (set_areas (i_areas b) pb pe b) i_area_shift
                       (int (i_area_copy + 1))
      else Done b
  end.

(** SetBufferArea, [if( i_h > i_area_end )]: the band [i_area] grows
    downward to [i_h]. *)
Definition SetBufferArea_below (fuel : nat) (b : vout_buffer_t)
    (i_area i_area_end i_h : Z) : outcome vout_buffer_t :=
  if i_h >? i_area_end then
    do c <- find_merge_end fuel b i_area i_h (int (i_area + 1));
    let i_area_copy := int (c - 1) in
    if negb (i_area_copy =? i_area) then
      do e <- arr_get (pi_area_end b) i_area_copy;
      do pe <- arr_set (pi_area_end b) i_area (Z.max i_h e);
      let i_area_shift := int (i_area_copy - i_area) in
      let b1 := set_areas (int (i_areas b - i_area_shift))
                          (pi_area_begin b) pe b in
      shift_areas_up fuel b1 i_area_shift (int (i_area + 1))
    else
      do pe <- arr_set (pi_area_end b) i_area i_h;
      Done (set_areas (i_areas b) (pi_area_begin b) pe b)
  else Done b.

(** SetBufferArea, "Create a new area above": the last two bands are
    merged when the array is full, the bands from [i_area] on are moved
    down, and the new band is stored. *)
Definition SetBufferArea_above (cfg : config) (fuel : nat) (b : vout_buffer_t)
    (i_area i_y i_h : Z) : outcome vout_buffer_t :=
  do b1 <-
    (if i_areas b =? VOUT_MAX_AREAS cfg then
       do e <- arr_get (pi_area_end b) (int (VOUT_MAX_AREAS cfg - 1));
       do pe <- arr_set (pi_area_end b) (int (VOUT_MAX_AREAS cfg - 2)) e;
       Done (set_areas (i_areas b) (pi_area_begin b) pe b)
     else Done (set_areas (int (i_areas b + 1)) (pi_area_begin b)
                          (pi_area_end b) b));
  do b2 <- move_areas_down fuel b1 i_area (int (i_areas b1 - 1));
  do pb <- arr_set (pi_area_begin b2) i_area i_y;
  do pe <- arr_set (pi_area_end b2) i_area i_h;
  Done (set_areas (i_areas b2) pb pe b2).

(** The part of SetBufferArea after the picture test: the band
    [i_y .. i_h] ([i_h] already is the end row) enters the band list. *)
Definition SetBufferArea_bands (cfg : config) (fuel : nat) (b : vout_buffer_t)
    (i_y i_h : Z) : outcome vout_buffer_t :=
  do i_area <- skip_areas fuel b i_y 0;
  if i_area =? i_areas b then
    if i_area <? VOUT_MAX_AREAS cfg then
      do pb <- arr_set (pi_area_begin b) i_area i_y;
      do pe <- arr_set (pi_area_end b) i_area i_h;
      Done (set_areas (int (i_areas b + 1)) pb pe b)
    else
      do pe <- arr_set (pi_area_end b) (int (VOUT_MAX_AREAS cfg - 1)) i_h;
      Done (set_areas (i_areas b) (pi_area_begin b) pe b)
  else
    do i_area_begin <- arr_get (pi_area_begin b) i_area;
    do i_area_end <- arr_get (pi_area_end b) i_area;
    if i_y <? i_area_begin then
      if i_h >=? int (i_area_begin - 1) then
        do pb <- arr_set (pi_area_begin b) i_area i_y;
        SetBufferArea_below fuel (set_areas (i_areas b) pb (pi_area_end b) b)
                            i_area i_area_end i_h
      else SetBufferArea_above cfg fuel b i_area i_y i_h
    else SetBufferArea_below fuel b i_area i_area_end i_h.

(** The two tests of SetBufferArea on the picture region, for the band
    [i_y .. i_h] of the columns [i_x .. i_x + i_w - 1]: the columns lie
    inside the picture's, and the rows meet the picture's. *)
Definition meets_picture (b : vout_buffer_t) (i_x i_y i_w i_h : Z) : bool :=
  let i_area_begin := i_pic_y b in
  let i_area_end := int (int (i_area_begin + i_pic_height b) - 1) in
  (i_x >=? i_pic_x b)
  && (int (i_x + i_w) <=? int (i_pic_x b + i_pic_width b))
  && (((i_y >=? i_area_begin) && (i_y <=? i_area_end))
      || ((i_h >=? i_area_begin) && (i_h <=? i_area_end))
      || ((i_y <? i_area_begin) && (i_h >? i_area_end))).

(** SetBufferArea on the current buffer [p_buffer]. *)
Fixpoint SetBufferArea (cfg : config) (fuel : nat) (b : vout_buffer_t)
    (i_x i_y i_w i_h : Z) : outcome vout_buffer_t :=
  match fuel with
  | O => Timeout
  | S fuel' =>
      let i_h := int (i_h + int (i_y - 1)) in
      let i_area_begin := i_pic_y b in
      let i_area_end := int (int (i_area_begin + i_pic_height b) - 1) in
      if meets_picture b i_x i_y i_w i_h
      then
        do b1 <- (if i_y <? i_area_begin
                  then SetBufferArea cfg fuel' b i_x i_y i_w (int (i_area_begin - i_y))
                  else Done b);
        if i_h >? i_area_end
        then SetBufferArea cfg fuel' b1 i_x i_area_end i_w (int (i_h - i_area_end))
        else Done b1
      else SetBufferArea_bands cfg fuel b i_y i_h
  end.

(** *** The output thread *)

(** [vout_thread_t], without the thread handle, locks, fonts and colour
    tables.  [v_i_width] and [v_i_height] are its [i_width] and [i_height];
    [p_buffer] holds the two back buffers. *)
Record vout_thread_t : Type := {
  b_die : bool;
  b_error : bool;
  b_active : bool;
  v_i_width : Z;
  v_i_height : Z;
  i_bytes_per_line : Z;
  i_bytes_per_pixel : Z;
  b_info : bool;
  b_interface : bool;
  b_scale : bool;
  i_changes : Z;
  last_picture_date : Z;
  i_buffer_index : Z;
  p_picture : list picture_t;
  p_buffer : list vout_buffer_t;
  c_fps_samples : Z;
  p_fps_sample : list Z;
  render_time : Z
}.

Definition set_p_picture (l : list picture_t) (v : vout_thread_t) : vout_thread_t :=
  {| b_die := b_die v; b_error := b_error v; b_active := b_active v;
     v_i_width := v_i_width v; v_i_height := v_i_height v;
     i_bytes_per_line := i_bytes_per_line v;
     i_bytes_per_pixel := i_bytes_per_pixel v;
     b_info := b_info v; b_interface := b_interface v; b_scale := b_scale v;
     i_changes := i_changes v; last_picture_date := last_picture_date v;
     i_buffer_index := i_buffer_index v;
     p_picture := l; p_buffer := p_buffer v;
     c_fps_samples := c_fps_samples v; p_fps_sample := p_fps_sample v;
     render_time := render_time v |}.

Definition set_p_buffer (l : list vout_buffer_t) (v : vout_thread_t) : vout_thread_t :=
  {| b_die := b_die v; b_error := b_error v; b_active := b_active v;
     v_i_width := v_i_width v; v_i_height := v_i_height v;
     i_bytes_per_line := i_bytes_per_line v;
     i_bytes_per_pixel := i_bytes_per_pixel v;
     b_info := b_info v; b_interface := b_interface v; b_scale := b_scale v;
     i_changes := i_changes v; last_picture_date := last_picture_date v;
     i_buffer_index := i_buffer_index v;
     p_picture := p_picture v; p_buffer := l;
     c_fps_samples := c_fps_samples v; p_fps_sample := p_fps_sample v;
     render_time := render_time v |}.

Definition set_stats (c : Z) (samples : list Z) (rt : Z) (v : vout_thread_t)
    : vout_thread_t :=
  {| b_die := b_die v; b_error := b_error v; b_active := b_active v;
     v_i_width := v_i_width v; v_i_height := v_i_height v;
     i_bytes_per_line := i_bytes_per_line v;
     i_bytes_per_pixel := i_bytes_per_pixel v;
     b_info := b_info v; b_interface := b_interface v; b_scale := b_scale v;
     i_changes := i_changes v; last_picture_date := last_picture_date v;
     i_buffer_index := i_buffer_index v;
     p_picture := p_picture v; p_buffer := p_buffer v;
     c_fps_samples := c; p_fps_sample := samples; render_time := rt |}.

(** The fields the end of an iteration writes: [last_picture_date],
    [i_buffer_index], [i_changes], [b_error]. *)
Definition set_run (lpd idx chg : Z) (err : bool) (v : vout_thread_t) : vout_thread_t :=
  {| b_die := b_die v; b_error := err; b_active := b_active v;
     v_i_width := v_i_width v; v_i_height := v_i_height v;
     i_bytes_per_line := i_bytes_per_line v;
     i_bytes_per_pixel := i_bytes_per_pixel v;
     b_info := b_info v; b_interface := b_interface v; b_scale := b_scale v;
     i_changes := chg; last_picture_date := lpd;
     i_buffer_index := idx;
     p_picture := p_picture v; p_buffer := p_buffer v;
     c_fps_samples := c_fps_samples v; p_fps_sample := p_fps_sample v;
     render_time := render_time v |}.

(** [&p_vout->p_buffer[ p_vout->i_buffer_index ]]. *)
Definition current_buffer (v : vout_thread_t) : outcome vout_buffer_t :=
  if (0 <=? i_buffer_index v) && (i_buffer_index v <? Z.of_nat (length (p_buffer v)))
  then match p_buffer v !! Z.to_nat (i_buffer_index v) with
       | Some b => Done b
       | None => Fault
       end
  else Fault.

Definition set_current_buffer (b : vout_buffer_t) (v : vout_thread_t) : vout_thread_t :=
  set_p_buffer (<[Z.to_nat (i_buffer_index v) := b]> (p_buffer v)) v.

(** vout_ClearBuffer. *)
Definition vout_ClearBuffer (v : vout_thread_t) (b : vout_buffer_t)
    : outcome vout_buffer_t :=
  let b := set_pic 0 0 0 0 b in
  do pb <- arr_set (pi_area_begin b) 0 0;
  do pe <- arr_set (pi_area_end b) 0 (int (v_i_height v - 1));
  Done (set_areas 1 pb pe b).

(** "Computes new picture size" of SetBufferPicture for a picture:
    [(i_pic_x, i_pic_y, i_pic_width, i_pic_height)]. *)
Definition picture_box (v : vout_thread_t) (p_pic : picture_t)
    : outcome (Z * Z * Z * Z) :=
  let i_vout_width := v_i_width v in
  let i_vout_height := v_i_height v in
  let i_pic_width0 :=
    if b_scale v || (i_width p_pic >? i_vout_width)
    then i_vout_width else i_width p_pic in
  let i_pic_width0 := int (int (Z.quot i_pic_width0 16) * 16) in
  do i_pic_height0 <-
    match i_aspect_ratio p_pic with
    | AR_3_4_PICTURE => Done (int (Z.quot (int (i_pic_width0 * 3)) 4))
    | AR_16_9_PICTURE => Done (int (Z.quot (int (i_pic_width0 * 9)) 16))
    | AR_221_1_PICTURE => Done (int (Z.quot (int (i_pic_width0 * 100)) 221))
    | AR_SQUARE_PICTURE =>
        cdiv (int (i_height p_pic * i_pic_width0)) (i_width p_pic)
    end;
  do '(w, h) <-
    (if i_pic_height0 >? i_vout_height then
       let i_pic_height1 :=
         if b_scale v || (i_height p_pic >? i_vout_height)
         then i_vout_height else i_height p_pic in
       do i_pic_width1 <-
         match i_aspect_ratio p_pic with
         | AR_3_4_PICTURE => Done (int (Z.quot (int (i_pic_height1 * 4)) 3))
         | AR_16_9_PICTURE => Done (int (Z.quot (int (i_pic_height1 * 16)) 9))
         | AR_221_1_PICTURE => Done (int (Z.quot (int (i_pic_height1 * 221)) 100))
         | AR_SQUARE_PICTURE =>
             cdiv (int (i_width p_pic * i_pic_height1)) (i_height p_pic)
         end;
       Done (int (int (Z.quot i_pic_width1 16) * 16), i_pic_height1)
     else Done (i_pic_width0, i_pic_height0));
  Done (int (Z.quot (int (v_i_width v - w)) 2),
        int (Z.quot (int (v_i_height v - h)) 2), w, h).

(** "Clear areas" of SetBufferPicture.  [p_data] is a [u64 *]: every
    [*p_data++ = 0] zeroes [sizeof_u64] bytes and advances by as much. *)
Definition sizeof_u64 : Z := 8.

Definition store_u64 (m : Z -> Z) (p : Z) : Z -> Z :=
  fun a => if (p <=? a) && (a <? p + sizeof_u64) then 0 else m a.

Fixpoint clear_words (k : nat) (m : Z -> Z) (p : Z) : (Z -> Z) * Z :=
  match k with
  | O => (m, p)
  | S k' => clear_words k' (store_u64 m p) (p + sizeof_u64)
  end.

(** "Clear 256 bytes block": 32 stores per iteration. *)
Fixpoint clear_blocks (n : nat) (m : Z -> Z) (p : Z) : (Z -> Z) * Z :=
  match n with
  | O => (m, p)
  | S n' => let '(m', p') := clear_words 32 m p in clear_blocks n' m' p'
  end.

(** Body of the loop over the areas. *)
Definition clear_area (i_bytes_per_line0 : Z) (b : vout_buffer_t) (i_area : Z)
    : outcome vout_buffer_t :=
  do pb <- arr_get (pi_area_begin b) i_area;
  do pe <- arr_get (pi_area_end b) i_area;
  let p := int (i_bytes_per_line0 * pb) in
  let bytes := int (int (int (pe - pb) + 1) * i_bytes_per_line0) in
  let i_data_size := int (Z.quot bytes 256) in
  let '(m1, p1) := clear_blocks (Z.to_nat i_data_size) (buf_data b) p in
  let i_data_size := int (Z.quot (Z.rem bytes 256) 4) in
  let '(m2, _) := clear_words (Z.to_nat i_data_size) m1 p1 in
  Done (set_data m2 b).

(** [for( i_area = 0; i_area < p_buffer->i_areas; i_area++ )]. *)
Fixpoint clear_areas (fuel : nat) (i_bytes_per_line0 : Z) (b : vout_buffer_t)
    (i_area : Z) : outcome vout_buffer_t :=
  match fuel with
  | O => Timeout
  | S fuel' =>
      if i_area <? i_areas b then
        do b' <- clear_area i_bytes_per_line0 b i_area;
        clear_areas fuel' i_bytes_per_line0 b' (int (i_area + 1))
      else Done b
  end.

(** SetBufferPicture; [p_pic = None] is the NULL picture. *)
Definition SetBufferPicture (cfg : config) (fuel : nat) (v : vout_thread_t)
    (p_pic : option picture_t) : outcome vout_thread_t :=
  do b <- current_buffer v;
  do '(x, y, w, h) <-
    match p_pic with
    | Some p => picture_box v p
    | None => Done (0, 0, 0, 0)
    end;
  do b1 <-
    (if (i_pic_width b >? w) || (i_pic_height b >? h) then
       let i_old_pic_y := i_pic_y b in
       let i_old_pic_height := i_pic_height b in
       SetBufferArea cfg fuel (set_pic x y w h b)
                     0 i_old_pic_y (v_i_width v) i_old_pic_height
     else Done (set_pic x y w h b));
  do b2 <- clear_areas fuel (i_bytes_per_line v) b1 0;
  Done (set_current_buffer
          (set_areas 0 (pi_area_begin b2) (pi_area_end b2) b2) v).

(** Collaborators of the output thread that are not in the sources: the
    chroma converters, the text overlays (they end in [Print], whose sizes
    come from the fonts) and the window system. The overlays act on the
    current buffer.  Modelled from the spec: [vout_SysManage] is the window
    system's part of the management pass; it acknowledges change flags and
    reports a fatal error. *)
Record collaborators : Type := {
  Convert : picture_t -> Z -> Z -> Z -> Z -> Z -> Z -> (Z -> Z) -> (Z -> Z);
  RenderPictureInfo : vout_thread_t -> picture_t -> outcome vout_buffer_t;
  RenderInfo : vout_thread_t -> outcome vout_buffer_t;
  RenderInterface : vout_thread_t -> outcome vout_buffer_t;
  vout_SysManage : vout_thread_t -> Z * bool
}.

(** RenderPicture. *)
Definition RenderPicture (env : collaborators) (v : vout_thread_t)
    (p_pic : picture_t) : outcome vout_thread_t :=
  do b <- current_buffer v;
  let v := set_run (date p_pic) (i_buffer_index v) (i_changes v) (b_error v) v in
  let p_convert_dst :=
    int (i_pic_x b * i_bytes_per_pixel v) + int (i_pic_y b * i_bytes_per_line v) in
  let i_width0 := Z.min (i_width p_pic) (i_pic_width b) in
  do q <- cdiv (i_bytes_per_line v) (i_bytes_per_pixel v);
  let i_pic_eol := int (q - i_width0) in
  do i_scale <-
    (if i_height p_pic =? i_pic_height b then Done 0
     else cdiv (i_height p_pic) (int (i_height p_pic - i_pic_height b)));
  let i_eol := int (i_width p_pic - i_pic_width b) in
  do i_height0 <- cdiv (int (i_height p_pic * i_width0)) (i_width p_pic);
  match i_type p_pic with
  | EMPTY_PICTURE => Done v
  | _ =>
      Done (set_current_buffer
              (set_data (Convert env p_pic p_convert_dst i_width0 i_height0
                                 i_eol i_pic_eol i_scale (buf_data b)) b) v)
  end.

(** Manage: the new [i_changes], the return value and the calls made. *)
Definition Manage (cfg : config) (v : vout_thread_t) : Z * bool * list event :=
  let ev :=
    if negb (Z.land (i_changes v)
                    (Z.lor (VOUT_GAMMA_CHANGE cfg) (VOUT_GRAYSCALE_CHANGE cfg)) =? 0)
    then [EvResetTables] else [] in
  let mask :=
    Z.lor (VOUT_GAMMA_CHANGE cfg)
      (Z.lor (VOUT_GRAYSCALE_CHANGE cfg)
         (Z.lor (VOUT_INFO_CHANGE cfg)
            (Z.lor (VOUT_INTF_CHANGE cfg) (VOUT_SCALE_CHANGE cfg)))) in
  let chg := Z.land (i_changes v) (Z.lnot mask) in
  if negb (chg =? 0) then (chg, true, ev ++ [EvErrMsg]) else (chg, false, ev).

(** "Find the picture to display": the loop over the heap, with the
    running [p_pic] and [display_date]. *)
Fixpoint find_picture (l : list picture_t) (i_index : nat)
    (p_pic : option nat) (display_date : Z) : option nat * Z :=
  match l with
  | [] => (p_pic, display_date)
  | p :: l' =>
      if bool_decide (i_status p = READY_PICTURE)
         && (match p_pic with None => true | Some _ => false end
             || (date p <? display_date))
      then find_picture l' (S i_index) (Some i_index) (date p)
      else find_picture l' (S i_index) p_pic display_date
  end.

(** [p_pic->i_status = p_pic->i_refcount ? DISPLAYED_PICTURE : DESTROYED_PICTURE]. *)
Definition remove_from_heap (p_pic : picture_t) : picture_t :=
  set_status (if i_refcount p_pic =? 0 then DESTROYED_PICTURE
              else DISPLAYED_PICTURE) p_pic.

(** First part of an iteration of the main loop of RunThread: selection,
    the STATS sample, and the date test against [current_date = mdate()].
    Returns the thread, [p_pic] and [display_date]. *)
Definition RunThread_select (cfg : config) (current_date : Z) (v : vout_thread_t)
    : outcome (vout_thread_t * option nat * Z) :=
  let '(p_pic, display_date) := find_picture (p_picture v) 0 None 0 in
  match p_pic with
  | Some i =>
      do v1 <-
        (if STATS cfg then
           do q <- (if VOUT_FPS_SAMPLES cfg =? 0 then Fault
                    else Done (Z.rem (c_fps_samples v) (VOUT_FPS_SAMPLES cfg)));
           do s <- arr_set (p_fps_sample v) q display_date;
           Done (set_stats (c_fps_samples v + 1) s (render_time v) v)
         else Done v);
      if display_date <? current_date then
        Done (set_p_picture (alter remove_from_heap i (p_picture v1)) v1, None, 0)
      else if display_date >? int64 (current_date + VOUT_DISPLAY_DELAY cfg) then
        Done (v1, None, 0)
      else Done (v1, Some i, display_date)
  | None => Done (v, None, 0)
  end.

(** "Perform rendering": the thread, [b_display] and the render calls.
    [p_spu] is NULL throughout (the subpicture search is a placeholder in
    the source), so only the picture branch and the idle branch remain. *)
Definition RunThread_render (cfg : config) (env : collaborators) (fuel : nat)
    (v : vout_thread_t) (p_pic : option nat)
    : outcome (vout_thread_t * bool * list event) :=
  match p_pic with
  | Some i =>
      match p_picture v !! i with
      | None => Fault
      | Some pic =>
          let b_display := b_active v in
          do '(v1, ev1) <-
            (if b_display then
               do va <- SetBufferPicture cfg fuel v (Some pic);
               do vb <- RenderPicture env va pic;
               do '(vc, ev) <-
                 (if b_info vb then
                    do b1 <- RenderPictureInfo env vb pic;
                    let vb1 := set_current_buffer b1 vb in
                    do b2 <- RenderInfo env vb1;
                    Done (set_current_buffer b2 vb1,
                          [EvRenderPictureInfo i; EvRenderInfo])
                  else Done (vb, []));
               Done (vc, [EvSetBufferPicture (Some i); EvRenderPicture i] ++ ev)
             else Done (v, []));
          let v2 := set_p_picture (alter remove_from_heap i (p_picture v1)) v1 in
          do '(v3, ev2) <-
            (if b_display && b_interface v2 then
               do b3 <- RenderInterface env v2;
               Done (set_current_buffer b3 v2, [EvRenderInterface])
             else Done (v2, []));
          Done (v3, b_display, ev1 ++ ev2)
      end
  | None => Done (v, false, [])
  end.

(** One iteration of the main loop of RunThread.  [current_date] is the
    first [mdate()], [render_date] the one read for [render_time]. *)
Definition RunThread_iteration (cfg : config) (env : collaborators) (fuel : nat)
    (current_date render_date : Z) (v : vout_thread_t)
    : outcome (vout_thread_t * list event) :=
  do '(v1, p_pic, display_date) <- RunThread_select cfg current_date v;
  do '(v2, b_display, ev_render) <- RunThread_render cfg env fuel v1 p_pic;
  let v3 :=
    if STATS cfg
    then set_stats (c_fps_samples v2) (p_fps_sample v2)
                   (int64 (render_date - current_date)) v2
    else v2 in
  let ev_sleep :=
    if negb (display_date =? 0) then [EvMwait display_date] else [EvMsleepIdle] in
  let '(v4, ev_display) :=
    if b_display && (Z.land (i_changes v3) (VOUT_NODISPLAY_CHANGE cfg) =? 0)
    then (set_run (last_picture_date v3)
                  (Z.land (int (i_buffer_index v3 + 1)) 1)
                  (i_changes v3) (b_error v3) v3, [EvSysDisplay])
    else (v3, []) in
  let '(chg, r1) := vout_SysManage env v4 in
  let v5 := set_run (last_picture_date v4) (i_buffer_index v4) chg (b_error v4) v4 in
  let '(chg', r2, ev_manage) := Manage cfg v5 in
  let v6 := set_run (last_picture_date v5) (i_buffer_index v5) chg'
                    (if r1 || r2 then true else b_error v5) v5 in
  Done (v6, ev_render ++ ev_sleep ++ ev_display ++ [EvSysManage] ++ ev_manage).

(** One call on the heap or one iteration of the output thread, as a
    transition of the thread record; slots are named by index. *)
Inductive heap_op : Type :=
| OpCreatePicture (malloc : Z -> Z) (t : picture_type) (w h : Z)
| OpDisplayPicture (slot : nat)
| OpDatePicture (slot : nat) (d : Z)
| OpDestroyPicture (slot : nat)
| OpLinkPicture (slot : nat)
| OpUnlinkPicture (slot : nat)
| OpRunThread (fuel : nat) (current_date render_date : Z).

Definition heap_step (cfg : config) (env : collaborators) (op : heap_op)
    (v : vout_thread_t) : outcome vout_thread_t :=
  match op with
  | OpCreatePicture malloc t w h =>
      let '(l, _, _) := vout_CreatePicture cfg malloc (p_picture v) t w h in
      Done (set_p_picture l v)
  | OpDisplayPicture i =>
      Done (set_p_picture (alter vout_DisplayPicture i (p_picture v)) v)
  | OpDatePicture i d =>
      Done (set_p_picture (alter (fun p => vout_DatePicture p d) i (p_picture v)) v)
  | OpDestroyPicture i =>
      Done (set_p_picture (alter vout_DestroyPicture i (p_picture v)) v)
  | OpLinkPicture i =>
      Done (set_p_picture (alter vout_LinkPicture i (p_picture v)) v)
  | OpUnlinkPicture i =>
      Done (set_p_picture (alter (vout_UnlinkPicture cfg) i (p_picture v)) v)
  | OpRunThread fuel current_date render_date =>
      do '(v', _) <- RunThread_iteration cfg env fuel current_date render_date v;
      Done v'
  end.

(** The calls that render into a back buffer or show one. *)
Definition is_render (e : event) : bool :=
  match e with
  | EvSetBufferPicture _ | EvRenderPicture _ | EvRenderPictureInfo _
  | EvRenderInfo | EvRenderInterface | EvRenderSubPictureUnit
  | EvSysDisplay => true
  | _ => false
  end.

(** The STATS sample of an iteration can be stored: the build has no
    STATS, or [c_fps_samples % VOUT_FPS_SAMPLES] is an index of
    [p_fps_sample]. *)
Definition stats_ok (cfg : config) (v : vout_thread_t) : Prop :=
  STATS cfg = false
  \/ (VOUT_FPS_SAMPLES cfg <> 0
      /\ 0 <= Z.rem (c_fps_samples v) (VOUT_FPS_SAMPLES cfg)
           < Z.of_nat (length (p_fps_sample v))).

(** The thread after the STATS sample of an iteration. *)
Definition after_sample (cfg : config) (v : vout_thread_t) (D : Z) : vout_thread_t :=
  if STATS cfg
  then set_stats (c_fps_samples v + 1)
         (<[Z.to_nat (Z.rem (c_fps_samples v) (VOUT_FPS_SAMPLES cfg)) := D]>
            (p_fps_sample v))
         (render_time v) v
  else v.

(** The picture box in the words of the specification, with exact
    integers: the side to fit is the sink's when scaling is on or the
    source is larger, the width is rounded down to a multiple of 16, the
    other side follows from the aspect ratio, and the box is centred. *)
Definition fit (scale : bool) (sink src : Z) : Z :=
  if scale || (src >? sink) then sink else src.

Definition round16 (x : Z) : Z := 16 * (x / 16).

Definition height_of_width (ar : aspect_ratio) (pw ph w : Z) : Z :=
  match ar with
  | AR_3_4_PICTURE => w * 3 / 4
  | AR_16_9_PICTURE => w * 9 / 16
  | AR_221_1_PICTURE => w * 100 / 221
  | AR_SQUARE_PICTURE => ph * w / pw
  end.

Definition width_of_height (ar : aspect_ratio) (pw ph h : Z) : Z :=
  match ar with
  | AR_3_4_PICTURE => h * 4 / 3
  | AR_16_9_PICTURE => h * 16 / 9
  | AR_221_1_PICTURE => h * 221 / 100
  | AR_SQUARE_PICTURE => pw * h / ph
  end.

Definition box_size (v : vout_thread_t) (p : picture_t) : Z * Z :=
  let w0 := round16 (fit (b_scale v) (v_i_width v) (i_width p)) in
  let h0 := height_of_width (i_aspect_ratio p) (i_width p) (i_height p) w0 in
  if h0 >? v_i_height v then
    let h1 := fit (b_scale v) (v_i_height v) (i_height p) in
    (round16 (width_of_height (i_aspect_ratio p) (i_width p) (i_height p) h1), h1)
  else (w0, h0).

(** The rows the bands of a buffer cover. *)
Definition covered (b : vout_buffer_t) (row : Z) : Prop :=
  exists (j : nat) (x y : Z),
    Z.of_nat j < i_areas b /\ pi_area_begin b !! j = Some x
    /\ pi_area_end b !! j = Some y /\ x <= row <= y.

(** The band list is within its array, every band is a range of rows
    below 2^30, and the bands are sorted and do not overlap. *)
Definition bands_wf (cfg : config) (b : vout_buffer_t) : Prop :=
  1 <= VOUT_MAX_AREAS cfg < 2 ^ 30
  /\ Z.of_nat (length (pi_area_begin b)) = VOUT_MAX_AREAS cfg
  /\ Z.of_nat (length (pi_area_end b)) = VOUT_MAX_AREAS cfg
  /\ 0 <= i_areas b <= VOUT_MAX_AREAS cfg
  /\ (forall (j : nat) x y,
        Z.of_nat j < i_areas b -> pi_area_begin b !! j = Some x ->
        pi_area_end b !! j = Some y -> 0 <= x <= y /\ y < 2 ^ 30)
  /\ (forall (j k : nat) y x,
        (j < k)%nat -> Z.of_nat k < i_areas b ->
        pi_area_end b !! j = Some y -> pi_area_begin b !! k = Some x -> y < x).

(** Every band ends above row [R]. *)
Definition rows_below (b : vout_buffer_t) (R : Z) : Prop :=
  forall (j : nat) e,
    Z.of_nat j < i_areas b -> pi_area_end b !! j = Some e -> e < R.

(** The mark [y .. h] lies in a gap above an existing band and does not
    reach it: the case in which SetBufferArea makes a new band above. *)
Definition in_gap_above (b : vout_buffer_t) (y h : Z) : Prop :=
  exists (k : nat) (x : Z),
    Z.of_nat k < i_areas b /\ pi_area_begin b !! k = Some x
    /\ h < x - 1
    /\ forall (j : nat) e, (j < k)%nat -> pi_area_end b !! j = Some e -> e < y.








(** The three kinds of slot vout_CreatePicture looks for, in the words of
    the specification: a destroyed slot of the requested type and size, a
    free slot, a destroyed slot. *)
Definition reusable (t : picture_type) (w h : Z) (p : picture_t) : Prop :=
  i_status p = DESTROYED_PICTURE /\ i_type p = t /\ i_height p = h /\ i_width p = w.
Definition is_free (p : picture_t) : Prop := i_status p = FREE_PICTURE.
Definition is_destroyed (p : picture_t) : Prop := i_status p = DESTROYED_PICTURE.

(** An index already kept, or else the one found from offset [i] on. *)
Definition or_first (acc : option nat) (i : nat) (found : option (nat * picture_t))
    : option nat :=
  match acc with
  | Some a => Some a
  | None => (fun jp => (i + fst jp)%nat) <$> found
  end.

#[global] Instance reusable_dec t w h p : Decision (reusable t w h p).
Proof. unfold reusable. apply _. Defined.
#[global] Instance is_free_dec p : Decision (is_free p).
Proof. unfold is_free. apply _. Defined.
#[global] Instance is_destroyed_dec p : Decision (is_destroyed p).
Proof. unfold is_destroyed. apply _. Defined.

End VideoOutput.

(** ** Decoder *)

Module Decoder.

(** The preprocessor switch of [decoder.c] and the constants it takes from
    headers that are not among the sources. *)
Record config : Type := {
  ENABLE_SOUT : bool;
  VLC_TS_INVALID : Z;
  INPUT_RATE_DEFAULT : Z;
  BLOCK_FLAG_DISCONTINUITY : Z;
  BLOCK_FLAG_CORRUPTED : Z;
  BLOCK_FLAG_PREROLL : Z;
  BLOCK_FLAG_CORE_FLUSH : Z;
  BLOCK_FLAG_CORE_PRIVATE_MASK : Z
}.

Inductive vlc_status : Type := VLC_SUCCESS | VLC_EGENERIC.

Inductive es_category : Type := UNKNOWN_ES | VIDEO_ES | AUDIO_ES | SPU_ES.

(** [block_t]: flags, size of the payload, timestamps, duration. *)
Record block_t : Type := {
  i_flags : Z;
  i_buffer : Z;
  i_pts : Z;
  i_dts : Z;
  i_length : Z
}.

Definition set_flags (f : Z) (b : block_t) : block_t :=
  {| i_flags := f; i_buffer := i_buffer b; i_pts := i_pts b;
     i_dts := i_dts b; i_length := i_length b |}.

(** [decoder_owner_sys_t], without the thread handle, the sinks other than
    the presence of the audio output, the format snapshot and the
    synchronisation objects.  [p_fifo] is the queue's content, [p_clock]
    and the closed-caption decoders are handles, [cc_pb_present] and
    [cc_pp_decoder] are the two arrays of [cc]. *)
Record decoder_owner_sys_t : Type := {
  i_preroll_end : Z;
  p_clock : option nat;
  b_packetizer : bool;
  p_fifo : list block_t;
  p_aout : option nat;
  b_paused : bool;
  b_waiting : bool;
  b_first : bool;
  b_has_data : bool;
  b_flushing : bool;
  b_draining : bool;
  b_drained : bool;
  b_idle : bool;
  cc_pb_present : list bool;
  cc_pp_decoder : list (option nat);
  i_ts_delay : Z
}.

Definition set_fifo (f : list block_t) (o : decoder_owner_sys_t) : decoder_owner_sys_t :=
  {| i_preroll_end := i_preroll_end o;
     p_clock := p_clock o;
     b_packetizer := b_packetizer o;
     p_fifo := f;
     p_aout := p_aout o;
     b_paused := b_paused o;
     b_waiting := b_waiting o;
     b_first := b_first o;
     b_has_data := b_has_data o;
     b_flushing := b_flushing o;
     b_draining := b_draining o;
     b_drained := b_drained o;
     b_idle := b_idle o;
     cc_pb_present := cc_pb_present o;
     cc_pp_decoder := cc_pp_decoder o;
     i_ts_delay := i_ts_delay o |}.

Definition set_preroll_end (t : Z) (o : decoder_owner_sys_t) : decoder_owner_sys_t :=
  {| i_preroll_end := t;
     p_clock := p_clock o;
     b_packetizer := b_packetizer o;
     p_fifo := p_fifo o;
     p_aout := p_aout o;
     b_paused := b_paused o;
     b_waiting := b_waiting o;
     b_first := b_first o;
     b_has_data := b_has_data o;
     b_flushing := b_flushing o;
     b_draining := b_draining o;
     b_drained := b_drained o;
     b_idle := b_idle o;
     cc_pb_present := cc_pb_present o;
     cc_pp_decoder := cc_pp_decoder o;
     i_ts_delay := i_ts_delay o |}.

Definition set_flushing (x : bool) (o : decoder_owner_sys_t) : decoder_owner_sys_t :=
  {| i_preroll_end := i_preroll_end o;
     p_clock := p_clock o;
     b_packetizer := b_packetizer o;
     p_fifo := p_fifo o;
     p_aout := p_aout o;
     b_paused := b_paused o;
     b_waiting := b_waiting o;
     b_first := b_first o;
     b_has_data := b_has_data o;
     b_flushing := x;
     b_draining := b_draining o;
     b_drained := b_drained o;
     b_idle := b_idle o;
     cc_pb_present := cc_pb_present o;
     cc_pp_decoder := cc_pp_decoder o;
     i_ts_delay := i_ts_delay o |}.

Definition set_draining (x : bool) (o : decoder_owner_sys_t) : decoder_owner_sys_t :=
  {| i_preroll_end := i_preroll_end o;
     p_clock := p_clock o;
     b_packetizer := b_packetizer o;
     p_fifo := p_fifo o;
     p_aout := p_aout o;
     b_paused := b_paused o;
     b_waiting := b_waiting o;
     b_first := b_first o;
     b_has_data := b_has_data o;
     b_flushing := b_flushing o;
     b_draining := x;
     b_drained := b_drained o;
     b_idle := b_idle o;
     cc_pb_present := cc_pb_present o;
     cc_pp_decoder := cc_pp_decoder o;
     i_ts_delay := i_ts_delay o |}.

Definition set_drained (x : bool) (o : decoder_owner_sys_t) : decoder_owner_sys_t :=
  {| i_preroll_end := i_preroll_end o;
     p_clock := p_clock o;
     b_packetizer := b_packetizer o;
     p_fifo := p_fifo o;
     p_aout := p_aout o;
     b_paused := b_paused o;
     b_waiting := b_waiting o;
     b_first := b_first o;
     b_has_data := b_has_data o;
     b_flushing := b_flushing o;
     b_draining := b_draining o;
     b_drained := x;
     b_idle := b_idle o;
     cc_pb_present := cc_pb_present o;
     cc_pp_decoder := cc_pp_decoder o;
     i_ts_delay := i_ts_delay o |}.

Definition set_idle (x : bool) (o : decoder_owner_sys_t) : decoder_owner_sys_t :=
  {| i_preroll_end := i_preroll_end o;
     p_clock := p_clock o;
     b_packetizer := b_packetizer o;
     p_fifo := p_fifo o;
     p_aout := p_aout o;
     b_paused := b_paused o;
     b_waiting := b_waiting o;
     b_first := b_first o;
     b_has_data := b_has_data o;
     b_flushing := b_flushing o;
     b_draining := b_draining o;
     b_drained := b_drained o;
     b_idle := x;
     cc_pb_present := cc_pb_present o;
     cc_pp_decoder := cc_pp_decoder o;
     i_ts_delay := i_ts_delay o |}.

Definition set_wait (w : bool) (f : bool) (h : bool) (o : decoder_owner_sys_t) : decoder_owner_sys_t :=
  {| i_preroll_end := i_preroll_end o;
     p_clock := p_clock o;
     b_packetizer := b_packetizer o;
     p_fifo := p_fifo o;
     p_aout := p_aout o;
     b_paused := b_paused o;
     b_waiting := w;
     b_first := f;
     b_has_data := h;
     b_flushing := b_flushing o;
     b_draining := b_draining o;
     b_drained := b_drained o;
     b_idle := b_idle o;
     cc_pb_present := cc_pb_present o;
     cc_pp_decoder := cc_pp_decoder o;
     i_ts_delay := i_ts_delay o |}.

(** [decoder_t]: the fields the core reads and writes. *)
Record decoder_t : Type := {
  dec_b_error : bool;
  fmt_out_i_cat : es_category;
  p_owner : decoder_owner_sys_t
}.

Definition set_owner (o : decoder_owner_sys_t) (d : decoder_t) : decoder_t :=
  {| dec_b_error := dec_b_error d; fmt_out_i_cat := fmt_out_i_cat d; p_owner := o |}.

Definition set_error (e : bool) (d : decoder_t) : decoder_t :=
  {| dec_b_error := e; fmt_out_i_cat := fmt_out_i_cat d; p_owner := p_owner d |}.

Inductive cond : Type := wait_request | wait_acknowledge | wait_fifo.

(** Effects on collaborators, in call order. *)
Inductive event : Type :=
| EvBlockRelease (b : block_t)
| EvSignal (c : cond)
| EvFifoSignal
| EvWarn
| EvErr
| EvProcessSout (b : option block_t)
| EvProcessAudio (b : option block_t) (b_flush : bool)
| EvProcessVideo (b : option block_t) (b_flush : bool)
| EvProcessSpu (b : option block_t) (b_flush : bool)
| EvAoutFlush.

(** Modelled from the spec: the block FIFO ([vlc_fifo_*], not among the
    sources) is a queue of blocks with O(1) count and byte size; enqueue
    appends, dequeue takes the head, dequeue-all returns the whole chain and
    leaves the FIFO empty. *)
Definition vlc_fifo_GetBytes (f : list block_t) : Z :=
  foldr (fun b n => i_buffer b + n) 0 f.
Definition vlc_fifo_GetCount (f : list block_t) : Z := Z.of_nat (length f).
Definition vlc_fifo_IsEmpty (f : list block_t) : bool :=
  match f with [] => true | _ => false end.
Definition vlc_fifo_QueueUnlocked (f : list block_t) (b : block_t) : list block_t :=
  f ++ [b].
Definition vlc_fifo_DequeueAllUnlocked (f : list block_t)
    : list block_t * list block_t := (f, []).
Definition vlc_fifo_DequeueUnlocked (f : list block_t)
    : option block_t * list block_t :=
  match f with
  | [] => (None, [])
  | b :: rest => (Some b, rest)
  end.

(** A call that may park the caller on a condition variable: [Blocked]
    is the state in which it waits (the lock is released there), and the
    call is taken up again from its loop test when the caller is woken. *)
Inductive call (A : Type) : Type :=
| Returned (a : A)
| Blocked (a : A) (c : cond).
Arguments Returned {A} a.
Arguments Blocked {A} a c.

(** input_DecoderDecode. *)
Definition input_DecoderDecode (o : decoder_owner_sys_t) (p_block : block_t)
    (b_do_pace : bool) : call decoder_owner_sys_t * list event :=
  if negb b_do_pace then
    if vlc_fifo_GetBytes (p_fifo o) >? 400 * 1024 * 1024 then
      let '(chain, f) := vlc_fifo_DequeueAllUnlocked (p_fifo o) in
      (Returned (set_fifo (vlc_fifo_QueueUnlocked f p_block) o),
       EvWarn :: map EvBlockRelease chain)
    else
      (Returned (set_fifo (vlc_fifo_QueueUnlocked (p_fifo o) p_block) o), [])
  else if negb (b_waiting o) then
    if vlc_fifo_GetCount (p_fifo o) >=? 10
    then (Blocked o wait_fifo, [])
    else (Returned (set_fifo (vlc_fifo_QueueUnlocked (p_fifo o) p_block) o), [])
  else
    (Returned (set_fifo (vlc_fifo_QueueUnlocked (p_fifo o) p_block) o), []).

(** input_DecoderDrain. *)
Definition input_DecoderDrain (o : decoder_owner_sys_t)
    : decoder_owner_sys_t * list event :=
  (set_draining true o, [EvFifoSignal]).

(** input_DecoderStartWait and input_DecoderStopWait; the [assert] on
    [b_waiting] is a [Fault] when it fails. *)
Definition input_DecoderStartWait (o : decoder_owner_sys_t)
    : outcome (decoder_owner_sys_t * list event) :=
  if b_waiting o then Fault
  else Done (set_wait true true false o, [EvSignal wait_request]).

Definition input_DecoderStopWait (o : decoder_owner_sys_t)
    : outcome (decoder_owner_sys_t * list event) :=
  if b_waiting o
  then Done (set_wait false (b_first o) (b_has_data o) o, [EvSignal wait_request])
  else Fault.

(** DecoderThread, from the top of the loop to the dequeue: the FIFO wait
    loop and [vlc_fifo_DequeueUnlocked]. Parked, the worker has
    [b_idle = true]. *)
Definition DecoderThread_fetch (o : decoder_owner_sys_t)
    : call (decoder_owner_sys_t * option block_t) :=
  if vlc_fifo_IsEmpty (p_fifo o) then
    if b_draining o then
      let o1 := set_draining false o in
      let '(p_block, f) := vlc_fifo_DequeueUnlocked (p_fifo o1) in
      Returned (set_fifo f o1, p_block)
    else Blocked (set_idle true o, None) wait_fifo
  else
    let '(p_block, f) := vlc_fifo_DequeueUnlocked (p_fifo o) in
    Returned (set_fifo f o, p_block).

(** DecoderThread, after [vlc_fifo_Wait] returns. *)
Definition DecoderThread_wake (o : decoder_owner_sys_t) : decoder_owner_sys_t :=
  set_idle false o.

(** DecoderThread, after DecoderProcess. *)
Definition DecoderThread_after (o : decoder_owner_sys_t) (p_block : option block_t)
    : decoder_owner_sys_t * list event :=
  match p_block with
  | None =>
      (set_drained true o,
       match p_aout o with Some _ => [EvAoutFlush] | None => [] end)
  | Some _ => (set_drained false o, [])
  end.

(** DecoderProcessOnFlush. *)
Definition DecoderProcessOnFlush (o : decoder_owner_sys_t)
    : decoder_owner_sys_t * list event :=
  if b_flushing o
  then (set_flushing false o, [EvSignal wait_acknowledge])
  else (o, []).

(** DecoderUpdatePreroll. *)
Definition DecoderUpdatePreroll (cfg : config) (pi_preroll : Z) (p : block_t) : Z :=
  if negb (Z.land (i_flags p)
             (Z.lor (BLOCK_FLAG_PREROLL cfg) (BLOCK_FLAG_DISCONTINUITY cfg)) =? 0)
  then INT64_MAX
  else if i_dts p >? VLC_TS_INVALID cfg then Z.min pi_preroll (i_dts p)
  else if i_pts p >? VLC_TS_INVALID cfg then Z.min pi_preroll (i_pts p)
  else pi_preroll.

(** What the category paths (DecoderProcessSout, DecoderProcessAudio,
    DecoderProcessVideo, DecoderProcessSpu and the functions below them)
    write, of the fields modelled here: [p_dec->b_error], and in the owner
    [i_preroll_end], [b_first], [b_has_data] and the audio output. *)
Record processed : Type := {
  pr_error : bool;
  pr_preroll_end : Z;
  pr_first : bool;
  pr_has_data : bool;
  pr_aout : option nat
}.

Definition apply_processed (r : processed) (d : decoder_t) : decoder_t :=
  let o := p_owner d in
  {| dec_b_error := pr_error r;
     fmt_out_i_cat := fmt_out_i_cat d;
     p_owner :=
       {| i_preroll_end := pr_preroll_end r; p_clock := p_clock o;
          b_packetizer := b_packetizer o; p_fifo := p_fifo o;
          p_aout := pr_aout r; b_paused := b_paused o;
          b_waiting := b_waiting o; b_first := pr_first r;
          b_has_data := pr_has_data r; b_flushing := b_flushing o;
          b_draining := b_draining o; b_drained := b_drained o;
          b_idle := b_idle o; cc_pb_present := cc_pb_present o;
          cc_pp_decoder := cc_pp_decoder o; i_ts_delay := i_ts_delay o |} |}.

(** Collaborators of the decoder core: the category paths with the codec
    and sinks behind them, the block allocator and the clock.
    [input_clock_ConvertTS] answers [(failed, rate, ts0, ts1)]; its [ts1]
    is stored only when [pi_ts1] is not NULL. *)
Record collaborators : Type := {
  DecoderProcessSout : decoder_t -> option block_t -> processed;
  DecoderProcessAudio : decoder_t -> option block_t -> bool -> processed;
  DecoderProcessVideo : decoder_t -> option block_t -> bool -> processed;
  DecoderProcessSpu : decoder_t -> option block_t -> bool -> processed;
  block_Alloc : Z -> option block_t;
  input_clock_ConvertTS : nat -> Z -> option Z -> Z -> bool * Z * Z * Z;
  input_clock_GetRate : nat -> Z
}.

(** [p_block && (p_block->i_flags & BLOCK_FLAG_CORE_FLUSH)]. *)
Definition flush_request (cfg : config) (p_block : option block_t) : bool :=
  match p_block with
  | Some b => negb (Z.land (i_flags b) (BLOCK_FLAG_CORE_FLUSH cfg) =? 0)
  | None => false
  end.

(** [p_block->i_flags &= ~BLOCK_FLAG_CORE_PRIVATE_MASK]. *)
Definition clear_private (cfg : config) (b : block_t) : block_t :=
  set_flags (Z.land (i_flags b) (Z.lnot (BLOCK_FLAG_CORE_PRIVATE_MASK cfg))) b.

(** DecoderProcess. *)
Definition DecoderProcess (cfg : config) (env : collaborators) (d : decoder_t)
    (p_block : option block_t) : outcome (decoder_t * list event) :=
  let b_flush_request := flush_request cfg p_block in
  let flush (d : decoder_t) (ev : list event) : outcome (decoder_t * list event) :=
    if b_flush_request then
      let '(o, ev') := DecoderProcessOnFlush (p_owner d) in
      Done (set_owner o d, ev ++ ev')
    else Done (d, ev) in
  if dec_b_error d then
    flush d (match p_block with Some b => [EvBlockRelease b] | None => [] end)
  else
    match p_block with
    | Some b =>
        if i_buffer b <=? 0 then
          if b_flush_request then Fault else Done (d, [EvBlockRelease b])
        else if ENABLE_SOUT cfg && b_packetizer (p_owner d) then
          let p_block' := Some (clear_private cfg b) in
          flush (apply_processed (DecoderProcessSout env d p_block') d)
                [EvProcessSout p_block']
        else
          let b_flushing0 := i_preroll_end (p_owner d) =? INT64_MAX in
          let d1 :=
            set_owner (set_preroll_end
                         (DecoderUpdatePreroll cfg (i_preroll_end (p_owner d)) b)
                         (p_owner d)) d in
          let b_flush := negb b_flushing0 && b_flush_request in
          let p_block' := Some (clear_private cfg b) in
          match fmt_out_i_cat d1 with
          | AUDIO_ES =>
              flush (apply_processed (DecoderProcessAudio env d1 p_block' b_flush) d1)
                    [EvProcessAudio p_block' b_flush]
          | VIDEO_ES =>
              flush (apply_processed (DecoderProcessVideo env d1 p_block' b_flush) d1)
                    [EvProcessVideo p_block' b_flush]
          | SPU_ES =>
              flush (apply_processed (DecoderProcessSpu env d1 p_block' b_flush) d1)
                    [EvProcessSpu p_block' b_flush]
          | UNKNOWN_ES => flush (set_error true d1) [EvErr]
          end
    | None =>
        if ENABLE_SOUT cfg && b_packetizer (p_owner d) then
          flush (apply_processed (DecoderProcessSout env d None) d)
                [EvProcessSout None]
        else
          match fmt_out_i_cat d with
          | AUDIO_ES =>
              flush (apply_processed (DecoderProcessAudio env d None false) d)
                    [EvProcessAudio None false]
          | VIDEO_ES =>
              flush (apply_processed (DecoderProcessVideo env d None false) d)
                    [EvProcessVideo None false]
          | SPU_ES =>
              flush (apply_processed (DecoderProcessSpu env d None false) d)
                    [EvProcessSpu None false]
          | UNKNOWN_ES => flush (set_error true d) [EvErr]
          end
    end.

(** DecoderBlockFlushNew. *)
Definition DecoderBlockFlushNew (cfg : config) (env : collaborators)
    : option block_t :=
  match block_Alloc env 128 with
  | None => None
  | Some p_null =>
      Some (set_flags
              (Z.lor (i_flags p_null)
                 (Z.lor (BLOCK_FLAG_DISCONTINUITY cfg)
                    (Z.lor (BLOCK_FLAG_CORRUPTED cfg) (BLOCK_FLAG_CORE_FLUSH cfg))))
              p_null)
  end.

(** DecoderFlush, first part: "Empty the fifo" and "Monitor for flush end". *)
Definition DecoderFlush_request (o : decoder_owner_sys_t)
    : decoder_owner_sys_t * list event :=
  let '(chain, f) := vlc_fifo_DequeueAllUnlocked (p_fifo o) in
  let o1 := set_draining false (set_fifo f o) in
  (set_flushing true o1, map EvBlockRelease chain ++ [EvSignal wait_request]).

(** DecoderFlush, second part: "Send a special block". [None] is the
    return on a failed allocation. *)
Definition DecoderFlush_send (cfg : config) (env : collaborators)
    (o : decoder_owner_sys_t) : option (call decoder_owner_sys_t * list event) :=
  match DecoderBlockFlushNew cfg env with
  | None => None
  | Some p_null => Some (input_DecoderDecode o p_null false)
  end.

(** DecoderFlush, the loop [while( p_owner->b_flushing ) vlc_cond_wait(...)]. *)
Definition DecoderFlush_wait (o : decoder_owner_sys_t) : call decoder_owner_sys_t :=
  if b_flushing o then Blocked o wait_acknowledge else Returned o.

(** DecoderFlush up to its first return or wait, for a caller that is
    not interleaved with another thread before then. *)
Definition DecoderFlush (cfg : config) (env : collaborators)
    (o : decoder_owner_sys_t) : call decoder_owner_sys_t * list event :=
  let '(o1, ev1) := DecoderFlush_request o in
  match DecoderFlush_send cfg env o1 with
  | None => (Returned o1, ev1)
  | Some (Returned o2, ev2) => (DecoderFlush_wait o2, ev1 ++ ev2)
  | Some (Blocked o2 c, ev2) => (Blocked o2 c, ev1 ++ ev2)
  end.

(** DecoderFixTs, "add the delay": the arguments handed to
    input_clock_ConvertTS, [*pi_ts0], [*pi_ts1] and [i_ts_bound] after the
    three additions of [i_es_delay].  [pi_ts1] is [None] when the pointer
    is NULL. *)
Definition DecoderFixTs_delay (cfg : config) (i_es_delay : Z) (pi_ts0 : Z)
    (pi_ts1 : option Z) (i_ts_bound : Z) : Z * option Z * Z :=
  (int64 (pi_ts0 + i_es_delay),
   match pi_ts1 with
   | Some t1 =>
       Some (if t1 >? VLC_TS_INVALID cfg then int64 (t1 + i_es_delay) else t1)
   | None => None
   end,
   if negb (i_ts_bound =? INT64_MAX) then int64 (i_ts_bound + i_es_delay)
   else i_ts_bound).

(** DecoderFixTs, the conversion: the [if( *pi_ts0 > VLC_TS_INVALID )] and
    its [else], giving [i_rate] and what [*pi_ts0] and [*pi_ts1] hold after
    it. *)
Definition DecoderFixTs_convert (cfg : config) (env : collaborators)
    (clock : nat) (i_es_delay : Z) (pi_ts0 : Z) (pi_ts1 : option Z)
    (i_ts_bound : Z) : Z * Z * option Z :=
  if pi_ts0 >? VLC_TS_INVALID cfg then
    let '(ts0, ts1, bound) :=
      DecoderFixTs_delay cfg i_es_delay pi_ts0 pi_ts1 i_ts_bound in
    let '(failed, rate, c0, c1) :=
      input_clock_ConvertTS env clock ts0 ts1 bound in
    (rate, if failed then VLC_TS_INVALID cfg else c0,
     match ts1 with Some _ => Some c1 | None => None end)
  else (input_clock_GetRate env clock, pi_ts0, pi_ts1).

(** [( *pi_duration * i_rate + INPUT_RATE_DEFAULT-1 ) / INPUT_RATE_DEFAULT]. *)
Definition scale_duration (cfg : config) (dur i_rate : Z) : Z :=
  int64 (Z.quot (int64 (int64 (int64 (dur * i_rate) + INPUT_RATE_DEFAULT cfg) - 1))
                (INPUT_RATE_DEFAULT cfg)).

(** DecoderFixTs. [pi_ts1], [pi_duration] and [pi_rate] are [None] when the
    pointer is NULL; the result is what the pointers hold at return. *)
Definition DecoderFixTs (cfg : config) (env : collaborators)
    (o : decoder_owner_sys_t) (pi_ts0 : Z) (pi_ts1 pi_duration pi_rate : option Z)
    (i_ts_bound : Z) : Z * option Z * option Z * option Z :=
  let i_es_delay := i_ts_delay o in
  match p_clock o with
  | None => (pi_ts0, pi_ts1, pi_duration, pi_rate)
  | Some clock =>
      let b_ephemere :=
        match pi_ts1 with Some t1 => pi_ts0 =? t1 | None => false end in
      let '(i_rate, ts0, ts1) :=
        DecoderFixTs_convert cfg env clock i_es_delay pi_ts0 pi_ts1 i_ts_bound in
      let ts1 :=
        match ts1 with
        | Some t1 =>
            Some (if negb b_ephemere && (ts0 =? t1) then int64 (t1 + 1) else t1)
        | None => None
        end in
      (ts0, ts1,
       match pi_duration with
       | Some dur => Some (scale_duration cfg dur i_rate)
       | None => None
       end,
       match pi_rate with Some _ => Some i_rate | None => None end)
  end.

(** input_DecoderGetCcState: the value left in [*pb_decode] and the
    return value. *)
Definition input_DecoderGetCcState (o : decoder_owner_sys_t) (i_channel : Z)
    : bool * vlc_status :=
  if (i_channel <? 0) || (i_channel >=? 4)
     || negb (default false (cc_pb_present o !! Z.to_nat i_channel))
  then (false, VLC_EGENERIC)
  else
    (match cc_pp_decoder o !! Z.to_nat i_channel with
     | Some (Some _) => true
     | _ => false
     end, VLC_EGENERIC).

(** *** The decoder and its callers as a transition system

    One decoder, its worker thread (DecoderThread), one thread that calls
    DecoderFlush, and callers of the other entry points.  A transition is
    a section of code that runs under a lock, or a whole entry point. *)

(** Where the caller of DecoderFlush is: outside, holding the owner lock
    between the two parts, parked in the wait loop, or back. *)
Inductive flush_pc : Type := F_idle | F_send | F_wait | F_done.

(** Where the worker is: at the top of its loop, parked in
    [vlc_fifo_Wait], or holding a dequeued block ([None] is the drain). *)
Inductive worker_pc : Type :=
| W_top
| W_parked
| W_process (p_block : option block_t).

Record system : Type := {
  sys_dec : decoder_t;
  sys_flush : flush_pc;
  sys_worker : worker_pc
}.

Inductive label : Type :=
| L_enqueue (p_block : block_t) (b_do_pace : bool) (waiting : bool)
| L_start_wait
| L_stop_wait
| L_drain
| L_flush_request
| L_flush_send (sent : bool)
| L_flush_return
| L_fetch (p_block : option block_t)
| L_park
| L_wake
| L_process (p_block : option block_t) (ev : list event).

Definition with_owner (o : decoder_owner_sys_t) (s : system) : system :=
  {| sys_dec := set_owner o (sys_dec s); sys_flush := sys_flush s;
     sys_worker := sys_worker s |}.

Definition owner (s : system) : decoder_owner_sys_t := p_owner (sys_dec s).

(** The owner lock is held by the flushing thread between the two parts of
    DecoderFlush. *)
Definition owner_lock_free (s : system) : Prop := sys_flush s <> F_send.

Inductive step (cfg : config) (env : collaborators) : system -> label -> system -> Prop :=
| step_enqueue s p_block b_do_pace o' ev :
    input_DecoderDecode (owner s) p_block b_do_pace = (Returned o', ev) ->
    step cfg env s (L_enqueue p_block b_do_pace (b_waiting (owner s)))
         (with_owner o' s)
| step_start_wait s o' ev :
    owner_lock_free s ->
    input_DecoderStartWait (owner s) = Done (o', ev) ->
    step cfg env s L_start_wait (with_owner o' s)
| step_stop_wait s o' ev :
    owner_lock_free s ->
    input_DecoderStopWait (owner s) = Done (o', ev) ->
    step cfg env s L_stop_wait (with_owner o' s)
| step_drain s :
    step cfg env s L_drain (with_owner (fst (input_DecoderDrain (owner s))) s)
| step_flush_request s :
    sys_flush s = F_idle \/ sys_flush s = F_done ->
    step cfg env s L_flush_request
         {| sys_dec := set_owner (fst (DecoderFlush_request (owner s))) (sys_dec s);
            sys_flush := F_send; sys_worker := sys_worker s |}
| step_flush_send_failed s :
    sys_flush s = F_send ->
    DecoderFlush_send cfg env (owner s) = None ->
    step cfg env s (L_flush_send false)
         {| sys_dec := sys_dec s; sys_flush := F_done; sys_worker := sys_worker s |}
| step_flush_send s o' ev :
    sys_flush s = F_send ->
    DecoderFlush_send cfg env (owner s) = Some (Returned o', ev) ->
    step cfg env s (L_flush_send true)
         {| sys_dec := set_owner o' (sys_dec s); sys_flush := F_wait;
            sys_worker := sys_worker s |}
| step_flush_return s o' :
    sys_flush s = F_wait ->
    DecoderFlush_wait (owner s) = Returned o' ->
    step cfg env s L_flush_return
         {| sys_dec := set_owner o' (sys_dec s); sys_flush := F_done;
            sys_worker := sys_worker s |}
| step_fetch s o' p_block :
    sys_worker s = W_top ->
    DecoderThread_fetch (owner s) = Returned (o', p_block) ->
    step cfg env s (L_fetch p_block)
         {| sys_dec := set_owner o' (sys_dec s); sys_flush := sys_flush s;
            sys_worker := W_process p_block |}
| step_park s o' p_block c :
    sys_worker s = W_top ->
    DecoderThread_fetch (owner s) = Blocked (o', p_block) c ->
    step cfg env s L_park
         {| sys_dec := set_owner o' (sys_dec s); sys_flush := sys_flush s;
            sys_worker := W_parked |}
| step_wake s :
    sys_worker s = W_parked ->
    step cfg env s L_wake
         {| sys_dec := set_owner (DecoderThread_wake (owner s)) (sys_dec s);
            sys_flush := sys_flush s; sys_worker := W_top |}
| step_process s p_block d' ev :
    sys_worker s = W_process p_block ->
    owner_lock_free s ->
    DecoderProcess cfg env (sys_dec s) p_block = Done (d', ev) ->
    step cfg env s
         (L_process p_block (ev ++ snd (DecoderThread_after (p_owner d') p_block)))
         {| sys_dec := set_owner (fst (DecoderThread_after (p_owner d') p_block)) d';
            sys_flush := sys_flush s; sys_worker := W_top |}.

(** Runs, with the labels in the order of execution. *)
Inductive steps (cfg : config) (env : collaborators) : system -> list label -> system -> Prop :=
| steps_nil s : steps cfg env s [] s
| steps_snoc s tr s1 l s2 :
    steps cfg env s tr s1 -> step cfg env s1 l s2 ->
    steps cfg env s (tr ++ [l]) s2.

(** Whether the worker has signalled [wait_acknowledge] from
    DecoderProcess since the last flush request of the run. *)
Definition is_ack (e : event) : bool :=
  match e with EvSignal wait_acknowledge => true | _ => false end.

Definition flush_acked (tr : list label) : bool :=
  fold_left (fun acked l =>
               match l with
               | L_flush_request => false
               | L_process _ ev => acked || existsb is_ack ev
               | _ => acked
               end) tr false.

(** The FIFO count of a state. *)
Definition fifo_count (s : system) : Z := vlc_fifo_GetCount (p_fifo (owner s)).

(** The steps that keep the pacing bound: every step but an enqueue that
    is not paced or is made while the owner waits, and but the queueing of
    the flush sentinel (it is queued without pacing). *)
Definition paced_label (l : label) : bool :=
  match l with
  | L_enqueue _ b_do_pace waiting => b_do_pace && negb waiting
  | L_flush_send sent => negb sent
  | _ => true
  end.

(** The transition system run on a schedule: which thread moves next. *)
Inductive action : Type :=
| A_enqueue (p_block : block_t) (b_do_pace : bool)
| A_start_wait
| A_stop_wait
| A_drain
| A_flush
| A_worker.

Definition exec (cfg : config) (env : collaborators) (a : action) (s : system)
    : option (label * system) :=
  match a with
  | A_enqueue p_block b_do_pace =>
      match input_DecoderDecode (owner s) p_block b_do_pace with
      | (Returned o', _) =>
          Some (L_enqueue p_block b_do_pace (b_waiting (owner s)), with_owner o' s)
      | (Blocked _ _, _) => None
      end
  | A_start_wait =>
      match sys_flush s, input_DecoderStartWait (owner s) with
      | F_send, _ => None
      | _, Done (o', _) => Some (L_start_wait, with_owner o' s)
      | _, _ => None
      end
  | A_stop_wait =>
      match sys_flush s, input_DecoderStopWait (owner s) with
      | F_send, _ => None
      | _, Done (o', _) => Some (L_stop_wait, with_owner o' s)
      | _, _ => None
      end
  | A_drain => Some (L_drain, with_owner (fst (input_DecoderDrain (owner s))) s)
  | A_flush =>
      match sys_flush s with
      | F_idle | F_done =>
          Some (L_flush_request,
                {| sys_dec := set_owner (fst (DecoderFlush_request (owner s))) (sys_dec s);
                   sys_flush := F_send; sys_worker := sys_worker s |})
      | F_send =>
          match DecoderFlush_send cfg env (owner s) with
          | None =>
              Some (L_flush_send false,
                    {| sys_dec := sys_dec s; sys_flush := F_done;
                       sys_worker := sys_worker s |})
          | Some (Returned o', _) =>
              Some (L_flush_send true,
                    {| sys_dec := set_owner o' (sys_dec s); sys_flush := F_wait;
                       sys_worker := sys_worker s |})
          | Some (Blocked _ _, _) => None
          end
      | F_wait =>
          match DecoderFlush_wait (owner s) with
          | Returned o' =>
              Some (L_flush_return,
                    {| sys_dec := set_owner o' (sys_dec s); sys_flush := F_done;
                       sys_worker := sys_worker s |})
          | Blocked _ _ => None
          end
      end
  | A_worker =>
      match sys_worker s with
      | W_top =>
          match DecoderThread_fetch (owner s) with
          | Returned (o', p_block) =>
              Some (L_fetch p_block,
                    {| sys_dec := set_owner o' (sys_dec s); sys_flush := sys_flush s;
                       sys_worker := W_process p_block |})
          | Blocked (o', _) _ =>
              Some (L_park,
                    {| sys_dec := set_owner o' (sys_dec s); sys_flush := sys_flush s;
                       sys_worker := W_parked |})
          end
      | W_parked =>
          Some (L_wake,
                {| sys_dec := set_owner (DecoderThread_wake (owner s)) (sys_dec s);
                   sys_flush := sys_flush s; sys_worker := W_top |})
      | W_process p_block =>
          match sys_flush s, DecoderProcess cfg env (sys_dec s) p_block with
          | F_send, _ => None
          | _, Done (d', ev) =>
              Some (L_process p_block
                      (ev ++ snd (DecoderThread_after (p_owner d') p_block)),
                    {| sys_dec :=
                         set_owner (fst (DecoderThread_after (p_owner d') p_block)) d';
                       sys_flush := sys_flush s; sys_worker := W_top |})
          | _, _ => None
          end
      end
  end.

(** The run of a schedule: its labels and its last state, or [None] when a
    scheduled thread cannot move. *)
Fixpoint run (cfg : config) (env : collaborators) (sched : list action)
    (tr : list label) (s : system) : option (list label * system) :=
  match sched with
  | [] => Some (tr, s)
  | a :: sched' =>
      match exec cfg env a s with
      | Some (l, s') => run cfg env sched' (tr ++ [l]) s'
      | None => None
      end
  end.

(** *** Display date and rate *)

(** DecoderGetDisplayDate. *)
Definition DecoderGetDisplayDate (cfg : config) (env : collaborators)
    (o : decoder_owner_sys_t) (i_ts : Z) : Z :=
  let i_ts := if b_waiting o || b_paused o then VLC_TS_INVALID cfg else i_ts in
  match p_clock o with
  | None => i_ts
  | Some clock =>
      if i_ts <=? VLC_TS_INVALID cfg then i_ts
      else
        let '(failed, _, c0, _) :=
          input_clock_ConvertTS env clock i_ts None INT64_MAX in
        if failed then VLC_TS_INVALID cfg else c0
  end.

(** DecoderGetDisplayRate. *)
Definition DecoderGetDisplayRate (cfg : config) (env : collaborators)
    (o : decoder_owner_sys_t) : Z :=
  match p_clock o with
  | None => INPUT_RATE_DEFAULT cfg
  | Some clock => input_clock_GetRate env clock
  end.

(** *** Counting along a run *)

(** The passes of the worker with [p_block = NULL], and the calls of
    input_DecoderDrain. *)
Definition is_drain_pass (l : label) : bool :=
  match l with L_fetch None => true | _ => false end.

Definition is_drain_request (l : label) : bool :=
  match l with L_drain => true | _ => false end.

Definition drain_passes (tr : list label) : nat :=
  length (List.filter is_drain_pass tr).

Definition drain_requests (tr : list label) : nat :=
  length (List.filter is_drain_request tr).

(** A pending drain request counts for one. *)
Definition pending_drain (s : system) : nat :=
  if b_draining (owner s) then 1 else 0.

End Decoder.
(** * Example configurations and states *)

Module Examples.
Import Decoder.

Definition cc_owner : decoder_owner_sys_t :=
  {| i_preroll_end := 0; p_clock := None; b_packetizer := false;
     p_fifo := []; p_aout := None; b_paused := false; b_waiting := false;
     b_first := false; b_has_data := false; b_flushing := false;
     b_draining := false; b_drained := false; b_idle := false;
     cc_pb_present := [true; false; true; false];
     cc_pp_decoder := [Some 7%nat; None; None; None];
     i_ts_delay := 0 |}.

(** The values of the 2.2 headers. *)
Definition vlc_config : config :=
  {| ENABLE_SOUT := true; VLC_TS_INVALID := 0; INPUT_RATE_DEFAULT := 1000;
     BLOCK_FLAG_DISCONTINUITY := 1; BLOCK_FLAG_CORRUPTED := 1024;
     BLOCK_FLAG_PREROLL := 2048; BLOCK_FLAG_CORE_FLUSH := 65536;
     BLOCK_FLAG_CORE_PRIVATE_MASK := 16711680 |}.

Definition new_block (size : Z) : block_t :=
  {| i_flags := 0; i_buffer := size; i_pts := 0; i_dts := 0; i_length := 0 |}.

(** A category path that writes nothing. *)
Definition keep (d : decoder_t) : processed :=
  {| pr_error := dec_b_error d; pr_preroll_end := i_preroll_end (p_owner d);
     pr_first := b_first (p_owner d); pr_has_data := b_has_data (p_owner d);
     pr_aout := p_aout (p_owner d) |}.

(** A clock at the default rate that maps a stream date to itself and
    refuses one at or past the bound. *)
Definition bounded_clock (clock : nat) (ts0 : Z) (ts1 : option Z) (bound : Z)
    : bool * Z * Z * Z :=
  (bound <=? ts0, 1000, ts0, default 0 ts1).

(** Collaborators that write nothing; [alloc_ok] tells whether block_Alloc
    succeeds. *)
Definition quiet_env (alloc_ok : bool) : collaborators :=
  {| DecoderProcessSout := fun d _ => keep d;
     DecoderProcessAudio := fun d _ _ => keep d;
     DecoderProcessVideo := fun d _ _ => keep d;
     DecoderProcessSpu := fun d _ _ => keep d;
     block_Alloc := fun size => if alloc_ok then Some (new_block size) else None;
     input_clock_ConvertTS := bounded_clock;
     input_clock_GetRate := fun _ => 1000 |}.

(** An owner with the given queue, wait flag and clock. *)
Definition owner_with (f : list block_t) (waiting : bool) (clock : option nat)
    : decoder_owner_sys_t :=
  {| i_preroll_end := 0; p_clock := clock; b_packetizer := false;
     p_fifo := f; p_aout := None; b_paused := false; b_waiting := waiting;
     b_first := false; b_has_data := false; b_flushing := false;
     b_draining := true; b_drained := false; b_idle := false;
     cc_pb_present := [false; false; false; false];
     cc_pp_decoder := [None; None; None; None];
     i_ts_delay := 0 |}.

Definition video_decoder (o : decoder_owner_sys_t) : decoder_t :=
  {| dec_b_error := false; fmt_out_i_cat := VIDEO_ES; p_owner := o |}.

Definition system_with (f : list block_t) (waiting : bool) : system :=
  {| sys_dec := video_decoder (owner_with f waiting None);
     sys_flush := F_idle; sys_worker := W_top |}.

(** A flush of a decoder with one queued block and a pending drain: the
    request, the sentinel, the worker dequeues and processes it, the return. *)
Definition flush_start : system := system_with [new_block 5] false.

Definition flush_schedule : list action :=
  [A_flush; A_flush; A_worker; A_worker; A_flush].

Definition flush_trace : list label :=
  Eval vm_compute in
    match run vlc_config (quiet_env true) flush_schedule [] flush_start with
    | Some (tr, _) => removelast tr
    | None => []
    end.

Definition flush_end : system :=
  Eval vm_compute in
    match run vlc_config (quiet_env true) flush_schedule [] flush_start with
    | Some (_, s) => s
    | None => flush_start
    end.

(** On a queue of nine blocks, one paced enqueue and one dequeue by the
    worker. *)
Definition pace_start : system := system_with (repeat (new_block 1) 9) false.

Definition pace_schedule : list action := [A_enqueue (new_block 2) true; A_worker].

Definition pace_trace : list label :=
  Eval vm_compute in
    match run vlc_config (quiet_env true) pace_schedule [] pace_start with
    | Some (tr, _) => tr
    | None => []
    end.

Definition pace_end : system :=
  Eval vm_compute in
    match run vlc_config (quiet_env true) pace_schedule [] pace_start with
    | Some (_, s) => s
    | None => pace_start
    end.

(** On an empty queue, a drain request and one pass of the worker. *)
Definition drain_start : system := system_with [] false.

Definition drain_schedule : list action := [A_drain; A_worker; A_worker].

Definition drain_trace : list label :=
  Eval vm_compute in
    match run vlc_config (quiet_env true) drain_schedule [] drain_start with
    | Some (tr, _) => tr
    | None => []
    end.

Definition drain_end : system :=
  Eval vm_compute in
    match run vlc_config (quiet_env true) drain_schedule [] drain_start with
    | Some (_, s) => s
    | None => drain_start
    end.

(** A block of 128 bytes that carries the flush flag. *)
Definition flush_block : block_t :=
  {| i_flags := 65536; i_buffer := 128; i_pts := 0; i_dts := 0; i_length := 0 |}.

End Examples.


Module VExamples.
Import VideoOutput.

(** A release build with the constants of the original [config.h]. *)
Definition vout_config : config :=
  {| DEBUG := false; DEBUG_VIDEO := false; STATS := false;
     VOUT_MAX_AREAS := 5; VOUT_DISPLAY_DELAY := 150000; VOUT_FPS_SAMPLES := 20;
     VOUT_NODISPLAY_CHANGE := 65280; VOUT_GAMMA_CHANGE := 16;
     VOUT_GRAYSCALE_CHANGE := 2; VOUT_INFO_CHANGE := 1;
     VOUT_INTF_CHANGE := 4; VOUT_SCALE_CHANGE := 8;
     sizeof_yuv_data_t := 1; size_t_bits := 32 |}.

(** The same build with STATS. *)
Definition stats_config : config :=
  {| DEBUG := false; DEBUG_VIDEO := false; STATS := true;
     VOUT_MAX_AREAS := 5; VOUT_DISPLAY_DELAY := 150000; VOUT_FPS_SAMPLES := 20;
     VOUT_NODISPLAY_CHANGE := 65280; VOUT_GAMMA_CHANGE := 16;
     VOUT_GRAYSCALE_CHANGE := 2; VOUT_INFO_CHANGE := 1;
     VOUT_INTF_CHANGE := 4; VOUT_SCALE_CHANGE := 8;
     sizeof_yuv_data_t := 1; size_t_bits := 32 |}.

(** A slot of the given status, type, size, refcount, date and buffer. *)
Definition slot (st : picture_status) (t : picture_type) (w h : Z)
    (refcount d data : Z) : picture_t :=
  {| i_type := t; i_status := st; i_matrix_coefficients := 1;
     i_width := w; i_height := h; i_chroma_width := Z.quot w 2;
     i_display_horizontal_offset := 0; i_display_vertical_offset := 0;
     i_display_width := w; i_display_height := h;
     i_aspect_ratio := AR_SQUARE_PICTURE; i_refcount := refcount; date := d;
     p_data := data; p_y := data; p_u := data + w * h;
     p_v := data + w * h + Z.quot (w * h) 4 |}.

Definition free_slot : picture_t :=
  slot FREE_PICTURE EMPTY_PICTURE 0 0 0 0 0.

(** A heap whose first slot is destroyed with a 16x16 buffer and whose
    second slot is free. *)
Definition heap_destroyed_free : list picture_t :=
  [slot DESTROYED_PICTURE YUV_420_PICTURE 16 16 0 0 1000; free_slot].

(** A back buffer with no picture region and no band, over memory that
    holds 255 everywhere. *)
Definition blank_buffer : vout_buffer_t :=
  {| i_pic_x := 0; i_pic_y := 0; i_pic_width := 0; i_pic_height := 0;
     i_areas := 0; pi_area_begin := [0; 0; 0; 0; 0];
     pi_area_end := [0; 0; 0; 0; 0]; buf_data := fun _ => 255 |}.

(** The same buffer with the one band of rows 0 to 4. *)
Definition one_band_buffer : vout_buffer_t :=
  set_areas 1 [0; 0; 0; 0; 0] [4; 0; 0; 0; 0] blank_buffer.


(** The blank buffer with the one band of rows 10 to 20. *)
Definition low_band_buffer : vout_buffer_t :=
  set_areas 1 [10; 0; 0; 0; 0] [20; 0; 0; 0; 0] blank_buffer.

(** Three bands, of rows 0 to 4, 10 to 14 and 20 to 24. *)
Definition three_band_buffer : vout_buffer_t :=
  set_areas 3 [0; 10; 20; 0; 0] [4; 14; 24; 0; 0] blank_buffer.

(** A buffer with no band whose picture region is the rows 10 to 19 of
    the columns 0 to 63. *)
Definition picture_buffer : vout_buffer_t :=
  set_pic 0 10 64 10 blank_buffer.

(** Collaborators that draw nothing and acknowledge nothing. *)
Definition quiet_vout_env : collaborators :=
  {| Convert := fun _ _ _ _ _ _ _ m => m;
     RenderPictureInfo := fun v _ => current_buffer v;
     RenderInfo := current_buffer;
     RenderInterface := current_buffer;
     vout_SysManage := fun v => (i_changes v, false) |}.

(** An active thread on a display of [w] by [h] pixels of two bytes. *)
Definition thread_with (heap : list picture_t) (w h : Z) (scale : bool)
    : vout_thread_t :=
  {| b_die := false; b_error := false; b_active := true;
     v_i_width := w; v_i_height := h;
     i_bytes_per_line := w * 2; i_bytes_per_pixel := 2;
     b_info := false; b_interface := false; b_scale := scale;
     i_changes := 0; last_picture_date := 0; i_buffer_index := 0;
     p_picture := heap; p_buffer := [blank_buffer; blank_buffer];
     c_fps_samples := 0; p_fps_sample := repeat 0 20; render_time := 0 |}.

(** One ready picture dated 9000 with no reference, and the same heap
    after the picture was dropped. *)
Definition late_thread : vout_thread_t :=
  thread_with [slot READY_PICTURE YUV_420_PICTURE 32 32 0 9000 1000] 640 480 false.

Definition dropped_thread : vout_thread_t :=
  thread_with [slot DESTROYED_PICTURE YUV_420_PICTURE 32 32 0 9000 1000] 640 480 false.

(** One ready picture dated 900000. *)
Definition early_thread : vout_thread_t :=
  thread_with [slot READY_PICTURE YUV_420_PICTURE 32 32 0 900000 1000] 640 480 false.

(** A thread that is not active, with one ready picture dated 20000. *)
Definition inactive_thread : vout_thread_t :=
  {| b_die := false; b_error := false; b_active := false;
     v_i_width := 640; v_i_height := 480;
     i_bytes_per_line := 1280; i_bytes_per_pixel := 2;
     b_info := false; b_interface := false; b_scale := false;
     i_changes := 0; last_picture_date := 0; i_buffer_index := 0;
     p_picture := [slot READY_PICTURE YUV_420_PICTURE 32 32 0 20000 1000];
     p_buffer := [blank_buffer; blank_buffer];
     c_fps_samples := 0; p_fps_sample := repeat 0 20; render_time := 0 |}.

End VExamples.
(** * Properties *)

(** ** Machine integers *)

Lemma int_small (z : Z) : - 2 ^ 31 <= z < 2 ^ 31 -> int z = z.
Proof.
  intros H. unfold int, wrap.
  change (32 - 1) with 31.
  rewrite Z.mod_small; lia.
Qed.

(** A division by a positive [int] does not trap. *)
Lemma cdiv_pos (a b : Z) : 0 < b -> cdiv a b = Done (int (Z.quot a b)).
Proof.
  intros Hb. unfold cdiv.
  replace (b =? 0) with false by (symmetry; apply Z.eqb_neq; lia).
  replace (b =? -1) with false by (symmetry; apply Z.eqb_neq; lia).
  rewrite andb_false_r. reflexivity.
Qed.

Lemma int64_small (z : Z) : - 2 ^ 63 <= z < 2 ^ 63 -> int64 z = z.
Proof.
  intros H. unfold int64, wrap.
  change (64 - 1) with 63.
  rewrite Z.mod_small; lia.
Qed.

(** ** Closed-caption state (C9) *)

Section CcState.
Import Decoder Examples.

(** C9. For a channel [0 <= i_channel < 4] that is marked present,
    input_DecoderGetCcState stores in [*pb_decode] whether the channel's
    sub-decoder exists, and returns VLC_EGENERIC, which is not the success
    code. *)
Theorem input_DecoderGetCcState_present (o : decoder_owner_sys_t) (i_channel : Z) :
  0 <= i_channel < 4 ->
  cc_pb_present o !! Z.to_nat i_channel = Some true ->
  (fst (input_DecoderGetCcState o i_channel) = true <->
     exists p_cc, cc_pp_decoder o !! Z.to_nat i_channel = Some (Some p_cc))
  /\ snd (input_DecoderGetCcState o i_channel) = VLC_EGENERIC
  /\ VLC_EGENERIC <> VLC_SUCCESS.
Proof.
  intros Hch Hp. unfold input_DecoderGetCcState.
  rewrite Hp. simpl.
  replace (i_channel <? 0) with false by (symmetry; apply Z.ltb_ge; lia).
  replace (i_channel >=? 4) with false
    by (symmetry; rewrite Z.geb_leb; apply Z.leb_gt; lia).
  simpl. split; [|split; [reflexivity | discriminate]].
  destruct (cc_pp_decoder o !! Z.to_nat i_channel) as [[p_cc|]|]; simpl.
  - split; eauto.
  - split; [discriminate | intros [p_cc H]; discriminate].
  - split; [discriminate | intros [p_cc H]; discriminate].
Qed.

Lemma input_DecoderGetCcState_present_witness :
  (fst (input_DecoderGetCcState cc_owner 0) = true <->
     exists p_cc, cc_pp_decoder cc_owner !! Z.to_nat 0 = Some (Some p_cc))
  /\ snd (input_DecoderGetCcState cc_owner 0) = VLC_EGENERIC
  /\ VLC_EGENERIC <> VLC_SUCCESS.
Proof.
  apply (input_DecoderGetCcState_present cc_owner 0); [lia | reflexivity].
Defined.

End CcState.

(** ** DecoderProcess on an empty block (C10) *)

Section EmptyBlock.
Import Decoder Examples.

(** C10. For a block whose buffer size is at most 0 and that does not carry
    the core-flush flag, DecoderProcess releases the block and returns: the
    decoder record, with the preroll boundary and every owner flag, is the
    one it was given, and the release is the only effect (no packetiser,
    codec or sink is invoked, no counter is touched). *)
Theorem DecoderProcess_empty_block (cfg : config) (env : collaborators)
    (d : decoder_t) (b : block_t) :
  i_buffer b <= 0 ->
  Z.land (i_flags b) (BLOCK_FLAG_CORE_FLUSH cfg) = 0 ->
  DecoderProcess cfg env d (Some b) = Done (d, [EvBlockRelease b]).
Proof.
  intros Hsize Hflag. unfold DecoderProcess, flush_request.
  rewrite Hflag. simpl.
  destruct (dec_b_error d); [reflexivity|].
  replace (i_buffer b <=? 0) with true by (symmetry; apply Z.leb_le; lia).
  reflexivity.
Qed.

Lemma DecoderProcess_empty_block_witness :
  DecoderProcess vlc_config (quiet_env true)
    (video_decoder (owner_with [] false None)) (Some (new_block 0))
  = Done (video_decoder (owner_with [] false None), [EvBlockRelease (new_block 0)]).
Proof.
  apply (DecoderProcess_empty_block vlc_config (quiet_env true)
           (video_decoder (owner_with [] false None)) (new_block 0));
    [simpl; lia | reflexivity].
Defined.

End EmptyBlock.

(** ** What the worker and the entry points leave alone *)

Section DecoderFrames.
Import Decoder.

Lemma DecoderProcessOnFlush_frame (o o' : decoder_owner_sys_t) (ev : list event) :
  DecoderProcessOnFlush o = (o', ev) ->
  p_fifo o' = p_fifo o /\ b_waiting o' = b_waiting o
  /\ (if existsb is_ack ev then b_flushing o = true /\ b_flushing o' = false
      else ev = [] /\ o' = o).
Proof.
  unfold DecoderProcessOnFlush. destruct (b_flushing o) eqn:Hf.
  - intros [= <- <-]. simpl. auto.
  - intros [= <- <-]. simpl. auto.
Qed.

(** DecoderProcess leaves the queue and the wait flag alone, and changes
    [b_flushing] only by clearing it with a signal on [wait_acknowledge]. *)
Lemma DecoderProcess_frame (cfg : config) (env : collaborators) (d d' : decoder_t)
    (p_block : option block_t) (ev : list event) :
  DecoderProcess cfg env d p_block = Done (d', ev) ->
  p_fifo (p_owner d') = p_fifo (p_owner d)
  /\ b_waiting (p_owner d') = b_waiting (p_owner d)
  /\ (if existsb is_ack ev
      then b_flushing (p_owner d) = true /\ b_flushing (p_owner d') = false
      else b_flushing (p_owner d') = b_flushing (p_owner d)).
Proof.
  unfold DecoderProcess, DecoderProcessOnFlush.
  intros H.
  repeat match type of H with
         | context [match ?x with _ => _ end] => destruct x eqn:?; simpl in H
         end;
    try discriminate; injection H as <- <-; simpl;
    rewrite ?existsb_app; simpl; auto;
    match goal with
    | Hp : (if ?c then _ else _) = (_, _) |- _ =>
        destruct c eqn:?; injection Hp as <- <-; simpl in *; auto
    end.
Qed.

Lemma DecoderThread_after_frame (o : decoder_owner_sys_t) (p_block : option block_t) :
  p_fifo (fst (DecoderThread_after o p_block)) = p_fifo o
  /\ b_waiting (fst (DecoderThread_after o p_block)) = b_waiting o
  /\ b_flushing (fst (DecoderThread_after o p_block)) = b_flushing o
  /\ existsb is_ack (snd (DecoderThread_after o p_block)) = false.
Proof.
  unfold DecoderThread_after. destruct p_block; simpl; auto.
  destruct (p_aout o); simpl; auto.
Qed.

Lemma DecoderThread_fetch_frame (o o' : decoder_owner_sys_t) (p_block : option block_t) :
  DecoderThread_fetch o = Returned (o', p_block) ->
  b_flushing o' = b_flushing o /\ b_waiting o' = b_waiting o
  /\ (length (p_fifo o') <= length (p_fifo o))%nat.
Proof.
  unfold DecoderThread_fetch.
  destruct (p_fifo o) as [|b rest] eqn:Hf; simpl.
  - destruct (b_draining o); [|discriminate].
    simpl. rewrite Hf. simpl. intros [= <- <-]. simpl. auto.
  - intros [= <- <-]. simpl. auto.
Qed.

Lemma DecoderThread_park_frame (o o' : decoder_owner_sys_t) (p_block : option block_t)
    (c : cond) :
  DecoderThread_fetch o = Blocked (o', p_block) c ->
  b_flushing o' = b_flushing o /\ b_waiting o' = b_waiting o
  /\ p_fifo o' = p_fifo o.
Proof.
  unfold DecoderThread_fetch.
  destruct (p_fifo o) as [|b rest] eqn:Hf; simpl.
  - destruct (b_draining o).
    + simpl. rewrite Hf. simpl. discriminate.
    + intros [= <- <- <-]. simpl. auto.
  - discriminate.
Qed.

Lemma input_DecoderDecode_frame (o o' : decoder_owner_sys_t) (p_block : block_t)
    (b_do_pace : bool) (ev : list event) :
  input_DecoderDecode o p_block b_do_pace = (Returned o', ev) ->
  b_flushing o' = b_flushing o /\ b_waiting o' = b_waiting o
  /\ b_draining o' = b_draining o
  /\ exists f, p_fifo o' = f ++ [p_block] /\ (f = p_fifo o \/ f = []).
Proof.
  unfold input_DecoderDecode, vlc_fifo_QueueUnlocked, vlc_fifo_DequeueAllUnlocked.
  intros H.
  repeat match type of H with
         | context [if ?x then _ else _] => destruct x eqn:?; simpl in H
         end;
    try discriminate; injection H as <- <-; simpl;
    (split; [reflexivity | split; [reflexivity | split; [reflexivity|]]]);
    first [ exists (p_fifo o); split; [reflexivity | auto; fail]
          | exists []; split; [reflexivity | auto] ].
Qed.

(** A paced enqueue made while the owner is not waiting queues the block
    only on a queue of fewer than 10 blocks. *)
Lemma input_DecoderDecode_paced (o : decoder_owner_sys_t) (p_block : block_t) :
  b_waiting o = false ->
  input_DecoderDecode o p_block true =
    if vlc_fifo_GetCount (p_fifo o) >=? 10
    then (Blocked o wait_fifo, [])
    else (Returned (set_fifo (p_fifo o ++ [p_block]) o), []).
Proof.
  intros Hw. unfold input_DecoderDecode. simpl. rewrite Hw. simpl. reflexivity.
Qed.

End DecoderFrames.

(** ** Schedules are runs *)

Section Schedules.
Import Decoder.

Lemma exec_step (cfg : config) (env : collaborators) (a : action) (s s' : system)
    (l : label) :
  exec cfg env a s = Some (l, s') -> step cfg env s l s'.
Proof.
  destruct a; simpl.
  - destruct (input_DecoderDecode (owner s) p_block b_do_pace) as [[o'|o' c] ev] eqn:H;
      [|discriminate].
    intros [= <- <-]. eapply step_enqueue; eauto.
  - destruct (sys_flush s) eqn:Hpc;
      destruct (input_DecoderStartWait (owner s)) as [[o' ev]| |] eqn:H;
      try discriminate; intros [= <- <-];
      eapply step_start_wait; eauto; unfold owner_lock_free; congruence.
  - destruct (sys_flush s) eqn:Hpc;
      destruct (input_DecoderStopWait (owner s)) as [[o' ev]| |] eqn:H;
      try discriminate; intros [= <- <-];
      eapply step_stop_wait; eauto; unfold owner_lock_free; congruence.
  - intros [= <- <-]. apply step_drain.
  - destruct (sys_flush s) eqn:Hpc.
    + intros [= <- <-]. apply step_flush_request. auto.
    + destruct (DecoderFlush_send cfg env (owner s)) as [[[o'|o' c] ev]|] eqn:H;
        try discriminate; intros [= <- <-].
      * eapply step_flush_send; eauto.
      * apply step_flush_send_failed; auto.
    + destruct (DecoderFlush_wait (owner s)) as [o'|o' c] eqn:H;
        try discriminate; intros [= <- <-].
      apply step_flush_return; auto.
    + intros [= <- <-]. apply step_flush_request. auto.
  - destruct (sys_worker s) eqn:Hw.
    + destruct (DecoderThread_fetch (owner s)) as [[o' b]|[o' b] c] eqn:H;
        intros [= <- <-].
      * apply step_fetch; auto.
      * eapply step_park; eauto.
    + intros [= <- <-]. apply step_wake; auto.
    + destruct (sys_flush s) eqn:Hpc;
        destruct (DecoderProcess cfg env (sys_dec s) p_block) as [[d' ev]| |] eqn:H;
        try discriminate; intros [= <- <-]; rewrite <- Hpc;
        apply step_process; auto; unfold owner_lock_free; congruence.
Qed.

Lemma run_steps (cfg : config) (env : collaborators) (sched : list action) :
  forall s0 tr s tr' s',
    steps cfg env s0 tr s ->
    run cfg env sched tr s = Some (tr', s') ->
    steps cfg env s0 tr' s'.
Proof.
  induction sched as [|a sched IH]; simpl; intros s0 tr s tr' s' Hrun H.
  - injection H as <- <-. exact Hrun.
  - destruct (exec cfg env a s) as [[l s1]|] eqn:He; [|discriminate].
    eapply IH; [|exact H]. eapply steps_snoc; [exact Hrun|].
    eapply exec_step; eauto.
Qed.

End Schedules.

(** ** Pacing of the producer (C1) *)

Section Pacing.
Import Decoder Examples.

Lemma step_pace_bound (cfg : config) (env : collaborators) (s s' : system) (l : label) :
  step cfg env s l s' -> paced_label l = true ->
  fifo_count s <= 10 -> fifo_count s' <= 10.
Proof.
  unfold fifo_count, vlc_fifo_GetCount, owner.
  intros Hstep Hl Hc. destruct Hstep; simpl in *; try assumption.
  - apply andb_prop in Hl as [-> Hw]. apply negb_true_iff in Hw.
    rewrite input_DecoderDecode_paced in H by exact Hw.
    unfold vlc_fifo_GetCount, owner in H.
    destruct (Z.of_nat (length (p_fifo (p_owner (sys_dec s)))) >=? 10) eqn:Hge;
      [discriminate|].
    injection H as <- <-. simpl. rewrite length_app. simpl.
    rewrite Z.geb_leb in Hge. apply Z.leb_gt in Hge. lia.
  - unfold input_DecoderStartWait, owner in H0.
    destruct (b_waiting (p_owner (sys_dec s))); [discriminate|].
    injection H0 as <- <-. assumption.
  - unfold input_DecoderStopWait, owner in H0.
    destruct (b_waiting (p_owner (sys_dec s))); [|discriminate].
    injection H0 as <- <-. assumption.
  - lia.
  - discriminate.
  - unfold DecoderFlush_wait in H0.
    destruct (b_flushing (owner s)); [discriminate|].
    injection H0 as <-. assumption.
  - apply DecoderThread_fetch_frame in H0 as (_ & _ & Hlen).
    unfold owner in Hlen. lia.
  - apply DecoderThread_park_frame in H0 as (_ & _ & Hf).
    unfold owner in Hf. rewrite Hf. assumption.
  - apply DecoderProcess_frame in H1 as (Hf & _).
    destruct (DecoderThread_after_frame (p_owner d') p_block) as (Hf' & _).
    rewrite Hf', Hf. assumption.
Qed.

(** C1, as amended. A paced call of input_DecoderDecode made while the
    owner is not waiting blocks (on [wait_fifo], queueing nothing) as long
    as the FIFO holds 10 blocks or more, and queues the block once it holds
    fewer; so along every run whose enqueues are paced and made while the
    owner is not waiting, and which queues no flush sentinel, a FIFO count
    of at most 10 stays at most 10.  While the owner is waiting a paced
    call never blocks: it queues the block at once, whatever the FIFO
    holds. *)
Theorem paced_enqueue_bound (cfg : config) (env : collaborators) :
  (forall o p_block, b_waiting o = false ->
     input_DecoderDecode o p_block true =
       if vlc_fifo_GetCount (p_fifo o) >=? 10
       then (Blocked o wait_fifo, [])
       else (Returned (set_fifo (p_fifo o ++ [p_block]) o), []))
  /\ (forall s tr s', steps cfg env s tr s' ->
        forallb paced_label tr = true ->
        fifo_count s <= 10 -> fifo_count s' <= 10)
  /\ (forall o p_block, b_waiting o = true ->
        input_DecoderDecode o p_block true
        = (Returned (set_fifo (p_fifo o ++ [p_block]) o), [])).
Proof.
  split; [apply input_DecoderDecode_paced|]. split.
  2:{ intros o p_block Hw. unfold input_DecoderDecode. simpl. rewrite Hw.
      reflexivity. }
  intros s tr s' Hrun. induction Hrun as [s|s tr s1 l s2 Hrun IH Hstep].
  - auto.
  - rewrite forallb_app. simpl. intros Hp Hc.
    apply andb_prop in Hp as [Htr Hl]. rewrite andb_true_r in Hl.
    eapply step_pace_bound; eauto.
Qed.

Lemma paced_enqueue_bound_witness : fifo_count pace_end <= 10.
Proof.
  apply (proj1 (proj2 (paced_enqueue_bound vlc_config (quiet_env true)))
           pace_start pace_trace pace_end).
  - apply (run_steps vlc_config (quiet_env true) pace_schedule
             pace_start [] pace_start); [apply steps_nil | reflexivity].
  - reflexivity.
  - vm_compute. discriminate.
Defined.

(** C1 as stated fails: while the owner is waiting, a paced enqueue on a
    FIFO of 10 blocks does not block; it queues an eleventh block. *)
Lemma paced_enqueue_while_waiting :
  input_DecoderDecode (owner_with (repeat (new_block 1) 10) true None)
                      (new_block 2) true
  = (Returned (set_fifo (repeat (new_block 1) 10 ++ [new_block 2])
                        (owner_with (repeat (new_block 1) 10) true None)), [])
  /\ vlc_fifo_GetCount (repeat (new_block 1) 10 ++ [new_block 2]) = 11.
Proof. split; reflexivity. Qed.

End Pacing.

(** ** Flush (C8) *)

Section Flush.
Import Decoder Examples.

Lemma flush_acked_snoc (tr : list label) (l : label) :
  flush_acked (tr ++ [l]) =
    match l with
    | L_flush_request => false
    | L_process _ ev => flush_acked tr || existsb is_ack ev
    | _ => flush_acked tr
    end.
Proof. unfold flush_acked. rewrite fold_left_app. reflexivity. Qed.

Lemma steps_snoc_inv (cfg : config) (env : collaborators) (s s' : system)
    (tr : list label) (l : label) :
  steps cfg env s (tr ++ [l]) s' ->
  exists s1, steps cfg env s tr s1 /\ step cfg env s1 l s'.
Proof.
  intros H. remember (tr ++ [l]) as t eqn:Heq.
  destruct H as [s0|s0 tr0 s1 l0 s2 Hrun Hstep].
  - destruct tr; discriminate.
  - apply app_inj_tail in Heq as [-> ->]. eauto.
Qed.

(** While the flushing thread is between its request and its return and
    the worker has not acknowledged, [b_flushing] is set. *)
Lemma flushing_until_acked (cfg : config) (env : collaborators) (s s' : system)
    (tr : list label) :
  steps cfg env s tr s' ->
  sys_flush s = F_idle ->
  sys_flush s' = F_send \/ sys_flush s' = F_wait ->
  flush_acked tr = false ->
  b_flushing (owner s') = true.
Proof.
  intros Hrun Hidle. induction Hrun as [s|s tr s1 l s2 Hrun IH Hstep].
  - intros [H|H]; congruence.
  - specialize (IH Hidle). rewrite flush_acked_snoc.
    unfold owner in *.
    destruct Hstep as
      [s1 p_block b_do_pace o' ev Hd
      |s1 o' ev Hfree Hw
      |s1 o' ev Hfree Hw
      |s1
      |s1 Hpc1
      |s1 Hpc1 Hsend
      |s1 o' ev Hpc1 Hsend
      |s1 o' Hpc1 Hwait
      |s1 o' p_block Hwk Hfetch
      |s1 o' p_block c Hwk Hfetch
      |s1 Hwk
      |s1 p_block d' ev Hwk Hfree Hproc]; simpl; intros Hpc Hack.
    + apply input_DecoderDecode_frame in Hd as (Hf & _). rewrite Hf. auto.
    + unfold input_DecoderStartWait, owner in Hw.
      destruct (b_waiting (p_owner (sys_dec s1))); [discriminate|].
      injection Hw as <- <-. simpl. auto.
    + unfold input_DecoderStopWait, owner in Hw.
      destruct (b_waiting (p_owner (sys_dec s1))); [|discriminate].
      injection Hw as <- <-. simpl. auto.
    + auto.
    + reflexivity.
    + destruct Hpc; discriminate.
    + unfold DecoderFlush_send in Hsend.
      destruct (DecoderBlockFlushNew cfg env); [|discriminate].
      injection Hsend as Hsend.
      apply input_DecoderDecode_frame in Hsend as (Hf & _). rewrite Hf.
      apply IH; auto.
    + destruct Hpc; discriminate.
    + apply DecoderThread_fetch_frame in Hfetch as (Hf & _). rewrite Hf. auto.
    + apply DecoderThread_park_frame in Hfetch as (Hf & _). rewrite Hf. auto.
    + auto.
    + rewrite existsb_app in Hack.
      apply orb_false_elim in Hack as [Hack1 Hack2].
      apply orb_false_elim in Hack2 as [Hack2 _].
      apply DecoderProcess_frame in Hproc as (_ & _ & Hfl). rewrite Hack2 in Hfl.
      destruct (DecoderThread_after_frame (p_owner d') p_block) as (_ & _ & Hf' & _).
      rewrite Hf', Hfl. auto.
Qed.

(** C8, as amended. DecoderFlush (the body of input_DecoderFlush) empties
    the FIFO, releasing every queued block, clears [b_draining] and sets
    [b_flushing]; when block_Alloc gives a block it queues that one
    block, with the discontinuity, corrupted and core-flush flags added,
    behind whatever the FIFO holds then (nothing, for a caller
    that is not interleaved) and parks on [wait_acknowledge]; and in every
    run, the return from that wait comes after the worker, in
    DecoderProcess, has cleared [b_flushing] and signalled
    [wait_acknowledge], and finds the flag cleared.  When block_Alloc
    gives no block, DecoderFlush returns at once after its first part:
    nothing is queued, no wait is entered, and [b_flushing] is still
    set. *)
Theorem DecoderFlush_sends_and_waits (cfg : config) (env : collaborators) :
  (forall o,
     let '(o1, ev) := DecoderFlush_request o in
     p_fifo o1 = [] /\ b_draining o1 = false /\ b_flushing o1 = true
     /\ ev = map EvBlockRelease (p_fifo o) ++ [EvSignal wait_request])
  /\ (forall o blk,
        block_Alloc env 128 = Some blk ->
        let p_null :=
          set_flags
            (Z.lor (i_flags blk)
               (Z.lor (BLOCK_FLAG_DISCONTINUITY cfg)
                  (Z.lor (BLOCK_FLAG_CORRUPTED cfg) (BLOCK_FLAG_CORE_FLUSH cfg))))
            blk in
        DecoderBlockFlushNew cfg env = Some p_null /\
        (exists o2 ev f,
           DecoderFlush_send cfg env o = Some (Returned o2, ev)
           /\ p_fifo o2 = f ++ [p_null] /\ (f = p_fifo o \/ f = [])
           /\ b_flushing o2 = b_flushing o /\ b_draining o2 = b_draining o)
        /\ (exists o3 ev,
              DecoderFlush cfg env o = (Blocked o3 wait_acknowledge, ev)
              /\ p_fifo o3 = [p_null] /\ b_flushing o3 = true
              /\ b_draining o3 = false))
  /\ (forall s tr s',
        steps cfg env s (tr ++ [L_flush_return]) s' ->
        sys_flush s = F_idle ->
        flush_acked tr = true /\ b_flushing (owner s') = false)
  /\ (forall o,
        block_Alloc env 128 = None ->
        DecoderFlush_send cfg env o = None
        /\ exists o1,
             DecoderFlush cfg env o
             = (Returned o1,
                map EvBlockRelease (p_fifo o) ++ [EvSignal wait_request])
             /\ p_fifo o1 = [] /\ b_flushing o1 = true
             /\ b_draining o1 = false).
Proof.
  split; [|split; [|split]].
  4:{ intros o Halloc.
      assert (Hnew : DecoderBlockFlushNew cfg env = None)
        by (unfold DecoderBlockFlushNew; rewrite Halloc; reflexivity).
      split; [unfold DecoderFlush_send; rewrite Hnew; reflexivity|].
      unfold DecoderFlush, DecoderFlush_send, DecoderFlush_request. simpl.
      rewrite Hnew. eexists. split; [reflexivity|]. simpl. auto. }
  - intros o. unfold DecoderFlush_request. simpl. auto.
  - intros o blk Hblk p_null.
    assert (Halloc : DecoderBlockFlushNew cfg env = Some p_null)
      by (unfold DecoderBlockFlushNew; rewrite Hblk; reflexivity).
    split; [exact Halloc|]. split.
    + unfold DecoderFlush_send. rewrite Halloc.
      destruct (input_DecoderDecode o p_null false) as [[o2|o2 c] ev] eqn:Hd.
      * apply input_DecoderDecode_frame in Hd as (Hf & _ & Hdr & f & Hq & Hor).
        exists o2, ev, f. auto.
      * unfold input_DecoderDecode in Hd. simpl in Hd.
        destruct (vlc_fifo_GetBytes (p_fifo o) >? 400 * 1024 * 1024); discriminate.
    + unfold DecoderFlush, DecoderFlush_send, DecoderFlush_request. simpl.
      rewrite Halloc. simpl. eexists _, _. split; [reflexivity|]. simpl. auto.
  - intros s tr s' Hrun Hidle.
    apply steps_snoc_inv in Hrun as (s1 & Hrun & Hstep).
    inversion Hstep as [| | | | | | |s0 o' Hpc Hwait| | | |]; subst.
    unfold DecoderFlush_wait in Hwait.
    destruct (b_flushing (owner s1)) eqn:Hfl; [discriminate|].
    injection Hwait as <-. simpl. split; [|exact Hfl].
    destruct (flush_acked tr) eqn:Hack; [reflexivity|].
    rewrite (flushing_until_acked cfg env s s1 tr Hrun Hidle (or_intror Hpc) Hack)
      in Hfl. discriminate.
Qed.

Lemma DecoderFlush_sends_and_waits_witness :
  flush_acked flush_trace = true /\ b_flushing (owner flush_end) = false.
Proof.
  apply (proj1 (proj2 (proj2 (DecoderFlush_sends_and_waits vlc_config
                                (quiet_env true))))
           flush_start flush_trace flush_end); [|reflexivity].
  apply (run_steps vlc_config (quiet_env true) flush_schedule
           flush_start [] flush_start); [apply steps_nil | reflexivity].
Defined.

(** C8 as stated fails: when the flush sentinel cannot be allocated,
    DecoderFlush returns at once; no sentinel is queued, and [b_flushing]
    is still set at the return. *)
Lemma DecoderFlush_allocation_failure :
  exists o1,
    DecoderFlush vlc_config (quiet_env false) (owner_with [new_block 5] false None)
    = (Returned o1, [EvBlockRelease (new_block 5); EvSignal wait_request])
    /\ p_fifo o1 = [] /\ b_flushing o1 = true.
Proof. vm_compute. eexists. split; [reflexivity|]. split; reflexivity. Qed.

End Flush.

(** ** Timestamp fixing (C6) *)

Section FixTs.
Import Decoder Examples.

(** The scaled duration is the quotient [dur * i_rate / INPUT_RATE_DEFAULT]
    rounded up, for values that do not overflow. *)
Lemma scale_duration_ceiling (cfg : config) (dur i_rate : Z) :
  0 < INPUT_RATE_DEFAULT cfg ->
  0 <= dur * i_rate ->
  dur * i_rate + INPUT_RATE_DEFAULT cfg < 2 ^ 63 ->
  (scale_duration cfg dur i_rate - 1) * INPUT_RATE_DEFAULT cfg < dur * i_rate
  /\ dur * i_rate <= scale_duration cfg dur i_rate * INPUT_RATE_DEFAULT cfg.
Proof.
  intros Hd Hn Hb. unfold scale_duration.
  set (D := INPUT_RATE_DEFAULT cfg) in *. set (x := dur * i_rate) in *.
  rewrite (int64_small x) by lia.
  rewrite (int64_small (x + D)) by lia.
  rewrite (int64_small (x + D - 1)) by lia.
  rewrite Z.quot_div_nonneg by lia.
  assert (Hq : 0 <= (x + D - 1) / D <= x + D - 1).
  { split; [apply Z.div_pos; lia|]. apply Z.div_le_upper_bound; nia. }
  rewrite int64_small by lia.
  pose proof (Z.div_mod (x + D - 1) D ltac:(lia)) as Hdm.
  pose proof (Z.mod_pos_bound (x + D - 1) D Hd) as Hm.
  nia.
Qed.

(** C6, as amended. Without a clock DecoderFixTs changes nothing. With a
    clock and a first timestamp that is not valid, the clock converts
    nothing: both timestamps are left as they are and the rate is the
    clock's.  With a clock and a valid first timestamp, the clock converts
    the timestamps and the bound with the ES delay added (the second
    timestamp only if valid, the bound unless it is [INT64_MAX]); [ts0]
    becomes what the conversion produced, or the invalid sentinel when the
    conversion failed; if [ts1] equalled [ts0] before the delay was added,
    [ts1] is left as the conversion produced it (never separated by 1);
    otherwise [ts1] is forced to [ts0 + 1] when it equals [ts0] as that
    stands by then (the conversion's, or the invalid sentinel), and is
    left as the conversion produced it when it differs.  In both cases a
    provided duration [dur] becomes
    [(dur * rate + INPUT_RATE_DEFAULT - 1) / INPUT_RATE_DEFAULT] in C
    arithmetic, which is the quotient by the default rate rounded up when
    [dur * rate] is not negative and nothing overflows; and the rate is
    reported when asked for. *)
Theorem DecoderFixTs_spec (cfg : config) (env : collaborators) :
  (forall o ts0 ts1 dur rate bound,
     p_clock o = None ->
     DecoderFixTs cfg env o ts0 ts1 dur rate bound = (ts0, ts1, dur, rate))
  /\ (forall o clock ts0 ts1 dur rate bound,
        p_clock o = Some clock -> ts0 <= VLC_TS_INVALID cfg ->
        DecoderFixTs cfg env o ts0 ts1 dur rate bound
        = (ts0, ts1,
           option_map
             (fun d => scale_duration cfg d (input_clock_GetRate env clock)) dur,
           option_map (fun _ => input_clock_GetRate env clock) rate))
  /\ (forall o clock ts0 ts1 dur rate bound,
        p_clock o = Some clock -> ts0 > VLC_TS_INVALID cfg ->
        let a0 := int64 (ts0 + i_ts_delay o) in
        let a1 :=
          match ts1 with
          | Some t1 =>
              Some (if t1 >? VLC_TS_INVALID cfg
                    then int64 (t1 + i_ts_delay o) else t1)
          | None => None
          end in
        let b :=
          if bound =? INT64_MAX then bound else int64 (bound + i_ts_delay o) in
        let '(failed, i_rate, c0, c1) := input_clock_ConvertTS env clock a0 a1 b in
        let '(r0, r1, rdur, rrate) :=
          DecoderFixTs cfg env o ts0 ts1 dur rate bound in
        r0 = (if failed then VLC_TS_INVALID cfg else c0)
        /\ (ts1 = None -> r1 = None)
        /\ (ts1 = Some ts0 -> r1 = Some c1)
        /\ (forall t1, ts1 = Some t1 -> t1 <> ts0 ->
              r1 = Some (if r0 =? c1 then int64 (r0 + 1) else c1))
        /\ rdur = option_map (fun d => scale_duration cfg d i_rate) dur
        /\ rrate = option_map (fun _ => i_rate) rate)
  /\ (forall dur i_rate,
        scale_duration cfg dur i_rate
        = int64 (Z.quot (int64 (int64 (int64 (dur * i_rate)
                                       + INPUT_RATE_DEFAULT cfg) - 1))
                        (INPUT_RATE_DEFAULT cfg)))
  /\ (forall dur i_rate,
        0 < INPUT_RATE_DEFAULT cfg -> 0 <= dur * i_rate ->
        dur * i_rate + INPUT_RATE_DEFAULT cfg < 2 ^ 63 ->
        (scale_duration cfg dur i_rate - 1) * INPUT_RATE_DEFAULT cfg < dur * i_rate
        /\ dur * i_rate <= scale_duration cfg dur i_rate * INPUT_RATE_DEFAULT cfg).
Proof.
  split; [|split; [|split; [|split]]].
  - intros o ts0 ts1 dur rate bound Hc. unfold DecoderFixTs. rewrite Hc. reflexivity.
  - intros o clock ts0 ts1 dur rate bound Hc Hts.
    unfold DecoderFixTs, DecoderFixTs_convert. rewrite Hc.
    replace (ts0 >? VLC_TS_INVALID cfg) with false
      by (symmetry; rewrite Z.gtb_ltb; apply Z.ltb_ge; lia).
    destruct ts1 as [t1|]; [destruct (ts0 =? t1)|];
      destruct dur, rate; reflexivity.
  - intros o clock ts0 ts1 dur rate bound Hc Hgt a0 a1 b.
    unfold DecoderFixTs, DecoderFixTs_convert, DecoderFixTs_delay. rewrite Hc.
    replace (ts0 >? VLC_TS_INVALID cfg) with true
      by (symmetry; apply Z.gtb_lt; lia).
    fold a0. fold a1.
    replace (if negb (bound =? INT64_MAX)
             then int64 (bound + i_ts_delay o) else bound) with b
      by (unfold b; destruct (bound =? INT64_MAX); reflexivity).
    destruct (input_clock_ConvertTS env clock a0 a1 b)
      as [[[failed i_rate] c0] c1].
    split; [reflexivity|].
    split; [intros ->; reflexivity|].
    split; [intros ->; rewrite Z.eqb_refl; reflexivity|].
    split.
    + intros t1 -> Hne.
      replace (ts0 =? t1) with false by (symmetry; apply Z.eqb_neq; congruence).
      simpl.
      destruct ((if failed then VLC_TS_INVALID cfg else c0) =? c1) eqn:E;
        [|reflexivity].
      apply Z.eqb_eq in E. rewrite E. reflexivity.
    + split; [destruct dur | destruct rate]; reflexivity.
  - reflexivity.
  - apply scale_duration_ceiling.
Qed.

(** The theorem at an ephemeral unit ([ts1 = ts0 = 100], a duration of 40)
    whose conversion succeeds. *)
Lemma DecoderFixTs_spec_witness :
  let o := owner_with [] false (Some 0%nat) in
  let a0 := int64 (100 + i_ts_delay o) in
  let a1 :=
    match Some 100 with
    | Some t1 =>
        Some (if t1 >? VLC_TS_INVALID vlc_config
              then int64 (t1 + i_ts_delay o) else t1)
    | None => None
    end in
  let b :=
    if INT64_MAX =? INT64_MAX then INT64_MAX
    else int64 (INT64_MAX + i_ts_delay o) in
  let '(failed, i_rate, c0, c1) :=
    input_clock_ConvertTS (quiet_env true) 0%nat a0 a1 b in
  let '(r0, r1, rdur, rrate) :=
    DecoderFixTs vlc_config (quiet_env true) o 100 (Some 100) (Some 40) (Some 0)
                 INT64_MAX in
  r0 = (if failed then VLC_TS_INVALID vlc_config else c0)
  /\ (Some 100 = None -> r1 = None)
  /\ (Some 100 = Some 100 -> r1 = Some c1)
  /\ (forall t1, Some 100 = Some t1 -> t1 <> 100 ->
        r1 = Some (if r0 =? c1 then int64 (r0 + 1) else c1))
  /\ rdur = option_map (fun d => scale_duration vlc_config d i_rate) (Some 40)
  /\ rrate = option_map (fun _ => i_rate) (Some 0).
Proof.
  exact (proj1 (proj2 (proj2 (DecoderFixTs_spec vlc_config (quiet_env true))))
           (owner_with [] false (Some 0%nat)) 0%nat
           100 (Some 100) (Some 40) (Some 0) INT64_MAX eq_refl eq_refl).
Defined.

(** C6 as stated fails: a unit with [ts1 = ts0 = 100] whose conversion the
    clock refuses (the bound is 50) leaves with [ts0] invalid and [ts1] at
    100; the two are no longer equal. *)
Lemma DecoderFixTs_ephemeral_refused :
  DecoderFixTs vlc_config (quiet_env true) (owner_with [] false (Some 0%nat))
               100 (Some 100) None None 50
  = (VLC_TS_INVALID vlc_config, Some 100, None, None)
  /\ VLC_TS_INVALID vlc_config <> 100.
Proof. split; [reflexivity | discriminate]. Qed.

End FixTs.

(** ** Picture heap: creation (C2) *)

Section CreatePicture.
Import VideoOutput.

(** The scan loop finds the first reusable slot, or else the first free
    and the first destroyed slot. *)
Lemma scan_pictures_find (t : picture_type) (w h : Z) (l : list picture_t) :
  forall i pf pd,
    scan_pictures t w h l i pf pd =
      match list_find (reusable t w h) l with
      | Some (j, _) => ScanMatch (i + j)
      | None => ScanEnd (or_first pf i (list_find is_free l))
                        (or_first pd i (list_find is_destroyed l))
      end.
Proof.
  induction l as [|p l IH]; intros i pf pd; simpl.
  - destruct pf, pd; reflexivity.
  - destruct (decide (reusable t w h p)) as [Hr|Hr].
    + destruct Hr as (Hs & Ht & Hh & Hw).
      rewrite bool_decide_eq_true_2 by exact Hs.
      rewrite bool_decide_eq_true_2 by exact Ht.
      rewrite Hh, Hw, !Z.eqb_refl. simpl. f_equal. lia.
    + destruct (decide (is_destroyed p)) as [Hd|Hd].
      * unfold is_destroyed in Hd.
        rewrite bool_decide_eq_true_2 by exact Hd.
        destruct (bool_decide (i_type p = t) && (i_height p =? h) && (i_width p =? w))
          eqn:Hm.
        { exfalso. apply Hr.
          apply andb_prop in Hm as [Hm Hw]. apply andb_prop in Hm as [Ht Hh].
          apply bool_decide_eq_true_1 in Ht.
          apply Z.eqb_eq in Hh, Hw. repeat split; assumption. }
        rewrite IH.
        destruct (decide (is_free p)) as [Hf|Hf];
          [unfold is_free in Hf; congruence|].
        destruct (list_find (reusable t w h) l) as [[j q]|]; simpl.
        { f_equal. lia. }
        f_equal.
        -- destruct pf; simpl; [reflexivity|].
           destruct (list_find is_free l) as [[j q]|]; simpl; [f_equal; lia | reflexivity].
        -- destruct pd; simpl; [reflexivity | f_equal; lia].
      * unfold is_destroyed in Hd.
        rewrite bool_decide_eq_false_2 by exact Hd.
        destruct (decide (is_free p)) as [Hf|Hf]; unfold is_free in Hf.
        -- rewrite bool_decide_eq_true_2 by exact Hf. rewrite andb_true_r.
           destruct pf; simpl; rewrite IH;
             destruct (list_find (reusable t w h) l) as [[j q]|]; simpl;
             try (f_equal; lia).
           ++ f_equal. destruct pd; simpl; [reflexivity|].
              destruct (list_find is_destroyed l) as [[j q]|]; simpl;
                [f_equal; lia | reflexivity].
           ++ f_equal; [f_equal; lia|]. destruct pd; simpl; [reflexivity|].
              destruct (list_find is_destroyed l) as [[j q]|]; simpl;
                [f_equal; lia | reflexivity].
        -- rewrite bool_decide_eq_false_2 by exact Hf. rewrite andb_false_r.
           rewrite IH.
           destruct (list_find (reusable t w h) l) as [[j q]|]; simpl;
             [f_equal; lia|].
           f_equal.
           ++ destruct pf; simpl; [reflexivity|].
              destruct (list_find is_free l) as [[j q]|]; simpl;
                [f_equal; lia | reflexivity].
           ++ destruct pd; simpl; [reflexivity|].
              destruct (list_find is_destroyed l) as [[j q]|]; simpl;
                [f_equal; lia | reflexivity].
Qed.

Lemma list_find_lookup {A : Type} (P : A -> Prop) `{forall x, Decision (P x)}
    (l : list A) (i : nat) (x : A) :
  list_find P l = Some (i, x) -> l !! i = Some x.
Proof. intros H'. apply list_find_Some in H'. tauto. Qed.

(** The three picture types have a plane layout. *)
Lemma plane_layout_Some (t : picture_type) (w h : Z) :
  t <> EMPTY_PICTURE ->
  exists cw n off_u off_v, plane_layout t w h = Some (cw, n, off_u, off_v).
Proof. destruct t; [congruence| | |]; intros _; simpl; eauto. Qed.

(** C2, as amended. vout_CreatePicture(type, width, height) for one of
    the three picture types: if some slot is destroyed with exactly the
    requested type, width and height, the first such slot is returned in
    status reserved, its buffer kept and the allocator not called;
    otherwise the first free slot is taken, and only when there is no free
    slot the first destroyed slot, whose buffer is freed first; for the
    slot taken the allocator is called once, with the size of the three
    planes; when it gives a buffer the slot is returned reserved, with the
    requested type and size, a zero refcount, that buffer and the plane
    pointers into it; when it gives none, the slot is left free and empty
    with an error message, and the call returns NULL; with no destroyed and
    no free slot the call returns NULL, the heap is as it was and the
    allocator is not called. *)
Theorem vout_CreatePicture_spec (cfg : config) (malloc : Z -> Z)
    (l : list picture_t) (t : picture_type) (w h : Z) :
  t <> EMPTY_PICTURE ->
  exists cw n off_u off_v,
    plane_layout t w h = Some (cw, n, off_u, off_v)
    /\ let size := size_of_samples cfg n in
       let d := malloc size in
       let created (f : nat) (ev_free : list event) :=
         exists p',
           vout_CreatePicture cfg malloc l t w h
           = (<[f := p']> l,
              (if d =? 0 then None else Some f),
              ev_free ++ EvMalloc size d :: (if d =? 0 then [EvErrMsg] else []))
           /\ p_data p' = d
           /\ (if d =? 0
               then i_status p' = FREE_PICTURE /\ i_type p' = EMPTY_PICTURE
               else i_status p' = RESERVED_PICTURE /\ i_type p' = t
                    /\ i_width p' = w /\ i_height p' = h
                    /\ i_chroma_width p' = cw /\ i_refcount p' = 0
                    /\ p_y p' = d
                    /\ p_u p' = d + off_u * sizeof_yuv_data_t cfg
                    /\ p_v p' = d + off_v * sizeof_yuv_data_t cfg) in
       match list_find (reusable t w h) l with
       | Some (i, p) =>
           vout_CreatePicture cfg malloc l t w h
           = (<[i := set_status RESERVED_PICTURE p]> l, Some i, [])
       | None =>
           match list_find is_free l, list_find is_destroyed l with
           | Some (f, _), _ => created f []
           | None, Some (f, p) => created f [EvFree (p_data p)]
           | None, None => vout_CreatePicture cfg malloc l t w h = (l, None, [])
           end
       end.
Proof.
  intros Ht. destruct (plane_layout_Some t w h Ht) as (cw & n & off_u & off_v & Hl).
  exists cw, n, off_u, off_v. split; [exact Hl|]. cbv zeta.
  assert (Hprep : forall p,
    exists p',
      prepare_picture cfg malloc t w h p
      = (p', negb (malloc (size_of_samples cfg n) =? 0),
         EvMalloc (size_of_samples cfg n) (malloc (size_of_samples cfg n))
         :: (if malloc (size_of_samples cfg n) =? 0 then [EvErrMsg] else []))
      /\ p_data p' = malloc (size_of_samples cfg n)
      /\ (if malloc (size_of_samples cfg n) =? 0
          then i_status p' = FREE_PICTURE /\ i_type p' = EMPTY_PICTURE
          else i_status p' = RESERVED_PICTURE /\ i_type p' = t
               /\ i_width p' = w /\ i_height p' = h
               /\ i_chroma_width p' = cw /\ i_refcount p' = 0
               /\ p_y p' = malloc (size_of_samples cfg n)
               /\ p_u p' = malloc (size_of_samples cfg n)
                           + off_u * sizeof_yuv_data_t cfg
               /\ p_v p' = malloc (size_of_samples cfg n)
                           + off_v * sizeof_yuv_data_t cfg)).
  { intros p. unfold prepare_picture. rewrite Hl. simpl.
    destruct (malloc (size_of_samples cfg n) =? 0) eqn:Hz; simpl;
      eexists; (split; [reflexivity|]); simpl; auto 12. }
  unfold vout_CreatePicture. rewrite scan_pictures_find. simpl.
  destruct (list_find (reusable t w h) l) as [[i p]|] eqn:Hr.
  - rewrite (list_find_lookup _ _ _ _ Hr). reflexivity.
  - destruct (list_find is_free l) as [[f p]|] eqn:Hf; simpl.
    + rewrite (list_find_lookup _ _ _ _ Hf).
      destruct (Hprep p) as (p' & Hp & Hd & Hfields). rewrite Hp.
      exists p'. split; [|split; [exact Hd | exact Hfields]].
      destruct (malloc (size_of_samples cfg n) =? 0); reflexivity.
    + destruct (list_find is_destroyed l) as [[d p]|] eqn:Hd; simpl.
      * rewrite (list_find_lookup _ _ _ _ Hd).
        destruct (Hprep p) as (p' & Hp & Hd' & Hfields). rewrite Hp.
        exists p'. split; [|split; [exact Hd' | exact Hfields]].
        destruct (malloc (size_of_samples cfg n) =? 0); reflexivity.
      * reflexivity.
Qed.

(** The theorem on a heap with a destroyed slot of another size in front
    of a free slot. *)
Lemma vout_CreatePicture_spec_witness :
  exists cw n off_u off_v,
    plane_layout YUV_420_PICTURE 32 32 = Some (cw, n, off_u, off_v)
    /\ let size := size_of_samples VExamples.vout_config n in
       let d := (fun _ => 2000) size in
       let created (f : nat) (ev_free : list event) :=
         exists p',
           vout_CreatePicture VExamples.vout_config (fun _ => 2000) VExamples.heap_destroyed_free YUV_420_PICTURE 32 32
           = (<[f := p']> VExamples.heap_destroyed_free,
              (if d =? 0 then None else Some f),
              ev_free ++ EvMalloc size d :: (if d =? 0 then [EvErrMsg] else []))
           /\ p_data p' = d
           /\ (if d =? 0
               then i_status p' = FREE_PICTURE /\ i_type p' = EMPTY_PICTURE
               else i_status p' = RESERVED_PICTURE /\ i_type p' = YUV_420_PICTURE
                    /\ i_width p' = 32 /\ i_height p' = 32
                    /\ i_chroma_width p' = cw /\ i_refcount p' = 0
                    /\ p_y p' = d
                    /\ p_u p' = d + off_u * sizeof_yuv_data_t VExamples.vout_config
                    /\ p_v p' = d + off_v * sizeof_yuv_data_t VExamples.vout_config) in
       match list_find (reusable YUV_420_PICTURE 32 32) VExamples.heap_destroyed_free with
       | Some (i, p) =>
           vout_CreatePicture VExamples.vout_config (fun _ => 2000) VExamples.heap_destroyed_free YUV_420_PICTURE 32 32
           = (<[i := set_status RESERVED_PICTURE p]> VExamples.heap_destroyed_free, Some i, [])
       | None =>
           match list_find is_free VExamples.heap_destroyed_free, list_find is_destroyed VExamples.heap_destroyed_free with
           | Some (f, _), _ => created f []
           | None, Some (f, p) => created f [EvFree (p_data p)]
           | None, None => vout_CreatePicture VExamples.vout_config (fun _ => 2000) VExamples.heap_destroyed_free YUV_420_PICTURE 32 32 = (VExamples.heap_destroyed_free, None, [])
           end
       end.
Proof.
  apply (vout_CreatePicture_spec VExamples.vout_config (fun _ => 2000)
           VExamples.heap_destroyed_free YUV_420_PICTURE 32 32).
  discriminate.
Defined.

(** C2 as stated fails: with a destroyed slot of another size in front of
    a free slot, a 32x32 picture goes to the free slot; the destroyed slot
    keeps its status and its buffer, and nothing is freed. *)
Lemma vout_CreatePicture_prefers_free :
  vout_CreatePicture VExamples.vout_config (fun _ => 2000)
                     VExamples.heap_destroyed_free YUV_420_PICTURE 32 32
  = ([VExamples.slot DESTROYED_PICTURE YUV_420_PICTURE 16 16 0 0 1000;
      {| i_type := YUV_420_PICTURE; i_status := RESERVED_PICTURE;
         i_matrix_coefficients := 1; i_width := 32; i_height := 32;
         i_chroma_width := 16; i_display_horizontal_offset := 0;
         i_display_vertical_offset := 0; i_display_width := 32;
         i_display_height := 32; i_aspect_ratio := AR_SQUARE_PICTURE;
         i_refcount := 0; date := 0; p_data := 2000; p_y := 2000;
         p_u := 3024; p_v := 3280 |}],
     Some 1%nat, [EvMalloc 1536 2000]).
Proof. vm_compute. reflexivity. Qed.

End CreatePicture.

(** ** Picture heap: the refcount law (C4) *)

Section RefcountLaw.
Import VideoOutput.

(** Inversion of a bind that is [Done]. *)
Lemma obind_Done {A B : Type} (m : outcome A) (k : A -> outcome B) (b : B) :
  obind m k = Done b -> exists a, m = Done a /\ k a = Done b.
Proof. destruct m; simpl; intros H; try discriminate. eauto. Qed.

Lemma alter_lookup_cases (f : picture_t -> picture_t) (l : list picture_t)
    (i j : nat) (p p' : picture_t) :
  l !! j = Some p -> alter f i l !! j = Some p' ->
  (j = i /\ p' = f p) \/ (j <> i /\ p' = p).
Proof.
  intros Hl Ha. destruct (decide (i = j)) as [->|Hne].
  - rewrite list_lookup_alter_eq, Hl in Ha. simpl in Ha.
    injection Ha as <-. auto.
  - rewrite list_lookup_alter_ne, Hl in Ha by exact Hne.
    injection Ha as <-. auto.
Qed.

Lemma insert_lookup_cases (q : picture_t) (l : list picture_t)
    (i j : nat) (p p' : picture_t) :
  l !! j = Some p -> <[i := q]> l !! j = Some p' ->
  (j = i /\ p' = q) \/ (j <> i /\ p' = p).
Proof.
  intros Hl Ha. destruct (decide (i = j)) as [->|Hne].
  - rewrite list_lookup_insert_eq in Ha by (eapply lookup_lt_Some; eauto).
    injection Ha as <-. auto.
  - rewrite list_lookup_insert_ne, Hl in Ha by exact Hne.
    injection Ha as <-. auto.
Qed.

(** A slot that went through the allocation is reserved or free. *)
Lemma prepare_picture_status (cfg : config) (malloc : Z -> Z)
    (t : picture_type) (w h : Z) (p : picture_t) :
  i_status (prepare_picture cfg malloc t w h p).1.1 <> DESTROYED_PICTURE.
Proof.
  unfold prepare_picture.
  destruct (plane_layout t w h) as [[[[cw n] off_u] off_v]|];
    try match goal with
        | |- context [negb (?x =? 0)] => destruct (x =? 0)
        end; simpl; discriminate.
Qed.

(** vout_CreatePicture never leaves a slot destroyed that was not. *)
Lemma vout_CreatePicture_status (cfg : config) (malloc : Z -> Z)
    (l l' : list picture_t) (t : picture_type) (w h : Z) (r : option nat)
    (ev : list event) (j : nat) (p p' : picture_t) :
  vout_CreatePicture cfg malloc l t w h = (l', r, ev) ->
  l !! j = Some p -> l' !! j = Some p' ->
  i_status p' = DESTROYED_PICTURE -> i_status p = DESTROYED_PICTURE.
Proof.
  intros Hc Hl Hl' Hs.
  unfold vout_CreatePicture in Hc. rewrite scan_pictures_find in Hc. simpl in Hc.
  destruct (list_find (reusable t w h) l) as [[i q]|] eqn:Hr.
  - rewrite (list_find_lookup _ _ _ _ Hr) in Hc. injection Hc as <- <- <-.
    destruct (insert_lookup_cases _ _ _ _ _ _ Hl Hl') as [[_ ->]|[_ ->]];
      [discriminate | assumption].
  - destruct (list_find is_free l) as [[f q]|] eqn:Hf; simpl in Hc.
    + rewrite (list_find_lookup _ _ _ _ Hf) in Hc.
      pose proof (prepare_picture_status cfg malloc t w h q) as Hq.
      destruct (prepare_picture cfg malloc t w h q) as [[q' ok] ev'].
      injection Hc as <- <- <-.
      destruct (insert_lookup_cases _ _ _ _ _ _ Hl Hl') as [[_ ->]|[_ ->]];
        [|assumption].
      contradiction.
    + destruct (list_find is_destroyed l) as [[d q]|] eqn:Hd; simpl in Hc.
      * rewrite (list_find_lookup _ _ _ _ Hd) in Hc.
        pose proof (prepare_picture_status cfg malloc t w h q) as Hq.
        destruct (prepare_picture cfg malloc t w h q) as [[q' ok] ev'].
        injection Hc as <- <- <-.
        destruct (insert_lookup_cases _ _ _ _ _ _ Hl Hl') as [[_ ->]|[_ ->]];
          [|assumption].
        contradiction.
      * injection Hc as <- <- <-. congruence.
Qed.

Lemma SetBufferPicture_heap (cfg : config) (fuel : nat) (v v' : vout_thread_t)
    (p_pic : option picture_t) :
  SetBufferPicture cfg fuel v p_pic = Done v' -> p_picture v' = p_picture v.
Proof.
  unfold SetBufferPicture. intros H.
  apply obind_Done in H as (b & _ & H).
  apply obind_Done in H as ([[[x y] w] h] & _ & H).
  apply obind_Done in H as (b1 & _ & H).
  apply obind_Done in H as (b2 & _ & H).
  injection H as <-. reflexivity.
Qed.

Lemma RenderPicture_heap (env : collaborators) (v v' : vout_thread_t)
    (p_pic : picture_t) :
  RenderPicture env v p_pic = Done v' -> p_picture v' = p_picture v.
Proof.
  unfold RenderPicture. intros H.
  apply obind_Done in H as (b & _ & H).
  apply obind_Done in H as (q & _ & H).
  apply obind_Done in H as (sc & _ & H).
  apply obind_Done in H as (hh & _ & H).
  destruct (i_type p_pic); injection H as <-; reflexivity.
Qed.

(** The heap after the selection: as it was, or with the late picture
    removed and no picture left to render. *)
Lemma RunThread_select_heap (cfg : config) (current_date : Z)
    (v v1 : vout_thread_t) (p_pic : option nat) (display_date : Z) :
  RunThread_select cfg current_date v = Done (v1, p_pic, display_date) ->
  p_picture v1 = p_picture v
  \/ (p_pic = None
      /\ exists i, p_picture v1 = alter remove_from_heap i (p_picture v)).
Proof.
  unfold RunThread_select.
  destruct (find_picture (p_picture v) 0 None 0) as [[i|] d].
  - intros H. apply obind_Done in H as (v0 & Hv0 & H).
    assert (Hp : p_picture v0 = p_picture v).
    { destruct (STATS cfg).
      - apply obind_Done in Hv0 as (q & _ & Hv0).
        apply obind_Done in Hv0 as (s & _ & Hv0).
        injection Hv0 as <-. reflexivity.
      - injection Hv0 as <-. reflexivity. }
    destruct (d <? current_date).
    + injection H as <- <- <-. right. split; [reflexivity|].
      exists i. simpl. rewrite Hp. reflexivity.
    + destruct (d >? int64 (current_date + VOUT_DISPLAY_DELAY cfg));
        injection H as <- <- <-; left; exact Hp.
  - intros [= <- <- <-]. left. reflexivity.
Qed.

(** The heap after the rendering: the rendered picture is removed. *)
Lemma RunThread_render_heap (cfg : config) (env : collaborators) (fuel : nat)
    (v v' : vout_thread_t) (p_pic : option nat) (b_display : bool)
    (ev : list event) :
  RunThread_render cfg env fuel v p_pic = Done (v', b_display, ev) ->
  match p_pic with
  | Some i => p_picture v' = alter remove_from_heap i (p_picture v)
  | None => v' = v /\ b_display = false /\ ev = []
  end.
Proof.
  unfold RunThread_render. destruct p_pic as [i|].
  - destruct (p_picture v !! i) as [pic|]; [|discriminate].
    intros H. apply obind_Done in H as ([v1 ev1] & H1 & H).
    apply obind_Done in H as ([v3 ev2] & H2 & H).
    injection H as <- <- <-.
    assert (Hp1 : p_picture v1 = p_picture v).
    { destruct (b_active v).
      - apply obind_Done in H1 as (va & Ha & H1).
        apply obind_Done in H1 as (vb & Hb & H1).
        apply obind_Done in H1 as ([vc evc] & Hc & H1).
        injection H1 as <- <-.
        apply SetBufferPicture_heap in Ha. apply RenderPicture_heap in Hb.
        destruct (b_info vb).
        + apply obind_Done in Hc as (b1 & _ & Hc).
          apply obind_Done in Hc as (b2 & _ & Hc).
          injection Hc as <- <-. simpl. congruence.
        + injection Hc as <- <-. congruence.
      - injection H1 as <- <-. reflexivity. }
    destruct (b_active v && b_interface _).
    + apply obind_Done in H2 as (b3 & _ & H2).
      injection H2 as <- <-. simpl. rewrite Hp1. reflexivity.
    + injection H2 as <- <-. simpl. rewrite Hp1. reflexivity.
  - intros [= <- <- <-]. auto.
Qed.

(** One iteration changes the heap by removing at most one picture. *)
Lemma RunThread_iteration_heap (cfg : config) (env : collaborators) (fuel : nat)
    (current_date render_date : Z) (v v' : vout_thread_t) (ev : list event) :
  RunThread_iteration cfg env fuel current_date render_date v = Done (v', ev) ->
  p_picture v' = p_picture v
  \/ exists i, p_picture v' = alter remove_from_heap i (p_picture v).
Proof.
  unfold RunThread_iteration. intros H.
  apply obind_Done in H as ([[v1 p_pic] d] & Hsel & H).
  apply obind_Done in H as ([[v2 b_display] evr] & Hren & H).
  destruct (b_display && _); destruct (vout_SysManage env _) as [chg r1];
    destruct (Manage cfg _) as [[chg' r2] evm];
    injection H as <- <-; simpl;
    apply RunThread_select_heap in Hsel;
    apply RunThread_render_heap in Hren;
    destruct (STATS cfg); simpl;
    (destruct Hsel as [Hsel|[-> [i Hsel]]];
     [destruct p_pic as [i|];
      [right; exists i; congruence
      |destruct Hren as (-> & _ & _); left; exact Hsel]
     |destruct Hren as (-> & _ & _); right; exists i; exact Hsel]).
Qed.

(** C4. A slot that was not destroyed is destroyed after a call on the heap
    or an iteration of the output thread only if the call is
    vout_DestroyPicture on that slot or the slot's refcount is zero;
    vout_UnlinkPicture decrements the refcount and makes the status
    destroyed exactly when the refcount has reached zero on a displayed
    slot, leaving the status alone otherwise; vout_DestroyPicture makes the
    status destroyed whatever the refcount, which it keeps. *)
Theorem refcount_law (cfg : config) (env : collaborators) :
  (forall op v v' i p p',
     heap_step cfg env op v = Done v' ->
     p_picture v !! i = Some p -> p_picture v' !! i = Some p' ->
     i_status p <> DESTROYED_PICTURE -> i_status p' = DESTROYED_PICTURE ->
     op = OpDestroyPicture i \/ i_refcount p' = 0)
  /\ (forall p,
        i_refcount (vout_UnlinkPicture cfg p)
        = (if DEBUG_VIDEO cfg && (int (i_refcount p - 1) <? 0)
           then 0 else int (i_refcount p - 1))
        /\ (i_refcount (vout_UnlinkPicture cfg p) = 0
            /\ i_status p = DISPLAYED_PICTURE ->
            i_status (vout_UnlinkPicture cfg p) = DESTROYED_PICTURE)
        /\ (~ (i_refcount (vout_UnlinkPicture cfg p) = 0
               /\ i_status p = DISPLAYED_PICTURE) ->
            i_status (vout_UnlinkPicture cfg p) = i_status p))
  /\ (forall p,
        i_status (vout_DestroyPicture p) = DESTROYED_PICTURE
        /\ i_refcount (vout_DestroyPicture p) = i_refcount p).
Proof.
  assert (Hunlink : forall p,
    i_refcount (vout_UnlinkPicture cfg p)
    = (if DEBUG_VIDEO cfg && (int (i_refcount p - 1) <? 0)
       then 0 else int (i_refcount p - 1))
    /\ i_status (vout_UnlinkPicture cfg p)
       = if (i_refcount (vout_UnlinkPicture cfg p) =? 0)
            && bool_decide (i_status p = DISPLAYED_PICTURE)
         then DESTROYED_PICTURE else i_status p).
  { intros p. unfold vout_UnlinkPicture. simpl.
    destruct (DEBUG_VIDEO cfg && (int (i_refcount p - 1) <? 0)); simpl;
      match goal with
      | |- context [if ?c then set_status _ _ else _] => destruct c eqn:Hc
      end; simpl; rewrite ?Hc; auto. }
  split; [|split].
  - intros op v v' i p p' Hstep Hl Hl' Hs Hs'.
    destruct op as [malloc t w h|j|j d|j|j|j|fuel cd rd]; simpl in Hstep.
    + destruct (vout_CreatePicture cfg malloc (p_picture v) t w h) as [[l r] ev] eqn:Hc.
      injection Hstep as <-. simpl in Hl'.
      exfalso. apply Hs. eapply vout_CreatePicture_status; eauto.
    + injection Hstep as <-. simpl in Hl'.
      destruct (alter_lookup_cases _ _ _ _ _ _ Hl Hl') as [[_ ->]|[_ ->]];
        [|contradiction].
      unfold vout_DisplayPicture in Hs'. revert Hs Hs'.
      destruct (i_status p) eqn:E; simpl; congruence.
    + injection Hstep as <-. simpl in Hl'.
      destruct (alter_lookup_cases _ _ _ _ _ _ Hl Hl') as [[_ ->]|[_ ->]];
        [|contradiction].
      unfold vout_DatePicture in Hs'. simpl in Hs'. revert Hs Hs'.
      destruct (i_status p) eqn:E; simpl; congruence.
    + injection Hstep as <-. simpl in Hl'.
      destruct (alter_lookup_cases _ _ _ _ _ _ Hl Hl') as [[-> _]|[_ ->]];
        [left; reflexivity | contradiction].
    + injection Hstep as <-. simpl in Hl'.
      destruct (alter_lookup_cases _ _ _ _ _ _ Hl Hl') as [[_ ->]|[_ ->]];
        contradiction.
    + injection Hstep as <-. simpl in Hl'.
      destruct (alter_lookup_cases _ _ _ _ _ _ Hl Hl') as [[_ ->]|[_ ->]];
        [|contradiction].
      right. destruct (Hunlink p) as [_ Hst]. rewrite Hst in Hs'.
      destruct (i_refcount (vout_UnlinkPicture cfg p) =? 0) eqn:Hz;
        [apply Z.eqb_eq in Hz; exact Hz | simpl in Hs'; contradiction].
    + apply obind_Done in Hstep as ([v1 ev] & Hit & Hstep).
      injection Hstep as <-.
      apply RunThread_iteration_heap in Hit as [Hit|[j Hit]]; rewrite Hit in Hl'.
      * rewrite Hl in Hl'. injection Hl' as <-. contradiction.
      * destruct (alter_lookup_cases _ _ _ _ _ _ Hl Hl') as [[_ ->]|[_ ->]];
          [|contradiction].
        right. unfold remove_from_heap in *. simpl in *.
        destruct (i_refcount p =? 0) eqn:Hz;
          [apply Z.eqb_eq in Hz; exact Hz | discriminate].
  - intros p. destruct (Hunlink p) as [Hr Hst]. split; [exact Hr|]. split.
    + intros [Hz Hd]. rewrite Hst, Hz. simpl.
      rewrite bool_decide_eq_true_2 by exact Hd. reflexivity.
    + intros Hn. rewrite Hst.
      destruct (i_refcount (vout_UnlinkPicture cfg p) =? 0) eqn:Hz; simpl;
        [|reflexivity].
      destruct (bool_decide (i_status p = DISPLAYED_PICTURE)) eqn:Hd;
        [|reflexivity].
      exfalso. apply Hn. apply Z.eqb_eq in Hz.
      apply bool_decide_eq_true_1 in Hd. auto.
  - intros p. split; reflexivity.
Qed.

(** The last unlink of a displayed picture. *)
Lemma refcount_law_witness :
  OpUnlinkPicture 0 = OpDestroyPicture 0
  \/ i_refcount (VExamples.slot DESTROYED_PICTURE YUV_420_PICTURE 32 32 0 0 1000) = 0.
Proof.
  apply (proj1 (refcount_law VExamples.vout_config VExamples.quiet_vout_env)
           (OpUnlinkPicture 0)
           (VExamples.thread_with
              [VExamples.slot DISPLAYED_PICTURE YUV_420_PICTURE 32 32 1 0 1000]
              640 480 false)
           (VExamples.thread_with
              [VExamples.slot DESTROYED_PICTURE YUV_420_PICTURE 32 32 0 0 1000]
              640 480 false)
           0%nat
           (VExamples.slot DISPLAYED_PICTURE YUV_420_PICTURE 32 32 1 0 1000)
           (VExamples.slot DESTROYED_PICTURE YUV_420_PICTURE 32 32 0 0 1000));
    [reflexivity | reflexivity | reflexivity | discriminate | reflexivity].
Defined.

End RefcountLaw.

(** ** The output thread: late and early pictures (C3) *)

Section LatePicture.
Import VideoOutput.

(** The selection loop keeps the earliest ready picture seen so far. *)
Lemma find_picture_acc (l : list picture_t) :
  forall k acc d r d',
    find_picture l k acc d = (r, d') ->
    (r = acc /\ d' = d
     /\ (acc = None -> forall j q, l !! j = Some q -> i_status q <> READY_PICTURE)
     /\ (acc <> None ->
         forall j q, l !! j = Some q -> i_status q = READY_PICTURE -> d <= date q))
    \/ (exists j p, r = Some (k + j)%nat /\ l !! j = Some p
        /\ i_status p = READY_PICTURE /\ date p = d'
        /\ (acc <> None -> d' < d)
        /\ forall j' q, l !! j' = Some q -> i_status q = READY_PICTURE ->
                        d' <= date q).
Proof.
  induction l as [|p l IH]; intros k acc d r d' H; simpl in H.
  - injection H as <- <-. left. repeat split; auto; intros; discriminate.
  - destruct (bool_decide (i_status p = READY_PICTURE)) eqn:Hr.
    + apply bool_decide_eq_true_1 in Hr.
      destruct (match acc with None => true | Some _ => false end
                || (date p <? d)) eqn:Hc; simpl in H.
      * apply IH in H as [(-> & -> & _ & Hmin)|(j & q & -> & Hq & Hs & Hd & Hlt & Hmin)].
        -- right. exists 0%nat, p. rewrite Nat.add_0_r.
           repeat split; auto.
           ++ intros Hacc. destruct acc; [|congruence]. simpl in Hc.
              apply Z.ltb_lt in Hc. exact Hc.
           ++ intros [|j'] q Hq Hs; simpl in Hq.
              ** injection Hq as <-. lia.
              ** apply (Hmin ltac:(discriminate) j' q Hq Hs).
        -- right. exists (S j), q. replace (k + S j)%nat with (S k + j)%nat by lia.
           repeat split; auto.
           ++ intros Hacc. destruct acc; [|congruence]. simpl in Hc.
              apply Z.ltb_lt in Hc. specialize (Hlt ltac:(discriminate)). lia.
           ++ intros [|j'] q' Hq' Hs'; simpl in Hq'.
              ** injection Hq' as <-. specialize (Hlt ltac:(discriminate)). lia.
              ** eauto.
      * destruct acc as [a|]; [|discriminate]. simpl in Hc.
        apply Z.ltb_ge in Hc.
        apply IH in H as [(-> & -> & _ & Hmin)|(j & q & -> & Hq & Hs & Hd & Hlt & Hmin)].
        -- left. split; [reflexivity|]. split; [reflexivity|].
           split; [intros; discriminate|].
           intros _ [|j'] q Hq Hs; simpl in Hq.
           ++ injection Hq as <-. exact Hc.
           ++ apply (Hmin ltac:(discriminate) j' q Hq Hs).
        -- right. exists (S j), q. replace (k + S j)%nat with (S k + j)%nat by lia.
           repeat split; auto.
           intros [|j'] q' Hq' Hs'; simpl in Hq'.
           ++ injection Hq' as <-. specialize (Hlt ltac:(discriminate)). lia.
           ++ eauto.
    + apply bool_decide_eq_false_1 in Hr. simpl in H.
      apply IH in H as [(-> & -> & Hnone & Hmin)|(j & q & -> & Hq & Hs & Hd & Hlt & Hmin)].
      * left. split; [reflexivity|]. split; [reflexivity|]. split.
        -- intros Hacc [|j'] q Hq; simpl in Hq; [injection Hq as <-; exact Hr | eauto].
        -- intros Hacc [|j'] q Hq Hs; simpl in Hq;
             [injection Hq as <-; contradiction | eauto].
      * right. exists (S j), q. replace (k + S j)%nat with (S k + j)%nat by lia.
        repeat split; auto.
        intros [|j'] q' Hq' Hs'; simpl in Hq';
          [injection Hq' as <-; contradiction | eauto].
Qed.

(** The selected picture is ready and no ready picture has an earlier
    date. *)
Lemma find_picture_min (l : list picture_t) (i : nat) (D : Z) :
  find_picture l 0 None 0 = (Some i, D) ->
  exists P, l !! i = Some P /\ i_status P = READY_PICTURE /\ date P = D
            /\ forall j q, l !! j = Some q -> i_status q = READY_PICTURE ->
                           D <= date q.
Proof.
  intros H. apply find_picture_acc in H
    as [(Hr & _)|(j & p & Hr & Hp & Hs & Hd & _ & Hmin)]; [discriminate|].
  injection Hr as ->. exists p. auto.
Qed.

Lemma RunThread_select_found (cfg : config) (now : Z) (v : vout_thread_t)
    (i : nat) (D : Z) :
  find_picture (p_picture v) 0 None 0 = (Some i, D) ->
  stats_ok cfg v ->
  RunThread_select cfg now v =
    if D <? now
    then Done (set_p_picture (alter remove_from_heap i (p_picture v))
                             (after_sample cfg v D), None, 0)
    else if D >? int64 (now + VOUT_DISPLAY_DELAY cfg)
         then Done (after_sample cfg v D, None, 0)
         else Done (after_sample cfg v D, Some i, D).
Proof.
  intros Hf Hok. unfold RunThread_select, after_sample. rewrite Hf.
  destruct (STATS cfg) eqn:Hs.
  - destruct Hok as [Hok|[Hne Hr]]; [congruence|].
    replace (VOUT_FPS_SAMPLES cfg =? 0) with false
      by (symmetry; apply Z.eqb_neq; exact Hne).
    simpl. unfold arr_set.
    replace (0 <=? Z.rem (c_fps_samples v) (VOUT_FPS_SAMPLES cfg)) with true
      by (symmetry; apply Z.leb_le; lia).
    replace (Z.rem (c_fps_samples v) (VOUT_FPS_SAMPLES cfg)
             <? Z.of_nat (length (p_fps_sample v))) with true
      by (symmetry; apply Z.ltb_lt; lia).
    simpl. destruct (D <? now); [reflexivity|].
    destruct (D >? int64 (now + VOUT_DISPLAY_DELAY cfg)); reflexivity.
  - simpl. destruct (D <? now); [reflexivity|].
    destruct (D >? int64 (now + VOUT_DISPLAY_DELAY cfg)); reflexivity.
Qed.

(** An iteration that selected no picture to render: it renders nothing
    and leaves the heap and the buffers as the selection left them. *)
Lemma RunThread_iteration_idle (cfg : config) (env : collaborators) (fuel : nat)
    (now rd : Z) (v v1 : vout_thread_t) :
  RunThread_select cfg now v = Done (v1, None, 0) ->
  exists v' ev,
    RunThread_iteration cfg env fuel now rd v = Done (v', ev)
    /\ p_picture v' = p_picture v1 /\ p_buffer v' = p_buffer v1
    /\ i_buffer_index v' = i_buffer_index v1
    /\ last_picture_date v' = last_picture_date v1
    /\ c_fps_samples v' = c_fps_samples v1
    /\ existsb is_render ev = false.
Proof.
  intros Hsel. unfold RunThread_iteration. rewrite Hsel. simpl.
  destruct (vout_SysManage env _) as [chg r1] eqn:Hm.
  unfold Manage. simpl.
  repeat match goal with
         | |- context [if ?c then _ else _] => destruct c; simpl
         end;
    eexists _, _; (split; [reflexivity|]); simpl; auto 10.
Qed.

(** C3, as amended. Let the selection of an iteration pick slot [i] with
    date [D]: it is a ready picture and no ready picture is earlier.  If
    [D < now], the iteration makes its status displayed when its refcount
    is not zero and destroyed when it is zero, makes no render call and
    leaves both back buffers, the buffer index and every other slot as
    they were; the thread record has no counter of lost pictures.  If
    [D] is not late and [D > now + VOUT_DISPLAY_DELAY], the iteration makes
    no render call and leaves the heap, that slot's status included, and
    the buffers as they were. *)
Theorem RunThread_late_or_early (cfg : config) (env : collaborators) (fuel : nat)
    (now rd : Z) (v : vout_thread_t) (i : nat) (D : Z) :
  find_picture (p_picture v) 0 None 0 = (Some i, D) ->
  stats_ok cfg v ->
  (exists P, p_picture v !! i = Some P /\ i_status P = READY_PICTURE /\ date P = D
             /\ forall j q, p_picture v !! j = Some q ->
                            i_status q = READY_PICTURE -> D <= date q)
  /\ (D < now ->
      exists v' ev,
        RunThread_iteration cfg env fuel now rd v = Done (v', ev)
        /\ p_picture v' = alter remove_from_heap i (p_picture v)
        /\ (forall P, p_picture v !! i = Some P ->
              p_picture v' !! i
              = Some (set_status (if i_refcount P =? 0 then DESTROYED_PICTURE
                                  else DISPLAYED_PICTURE) P))
        /\ (forall j, j <> i -> p_picture v' !! j = p_picture v !! j)
        /\ p_buffer v' = p_buffer v /\ i_buffer_index v' = i_buffer_index v
        /\ last_picture_date v' = last_picture_date v
        /\ existsb is_render ev = false)
  /\ (now <= D -> D > int64 (now + VOUT_DISPLAY_DELAY cfg) ->
      exists v' ev,
        RunThread_iteration cfg env fuel now rd v = Done (v', ev)
        /\ p_picture v' = p_picture v
        /\ p_buffer v' = p_buffer v /\ i_buffer_index v' = i_buffer_index v
        /\ last_picture_date v' = last_picture_date v
        /\ existsb is_render ev = false).
Proof.
  intros Hf Hok. split; [apply find_picture_min; exact Hf|].
  pose proof (RunThread_select_found cfg now v i D Hf Hok) as Hsel.
  assert (Hsample : p_picture (after_sample cfg v D) = p_picture v
                    /\ p_buffer (after_sample cfg v D) = p_buffer v
                    /\ i_buffer_index (after_sample cfg v D) = i_buffer_index v
                    /\ last_picture_date (after_sample cfg v D) = last_picture_date v).
  { unfold after_sample. destruct (STATS cfg); simpl; auto. }
  destruct Hsample as (Hp & Hb & Hi & Hd).
  split.
  - intros Hlate.
    replace (D <? now) with true in Hsel by (symmetry; apply Z.ltb_lt; lia).
    destruct (RunThread_iteration_idle cfg env fuel now rd v _ Hsel)
      as (v' & ev & Hrun & Hp' & Hb' & Hi' & Hd' & _ & Hev).
    exists v', ev. simpl in *.
    split; [exact Hrun|]. split; [exact Hp'|]. split.
    { intros P HP. rewrite Hp', list_lookup_alter_eq, HP. reflexivity. }
    split.
    { intros j Hj. rewrite Hp'. apply list_lookup_alter_ne. congruence. }
    repeat split; congruence.
  - intros Hnl Hearly.
    replace (D <? now) with false in Hsel by (symmetry; apply Z.ltb_ge; lia).
    replace (D >? int64 (now + VOUT_DISPLAY_DELAY cfg)) with true in Hsel
      by (symmetry; apply Z.gtb_lt; lia).
    destruct (RunThread_iteration_idle cfg env fuel now rd v _ Hsel)
      as (v' & ev & Hrun & Hp' & Hb' & Hi' & Hd' & _ & Hev).
    exists v', ev. repeat split; congruence.
Qed.

(** The scenario of the late picture: [now = 10000], one ready picture
    dated 9000. *)
Lemma RunThread_late_or_early_witness :
  exists v' ev,
    RunThread_iteration VExamples.vout_config VExamples.quiet_vout_env 0
                        10000 10000 VExamples.late_thread = Done (v', ev)
    /\ p_picture v' = alter remove_from_heap 0%nat (p_picture VExamples.late_thread)
    /\ (forall P, p_picture VExamples.late_thread !! 0%nat = Some P ->
          p_picture v' !! 0%nat
          = Some (set_status (if i_refcount P =? 0 then DESTROYED_PICTURE
                              else DISPLAYED_PICTURE) P))
    /\ (forall j, j <> 0%nat ->
          p_picture v' !! j = p_picture VExamples.late_thread !! j)
    /\ p_buffer v' = p_buffer VExamples.late_thread
    /\ i_buffer_index v' = i_buffer_index VExamples.late_thread
    /\ last_picture_date v' = last_picture_date VExamples.late_thread
    /\ existsb is_render ev = false.
Proof.
  apply (proj1 (proj2 (RunThread_late_or_early VExamples.vout_config
                         VExamples.quiet_vout_env 0 10000 10000
                         VExamples.late_thread 0%nat 9000 eq_refl
                         (or_introl eq_refl)))).
  lia.
Defined.

(** C3 as stated fails: no counter of lost pictures is incremented.
    Without STATS the thread record after the late picture is the record
    before it with the slot's status replaced, and nothing else.  With
    STATS the one counter of the record, [c_fps_samples], counts every
    selected picture: it goes from 0 to 1 for the picture dropped as late
    and just as well for a picture that is too early and stays ready. *)
Lemma RunThread_counts_no_lost_picture :
  RunThread_iteration VExamples.vout_config VExamples.quiet_vout_env 0
                      10000 10000 VExamples.late_thread
  = Done (VExamples.dropped_thread, [EvMsleepIdle; EvSysManage])
  /\ RunThread_iteration VExamples.stats_config VExamples.quiet_vout_env 0
                         10000 10000 VExamples.late_thread
     = Done (set_stats 1 (9000 :: repeat 0 19) 0 VExamples.dropped_thread,
             [EvMsleepIdle; EvSysManage])
  /\ RunThread_iteration VExamples.stats_config VExamples.quiet_vout_env 0
                         10000 10000 VExamples.early_thread
     = Done (set_stats 1 (900000 :: repeat 0 19) 0 VExamples.early_thread,
             [EvMsleepIdle; EvSysManage]).
Proof. split; [|split]; reflexivity. Qed.

End LatePicture.

(** ** Aspect scaling (C7) *)

Section AspectScaling.
Import VideoOutput.

Lemma int_round16 (x : Z) :
  0 <= x < 2 ^ 31 -> int (int (Z.quot x 16) * 16) = round16 x.
Proof.
  intros Hx. unfold round16. rewrite Z.quot_div_nonneg by lia.
  assert (0 <= x / 16 <= x) by (split; [apply Z.div_pos; lia | apply Z.div_le_upper_bound; lia]).
  rewrite (int_small (x / 16)) by lia.
  assert (16 * (x / 16) <= x) by (apply Z.mul_div_le; lia).
  rewrite int_small by lia. lia.
Qed.

Lemma round16_bounds (x : Z) : 0 <= x -> 0 <= round16 x <= x /\ round16 x mod 16 = 0.
Proof.
  intros Hx. unfold round16.
  assert (0 <= x / 16) by (apply Z.div_pos; lia).
  assert (16 * (x / 16) <= x) by (apply Z.mul_div_le; lia).
  split; [lia|]. rewrite Z.mul_comm. apply Z.mod_mul. lia.
Qed.

Lemma int_scale (a c : Z) :
  0 <= a < 2 ^ 31 -> 0 < c -> int (Z.quot (int a) c) = a / c /\ 0 <= a / c <= a.
Proof.
  intros Ha Hc. rewrite (int_small a) by lia.
  rewrite Z.quot_div_nonneg by lia.
  assert (0 <= a / c <= a)
    by (split; [apply Z.div_pos; lia | apply Z.div_le_upper_bound; nia]).
  rewrite int_small by lia. auto.
Qed.

Lemma quot2_range (x : Z) :
  - 2 ^ 31 < x < 2 ^ 31 -> - 2 ^ 31 <= Z.quot x 2 < 2 ^ 31.
Proof.
  intros Hx. destruct (Z_le_gt_dec 0 x).
  - rewrite Z.quot_div_nonneg by lia.
    assert (0 <= x / 2 <= x)
      by (split; [apply Z.div_pos; lia | apply Z.div_le_upper_bound; lia]).
    lia.
  - pose proof (Z.quot_opp_l (- x) 2 ltac:(lia)) as Hq.
    rewrite Z.opp_involutive in Hq. rewrite Hq.
    rewrite Z.quot_div_nonneg by lia.
    assert (0 <= (- x) / 2 <= - x)
      by (split; [apply Z.div_pos; lia | apply Z.div_le_upper_bound; lia]).
    lia.
Qed.

Lemma fit_bounds (scale : bool) (sink src : Z) :
  0 <= sink < 2 ^ 15 -> 0 < src < 2 ^ 15 ->
  0 <= fit scale sink src < 2 ^ 15 /\ fit false sink src = Z.min sink src.
Proof.
  intros Hs Hr. unfold fit. split.
  - destruct (scale || (src >? sink)); lia.
  - simpl. destruct (src >? sink) eqn:H.
    + apply Z.gtb_lt in H. lia.
    + rewrite Z.gtb_ltb in H. apply Z.ltb_ge in H. lia.
Qed.

(** C7, as amended. For a picture prepared for rendering (sizes below
    2^15): the side to fit is the sink's when scaling is enabled or the
    source is larger than the sink, and the source's otherwise, which is
    [min(sink, source)] when scaling is off; the box width is that width
    rounded down to a multiple of 16 and the box height follows from it
    by the declared aspect ratio; if that height exceeds the sink height,
    the height is fitted instead and the width follows from it, rounded
    down to a multiple of 16; the box is centred in the sink. *)
Theorem picture_box_fit (v : vout_thread_t) (p : picture_t) :
  0 <= v_i_width v < 2 ^ 15 -> 0 <= v_i_height v < 2 ^ 15 ->
  0 < i_width p < 2 ^ 15 -> 0 < i_height p < 2 ^ 15 ->
  picture_box v p
  = Done (Z.quot (v_i_width v - fst (box_size v p)) 2,
          Z.quot (v_i_height v - snd (box_size v p)) 2,
          fst (box_size v p), snd (box_size v p))
  /\ fst (box_size v p) mod 16 = 0
  /\ (b_scale v = false ->
      fit (b_scale v) (v_i_width v) (i_width p) = Z.min (v_i_width v) (i_width p)
      /\ fit (b_scale v) (v_i_height v) (i_height p)
         = Z.min (v_i_height v) (i_height p)).
Proof.
  intros HW HH Hpw Hph.
  destruct (fit_bounds (b_scale v) _ _ HW Hpw) as [Hfw Hminw].
  destruct (fit_bounds (b_scale v) _ _ HH Hph) as [Hfh Hminh].
  set (fw := fit (b_scale v) (v_i_width v) (i_width p)) in *.
  set (fh := fit (b_scale v) (v_i_height v) (i_height p)) in *.
  destruct (round16_bounds fw ltac:(lia)) as [Hw0 Hw0m].
  assert (Hh0 : forall ar,
    match ar with
    | AR_3_4_PICTURE => Done (int (Z.quot (int (round16 fw * 3)) 4))
    | AR_16_9_PICTURE => Done (int (Z.quot (int (round16 fw * 9)) 16))
    | AR_221_1_PICTURE => Done (int (Z.quot (int (round16 fw * 100)) 221))
    | AR_SQUARE_PICTURE => cdiv (int (i_height p * round16 fw)) (i_width p)
    end = Done (height_of_width ar (i_width p) (i_height p) (round16 fw))
    /\ 0 <= height_of_width ar (i_width p) (i_height p) (round16 fw) < 2 ^ 30).
  { intros ar. destruct ar; simpl.
    - rewrite cdiv_pos by lia.
      destruct (int_scale (i_height p * round16 fw) (i_width p)) as [E B]; [nia | lia|].
      rewrite E. split; [reflexivity | nia].
    - destruct (int_scale (round16 fw * 3) 4) as [E B]; [lia | lia|].
      rewrite E. split; [reflexivity | lia].
    - destruct (int_scale (round16 fw * 9) 16) as [E B]; [lia | lia|].
      rewrite E. split; [reflexivity | lia].
    - destruct (int_scale (round16 fw * 100) 221) as [E B]; [lia | lia|].
      rewrite E. split; [reflexivity | lia]. }
  assert (Hw1 : forall ar,
    match ar with
    | AR_3_4_PICTURE => Done (int (Z.quot (int (fh * 4)) 3))
    | AR_16_9_PICTURE => Done (int (Z.quot (int (fh * 16)) 9))
    | AR_221_1_PICTURE => Done (int (Z.quot (int (fh * 221)) 100))
    | AR_SQUARE_PICTURE => cdiv (int (i_width p * fh)) (i_height p)
    end = Done (width_of_height ar (i_width p) (i_height p) fh)
    /\ 0 <= width_of_height ar (i_width p) (i_height p) fh < 2 ^ 30).
  { intros ar. destruct ar; simpl.
    - rewrite cdiv_pos by lia.
      destruct (int_scale (i_width p * fh) (i_height p)) as [E B]; [nia | lia|].
      rewrite E. split; [reflexivity | nia].
    - destruct (int_scale (fh * 4) 3) as [E B]; [lia | lia|].
      rewrite E. split; [reflexivity | lia].
    - destruct (int_scale (fh * 16) 9) as [E B]; [lia | lia|].
      rewrite E. split; [reflexivity | lia].
    - destruct (int_scale (fh * 221) 100) as [E B]; [lia | lia|].
      rewrite E. split; [reflexivity | lia]. }
  split; [|split].
  - unfold picture_box, box_size.
    change (if b_scale v || (i_width p >? v_i_width v)
            then v_i_width v else i_width p) with fw.
    change (if b_scale v || (i_height p >? v_i_height v)
            then v_i_height v else i_height p) with fh.
    fold fw. fold fh.
    rewrite int_round16 by lia.
    destruct (Hh0 (i_aspect_ratio p)) as [E0 B0]. rewrite E0. simpl.
    destruct (height_of_width (i_aspect_ratio p) (i_width p) (i_height p) (round16 fw)
              >? v_i_height v) eqn:Hgt.
    + destruct (Hw1 (i_aspect_ratio p)) as [E1 B1]. rewrite E1. simpl.
      rewrite int_round16 by lia.
      destruct (round16_bounds
                  (width_of_height (i_aspect_ratio p) (i_width p) (i_height p) fh)
                  ltac:(lia)) as [Hr1 _].
      rewrite (int_small (v_i_width v - _)) by lia.
      rewrite (int_small (v_i_height v - _)) by lia.
      rewrite !int_small by (apply quot2_range; lia). reflexivity.
    + simpl.
      set (h0 := height_of_width _ _ _ _) in *.
      rewrite Z.gtb_ltb in Hgt. apply Z.ltb_ge in Hgt.
      rewrite (int_small (v_i_width v - _)) by lia.
      rewrite (int_small (v_i_height v - _)) by lia.
      rewrite !int_small by (apply quot2_range; lia). reflexivity.
  - unfold box_size. fold fw. fold fh.
    destruct (_ >? _); simpl; [|exact Hw0m].
    unfold round16. rewrite Z.mul_comm. apply Z.mod_mul. lia.
  - intros Hs. unfold fw, fh. rewrite Hs. auto.
Qed.

(** A 720x576 picture on a 640x480 display, scaling off. *)
Lemma picture_box_fit_witness :
  let v := VExamples.thread_with [] 640 480 false in
  let p := VExamples.slot READY_PICTURE YUV_420_PICTURE 720 576 0 0 1000 in
  picture_box v p
  = Done (Z.quot (v_i_width v - fst (box_size v p)) 2,
          Z.quot (v_i_height v - snd (box_size v p)) 2,
          fst (box_size v p), snd (box_size v p))
  /\ fst (box_size v p) mod 16 = 0
  /\ (b_scale v = false ->
      fit (b_scale v) (v_i_width v) (i_width p) = Z.min (v_i_width v) (i_width p)
      /\ fit (b_scale v) (v_i_height v) (i_height p)
         = Z.min (v_i_height v) (i_height p)).
Proof.
  apply (picture_box_fit (VExamples.thread_with [] 640 480 false)
           (VExamples.slot READY_PICTURE YUV_420_PICTURE 720 576 0 0 1000));
    simpl; lia.
Defined.

(** C7 as stated fails: with scaling enabled, a 320x240 picture on a
    640x480 display gets a box 640 wide, not [min(640, 320) = 320]. *)
Lemma picture_box_scaled :
  picture_box (VExamples.thread_with [] 640 480 true)
              (VExamples.slot READY_PICTURE YUV_420_PICTURE 320 240 0 0 1000)
  = Done (0, 0, 640, 480)
  /\ round16 (Z.min 640 320) = 320.
Proof. split; reflexivity. Qed.

End AspectScaling.

(** ** Dirty bands (C5) *)

Section DirtyBands.
Import VideoOutput.

Lemma arr_get_lookup (l : list Z) (i : Z) (x : Z) :
  0 <= i -> l !! Z.to_nat i = Some x -> arr_get l i = Done x.
Proof.
  intros Hi Hl. unfold arr_get. rewrite Hl.
  apply lookup_lt_Some in Hl.
  replace (0 <=? i) with true by (symmetry; apply Z.leb_le; lia).
  replace (i <? Z.of_nat (length l)) with true by (symmetry; apply Z.ltb_lt; lia).
  reflexivity.
Qed.

Lemma arr_set_insert (l : list Z) (i : Z) (x : Z) :
  0 <= i < Z.of_nat (length l) -> arr_set l i x = Done (<[Z.to_nat i := x]> l).
Proof.
  intros Hi. unfold arr_set.
  replace (0 <=? i) with true by (symmetry; apply Z.leb_le; lia).
  replace (i <? Z.of_nat (length l)) with true by (symmetry; apply Z.ltb_lt; lia).
  reflexivity.
Qed.

Lemma band_at (cfg : config) (b : vout_buffer_t) (j : nat) :
  bands_wf cfg b -> Z.of_nat j < i_areas b ->
  exists x y, pi_area_begin b !! j = Some x /\ pi_area_end b !! j = Some y
              /\ 0 <= x <= y /\ y < 2 ^ 30.
Proof.
  intros (HM & Hlb & Hle & Hn & Hband & Hsort) Hj.
  assert (Hjb : (j < length (pi_area_begin b))%nat) by lia.
  assert (Hje : (j < length (pi_area_end b))%nat) by lia.
  destruct (lookup_lt_is_Some_2 _ _ Hjb) as [x Hx].
  destruct (lookup_lt_is_Some_2 _ _ Hje) as [y Hy].
  exists x, y. split; [exact Hx|]. split; [exact Hy|]. eauto.
Qed.

(** The skip loop stops at the first band whose end is at or below... at
    the first band [i] with [end + 1 > i_y], or at [i_areas]. *)
Lemma skip_areas_spec (cfg : config) (b : vout_buffer_t) (y : Z) :
  bands_wf cfg b ->
  forall fuel c,
    0 <= c <= i_areas b -> (Z.to_nat (i_areas b - c) < fuel)%nat ->
    (forall (j : nat) e, Z.of_nat j < c -> pi_area_end b !! j = Some e -> e + 1 <= y) ->
    exists i,
      skip_areas fuel b y c = Done i /\ c <= i <= i_areas b
      /\ (forall (j : nat) e, Z.of_nat j < i -> pi_area_end b !! j = Some e -> e + 1 <= y)
      /\ (i < i_areas b ->
          exists e, pi_area_end b !! Z.to_nat i = Some e /\ y < e + 1).
Proof.
  intros Hwf. induction fuel as [|fuel IH]; intros c Hc Hfuel Hbefore; [lia|].
  simpl. destruct (c <? i_areas b) eqn:Hlt.
  - apply Z.ltb_lt in Hlt.
    destruct (band_at cfg b (Z.to_nat c) Hwf ltac:(lia)) as (x & e & Hx & He & Hxe & He30).
    rewrite (arr_get_lookup (pi_area_end b) c e) by (lia || exact He). simpl.
    rewrite (int_small (e + 1)) by lia.
    destruct (e + 1 <=? y) eqn:Hle.
    + apply Z.leb_le in Hle.
      destruct Hwf as (HM & _ & _ & Hn & _).
      rewrite (int_small (c + 1)) by lia.
      destruct (IH (c + 1)) as (i & Hi & Hci & Hbi & Hai); [lia | lia | |].
      * intros j e' Hj He'.
        destruct (Z.eq_dec (Z.of_nat j) c) as [Hjc|Hjc].
        -- rewrite <- Hjc, Nat2Z.id in He. congruence.
        -- apply (Hbefore j e'); [lia | exact He'].
      * exists i. repeat split; auto; lia.
    + apply Z.leb_gt in Hle. exists c. split; [reflexivity|].
      split; [lia|]. split; [exact Hbefore|]. intros _. exists e. split; [exact He | lia].
  - apply Z.ltb_ge in Hlt. exists c. split; [reflexivity|].
    split; [lia|]. split; [exact Hbefore|]. lia.
Qed.

Lemma find_merge_end_all (b : vout_buffer_t) (i h x : Z) :
  pi_area_begin b !! Z.to_nat i = Some x -> 0 <= i -> x <= h ->
  i_areas b < 2 ^ 30 ->
  forall fuel c,
    0 <= c <= i_areas b -> (Z.to_nat (i_areas b - c) < fuel)%nat ->
    find_merge_end fuel b i h c = Done (i_areas b).
Proof.
  intros Hx Hi Hxh Hn. induction fuel as [|fuel IH]; intros c Hc Hfuel; [lia|].
  simpl. destruct (c <? i_areas b) eqn:Hlt.
  - apply Z.ltb_lt in Hlt.
    rewrite (arr_get_lookup (pi_area_begin b) i x) by (lia || exact Hx). simpl.
    replace (x <=? h) with true by (symmetry; apply Z.leb_le; lia).
    rewrite (int_small (c + 1)) by lia. apply IH; lia.
  - apply Z.ltb_ge in Hlt. f_equal. lia.
Qed.





Ltac zbool :=
  repeat match goal with
         | |- context [?x <=? ?y] => destruct (Z.leb_spec x y)
         | |- context [?x <? ?y] => destruct (Z.ltb_spec x y)
         end;
  simpl; try reflexivity; try lia.

(** [k] stores of a [u64] zero the [8 * k] bytes from [p] on. *)
Lemma clear_words_spec (k : nat) :
  forall (m : Z -> Z) (p : Z),
    snd (clear_words k m p) = p + sizeof_u64 * Z.of_nat k
    /\ forall a, fst (clear_words k m p) a =
         if (p <=? a) && (a <? p + sizeof_u64 * Z.of_nat k) then 0 else m a.
Proof.
  unfold sizeof_u64.
  induction k as [|k IH]; intros m p; simpl clear_words.
  - split; [simpl; lia|]. intros a. simpl fst. zbool.
  - destruct (IH (store_u64 m p) (p + sizeof_u64)) as [Hp Hm].
    unfold sizeof_u64 in *. split; [rewrite Hp; lia|].
    intros a. rewrite Hm. unfold store_u64, sizeof_u64. zbool.
Qed.

(** [n] blocks zero the [256 * n] bytes from [p] on. *)
Lemma clear_blocks_spec (n : nat) :
  forall (m : Z -> Z) (p : Z),
    snd (clear_blocks n m p) = p + 256 * Z.of_nat n
    /\ forall a, fst (clear_blocks n m p) a =
         if (p <=? a) && (a <? p + 256 * Z.of_nat n) then 0 else m a.
Proof.
  induction n as [|n IH]; intros m p.
  - simpl clear_blocks. split; [simpl; lia|]. intros a. simpl fst. zbool.
  - change (clear_blocks (S n) m p)
      with (let '(m', p') := clear_words 32 m p in clear_blocks n m' p').
    destruct (clear_words_spec 32 m p) as [Hp Hm].
    destruct (clear_words 32 m p) as [m' p'] eqn:Hw.
    cbn [fst snd] in Hp, Hm.
    destruct (IH m' p') as [Hp' Hm'].
    unfold sizeof_u64 in *. split; [rewrite Hp'; lia|].
    intros a. rewrite Hm', Hm. subst p'. zbool.
Qed.




(** Outside the picture region SetBufferArea is the band insertion. *)
Lemma SetBufferArea_outside (cfg : config) (fuel : nat) (b : vout_buffer_t)
    (x y w h : Z) :
  (0 < fuel)%nat ->
  meets_picture b x y w (int (h + int (y - 1))) = false ->
  SetBufferArea cfg fuel b x y w h
  = SetBufferArea_bands cfg fuel b y (int (h + int (y - 1))).
Proof.
  intros Hfuel Hout. destruct fuel as [|fuel]; [lia|].
  cbn [SetBufferArea]. rewrite Hout. reflexivity.
Qed.

Lemma one_band_buffer_wf : bands_wf VExamples.vout_config VExamples.one_band_buffer.
Proof.
  unfold bands_wf. simpl.
  split; [lia|]. split; [reflexivity|]. split; [reflexivity|]. split; [lia|].
  split.
  - intros [|j] x y Hj Hx Hy; [|lia]. simpl in Hx, Hy. simplify_eq. lia.
  - intros j [|k] y x Hjk Hk; lia.
Qed.

Lemma one_band_buffer_rows : rows_below VExamples.one_band_buffer 16.
Proof.
  intros [|j] e Hj He; simpl in Hj; [|lia]. simpl in He. simplify_eq. lia.
Qed.
























End DirtyBands.

(** ** Picture status and reference count *)

Section PictureStatus.
Import VideoOutput.

(** X1. vout_DatePicture and vout_DisplayPicture commute on every slot,
    and a reserved slot that went through both, in either order, is ready
    and carries the date. *)
Theorem vout_DatePicture_DisplayPicture_commute (p : picture_t) (d : Z) :
  vout_DisplayPicture (vout_DatePicture p d)
  = vout_DatePicture (vout_DisplayPicture p) d
  /\ vout_DisplayPicture (vout_DatePicture (set_status RESERVED_PICTURE p) d)
     = set_status READY_PICTURE (set_date d p).
Proof.
  destruct p as [t s m w h cw ho vo dw dh ar rc dt pd py pu pv].
  split; [destruct s; reflexivity | reflexivity].
Qed.

(** X2. vout_UnlinkPicture undoes vout_LinkPicture: the slot is as it
    was, unless it was a displayed slot with no reference. *)
Theorem vout_UnlinkPicture_LinkPicture (cfg : config) (p : picture_t) :
  0 <= i_refcount p < INT_MAX ->
  (i_refcount p = 0 -> i_status p <> DISPLAYED_PICTURE) ->
  vout_UnlinkPicture cfg (vout_LinkPicture p) = p.
Proof.
  unfold INT_MAX. intros Hr Hs.
  destruct p as [t s m w h cw ho vo dw dh ar rc dt pd py pu pv].
  simpl in *. unfold vout_UnlinkPicture, vout_LinkPicture. simpl.
  rewrite (int_small (rc + 1)) by lia.
  replace (rc + 1 - 1) with rc by lia. rewrite (int_small rc) by lia.
  replace (rc <? 0) with false by (symmetry; apply Z.ltb_ge; lia).
  rewrite andb_false_r. simpl.
  destruct (rc =? 0) eqn:Hz; simpl; [|reflexivity].
  apply Z.eqb_eq in Hz. rewrite bool_decide_eq_false_2 by auto. reflexivity.
Qed.

Lemma vout_UnlinkPicture_LinkPicture_witness :
  vout_UnlinkPicture VExamples.vout_config
    (vout_LinkPicture (VExamples.slot READY_PICTURE YUV_420_PICTURE 16 16 1 0 1000))
  = VExamples.slot READY_PICTURE YUV_420_PICTURE 16 16 1 0 1000.
Proof.
  apply (vout_UnlinkPicture_LinkPicture VExamples.vout_config
           (VExamples.slot READY_PICTURE YUV_420_PICTURE 16 16 1 0 1000)).
  - simpl. unfold INT_MAX. lia.
  - simpl. discriminate.
Defined.

End PictureStatus.

(** ** Change flags *)

Section ManageChanges.
Import VideoOutput.

(** X3. Manage leaves none of the five change flags it handles set, and
    it reports an error exactly when a flag outside them was set; the
    tables are reset exactly on a gamma or grayscale change. *)
Theorem Manage_acknowledges (cfg : config) (v : vout_thread_t) :
  let mask :=
    Z.lor (VOUT_GAMMA_CHANGE cfg)
      (Z.lor (VOUT_GRAYSCALE_CHANGE cfg)
         (Z.lor (VOUT_INFO_CHANGE cfg)
            (Z.lor (VOUT_INTF_CHANGE cfg) (VOUT_SCALE_CHANGE cfg)))) in
  Z.land (Manage cfg v).1.1 mask = 0
  /\ ((Manage cfg v).1.2 = true <-> Z.land (i_changes v) (Z.lnot mask) <> 0)
  /\ (In EvResetTables (Manage cfg v).2 <->
      Z.land (i_changes v)
             (Z.lor (VOUT_GAMMA_CHANGE cfg) (VOUT_GRAYSCALE_CHANGE cfg)) <> 0)
  /\ (In EvErrMsg (Manage cfg v).2 <-> (Manage cfg v).1.2 = true).
Proof.
  intros mask. unfold Manage. fold mask.
  set (chg := Z.land (i_changes v) (Z.lnot mask)).
  assert (Hclear : Z.land chg mask = 0).
  { unfold chg. rewrite <- Z.land_assoc.
    rewrite (Z.land_comm (Z.lnot mask)), Z.land_lnot_diag. apply Z.land_0_r. }
  destruct (Z.land (i_changes v)
              (Z.lor (VOUT_GAMMA_CHANGE cfg) (VOUT_GRAYSCALE_CHANGE cfg)) =? 0) eqn:Hg;
    destruct (chg =? 0) eqn:Hc; simpl;
    (apply Z.eqb_eq in Hg || apply Z.eqb_neq in Hg);
    (apply Z.eqb_eq in Hc || apply Z.eqb_neq in Hc);
    (split; [exact Hclear|]);
    repeat split; try tauto; try congruence; try discriminate;
    intros; try (exfalso; tauto); try congruence; auto;
    repeat match goal with
           | H : _ \/ _ |- _ => destruct H
           | H : False |- _ => destruct H
           end; try discriminate; try congruence; try tauto.
Qed.

End ManageChanges.

(** ** Iterations of the output thread *)

Section Iterations.
Import VideoOutput.

Lemma find_picture_no_ready (l : list picture_t) :
  (forall j q, l !! j = Some q -> i_status q <> READY_PICTURE) ->
  find_picture l 0 None 0 = (None, 0).
Proof.
  intros Hno. destruct (find_picture l 0 None 0) as [r d] eqn:Hf.
  apply find_picture_acc in Hf
    as [(-> & -> & _)|(j & p & _ & Hp & Hs & _)]; [reflexivity|].
  exfalso. apply (Hno j p Hp Hs).
Qed.

Lemma after_sample_fields (cfg : config) (v : vout_thread_t) (D : Z) :
  p_picture (after_sample cfg v D) = p_picture v
  /\ p_buffer (after_sample cfg v D) = p_buffer v
  /\ i_buffer_index (after_sample cfg v D) = i_buffer_index v
  /\ b_active (after_sample cfg v D) = b_active v
  /\ i_changes (after_sample cfg v D) = i_changes v
  /\ last_picture_date (after_sample cfg v D) = last_picture_date v.
Proof. unfold after_sample. destruct (STATS cfg); simpl; auto 10. Qed.

(** X4. With no ready picture in the heap, an iteration takes no STATS
    sample, renders and displays nothing, leaves the heap, the back
    buffers and the buffer index as they were, and sleeps the idle time. *)
Theorem RunThread_no_ready_picture (cfg : config) (env : collaborators)
    (fuel : nat) (now rd : Z) (v : vout_thread_t) :
  (forall j q, p_picture v !! j = Some q -> i_status q <> READY_PICTURE) ->
  exists v' ev,
    RunThread_iteration cfg env fuel now rd v = Done (v', ev)
    /\ p_picture v' = p_picture v /\ p_buffer v' = p_buffer v
    /\ i_buffer_index v' = i_buffer_index v
    /\ last_picture_date v' = last_picture_date v
    /\ c_fps_samples v' = c_fps_samples v
    /\ p_fps_sample v' = p_fps_sample v
    /\ existsb is_render ev = false
    /\ In EvMsleepIdle ev.
Proof.
  intros Hno. apply find_picture_no_ready in Hno.
  unfold RunThread_iteration, RunThread_select. rewrite Hno. simpl.
  destruct (vout_SysManage env _) as [chg r1] eqn:Hm.
  unfold Manage. simpl.
  repeat match goal with
         | |- context [if ?c then _ else _] => destruct c; simpl
         end;
    eexists _, _; (split; [reflexivity|]); simpl; auto 12.
Qed.

Lemma RunThread_no_ready_picture_witness :
  exists v' ev,
    RunThread_iteration VExamples.vout_config VExamples.quiet_vout_env 0 10000 10000
                        VExamples.dropped_thread = Done (v', ev)
    /\ p_picture v' = p_picture VExamples.dropped_thread
    /\ p_buffer v' = p_buffer VExamples.dropped_thread
    /\ i_buffer_index v' = i_buffer_index VExamples.dropped_thread
    /\ last_picture_date v' = last_picture_date VExamples.dropped_thread
    /\ c_fps_samples v' = c_fps_samples VExamples.dropped_thread
    /\ p_fps_sample v' = p_fps_sample VExamples.dropped_thread
    /\ existsb is_render ev = false
    /\ In EvMsleepIdle ev.
Proof.
  apply (RunThread_no_ready_picture VExamples.vout_config VExamples.quiet_vout_env
           0 10000 10000 VExamples.dropped_thread).
  intros [|[|j]] q Hq; simpl in Hq; try discriminate.
  injection Hq as <-. simpl. discriminate.
Defined.

(** X5. A thread that is not active still takes the picture that is due
    off the heap (displayed with references, destroyed without), but it
    makes no render or display call and leaves the back buffers and the
    buffer index as they were. *)
Theorem RunThread_inactive_in_window (cfg : config) (env : collaborators)
    (fuel : nat) (now rd : Z) (v : vout_thread_t) (i : nat) (D : Z) :
  find_picture (p_picture v) 0 None 0 = (Some i, D) ->
  stats_ok cfg v ->
  now <= D <= int64 (now + VOUT_DISPLAY_DELAY cfg) ->
  b_active v = false ->
  exists v' ev,
    RunThread_iteration cfg env fuel now rd v = Done (v', ev)
    /\ p_picture v' = alter remove_from_heap i (p_picture v)
    /\ p_buffer v' = p_buffer v
    /\ i_buffer_index v' = i_buffer_index v
    /\ existsb is_render ev = false.
Proof.
  intros Hf Hok HD Hact.
  destruct (find_picture_min _ _ _ Hf) as (P & HP & _).
  destruct (after_sample_fields cfg v D) as (Hh & Hb & Hi & Ha & _).
  unfold RunThread_iteration.
  rewrite (RunThread_select_found cfg now v i D Hf Hok).
  replace (D <? now) with false by (symmetry; apply Z.ltb_ge; lia).
  replace (D >? int64 (now + VOUT_DISPLAY_DELAY cfg)) with false
    by (symmetry; rewrite Z.gtb_ltb; apply Z.ltb_ge; lia).
  simpl. unfold RunThread_render. rewrite Hh, HP, Ha, Hact. simpl.
  destruct (vout_SysManage env _) as [chg r1] eqn:Hm.
  unfold Manage. simpl.
  repeat match goal with
         | |- context [if ?c then _ else _] => destruct c; simpl
         end;
    eexists _, _; (split; [reflexivity|]); simpl; rewrite ?Hh, ?Hb, ?Hi; auto 12.
Qed.

Lemma RunThread_inactive_in_window_witness :
  exists v' ev,
    RunThread_iteration VExamples.vout_config VExamples.quiet_vout_env 0 10000 10000
                        VExamples.inactive_thread = Done (v', ev)
    /\ p_picture v'
       = alter remove_from_heap 0%nat (p_picture VExamples.inactive_thread)
    /\ p_buffer v' = p_buffer VExamples.inactive_thread
    /\ i_buffer_index v' = i_buffer_index VExamples.inactive_thread
    /\ existsb is_render ev = false.
Proof.
  apply (RunThread_inactive_in_window VExamples.vout_config VExamples.quiet_vout_env
           0 10000 10000 VExamples.inactive_thread 0%nat 20000).
  - reflexivity.
  - left. reflexivity.
  - split; [lia | vm_compute; discriminate].
  - reflexivity.
Defined.

Lemma SetBufferPicture_index (cfg : config) (fuel : nat) (v v' : vout_thread_t)
    (p_pic : option picture_t) :
  SetBufferPicture cfg fuel v p_pic = Done v' ->
  i_buffer_index v' = i_buffer_index v /\ i_changes v' = i_changes v.
Proof.
  unfold SetBufferPicture. intros H.
  apply obind_Done in H as (b & _ & H).
  apply obind_Done in H as ([[[x y] w] h] & _ & H).
  apply obind_Done in H as (b1 & _ & H).
  apply obind_Done in H as (b2 & _ & H).
  injection H as <-. auto.
Qed.

Lemma RenderPicture_index (env : collaborators) (v v' : vout_thread_t)
    (p_pic : picture_t) :
  RenderPicture env v p_pic = Done v' ->
  i_buffer_index v' = i_buffer_index v /\ i_changes v' = i_changes v.
Proof.
  unfold RenderPicture. intros H.
  apply obind_Done in H as (b & _ & H).
  apply obind_Done in H as (q & _ & H).
  apply obind_Done in H as (sc & _ & H).
  apply obind_Done in H as (hh & _ & H).
  destruct (i_type p_pic); injection H as <-; auto.
Qed.

Lemma RunThread_select_index (cfg : config) (current_date : Z)
    (v v1 : vout_thread_t) (p_pic : option nat) (display_date : Z) :
  RunThread_select cfg current_date v = Done (v1, p_pic, display_date) ->
  i_buffer_index v1 = i_buffer_index v.
Proof.
  unfold RunThread_select.
  destruct (find_picture (p_picture v) 0 None 0) as [[i|] d].
  - intros H. apply obind_Done in H as (v0 & Hv0 & H).
    assert (Hp : i_buffer_index v0 = i_buffer_index v).
    { destruct (STATS cfg).
      - apply obind_Done in Hv0 as (q & _ & Hv0).
        apply obind_Done in Hv0 as (s & _ & Hv0).
        injection Hv0 as <-. reflexivity.
      - injection Hv0 as <-. reflexivity. }
    destruct (d <? current_date).
    + injection H as <- <- <-. exact Hp.
    + destruct (d >? int64 (current_date + VOUT_DISPLAY_DELAY cfg));
        injection H as <- <- <-; exact Hp.
  - intros [= <- <- <-]. reflexivity.
Qed.

Lemma RunThread_render_index (cfg : config) (env : collaborators) (fuel : nat)
    (v v' : vout_thread_t) (p_pic : option nat) (b_display : bool)
    (ev : list event) :
  RunThread_render cfg env fuel v p_pic = Done (v', b_display, ev) ->
  i_buffer_index v' = i_buffer_index v.
Proof.
  unfold RunThread_render. destruct p_pic as [i|].
  - destruct (p_picture v !! i) as [pic|]; [|discriminate].
    intros H. apply obind_Done in H as ([v1 ev1] & H1 & H).
    apply obind_Done in H as ([v3 ev2] & H2 & H).
    injection H as <- <- <-.
    assert (Hp1 : i_buffer_index v1 = i_buffer_index v).
    { destruct (b_active v).
      - apply obind_Done in H1 as (va & Ha & H1).
        apply obind_Done in H1 as (vb & Hb & H1).
        apply obind_Done in H1 as ([vc evc] & Hc & H1).
        injection H1 as <- <-.
        apply SetBufferPicture_index in Ha as [Ha _].
        apply RenderPicture_index in Hb as [Hb _].
        destruct (b_info vb).
        + apply obind_Done in Hc as (b1 & _ & Hc).
          apply obind_Done in Hc as (b2 & _ & Hc).
          injection Hc as <- <-. simpl. congruence.
        + injection Hc as <- <-. congruence.
      - injection H1 as <- <-. reflexivity. }
    destruct (b_active v && b_interface _).
    + apply obind_Done in H2 as (b3 & _ & H2).
      injection H2 as <- <-. simpl. exact Hp1.
    + injection H2 as <- <-. simpl. exact Hp1.
  - intros [= <- <- <-]. reflexivity.
Qed.

(** X6. An iteration either leaves the buffer index as it was, or it
    called vout_SysDisplay and swapped the two back buffers: the index is
    the old one plus one, modulo 2. *)
Theorem RunThread_iteration_swaps (cfg : config) (env : collaborators)
    (fuel : nat) (now rd : Z) (v v' : vout_thread_t) (ev : list event) :
  RunThread_iteration cfg env fuel now rd v = Done (v', ev) ->
  i_buffer_index v' = i_buffer_index v
  \/ (In EvSysDisplay ev
      /\ i_buffer_index v' = Z.land (int (i_buffer_index v + 1)) 1
      /\ 0 <= i_buffer_index v' <= 1).
Proof.
  unfold RunThread_iteration. intros H.
  apply obind_Done in H as ([[v1 p_pic] d] & Hsel & H).
  apply obind_Done in H as ([[v2 b_display] evr] & Hren & H).
  apply RunThread_select_index in Hsel.
  apply RunThread_render_index in Hren.
  assert (Hbit : forall z, 0 <= Z.land z 1 <= 1).
  { intros z. pose proof (Z.land_ones z 1 ltac:(lia)) as E.
    change (Z.ones 1) with 1 in E. change (2 ^ 1) with 2 in E. rewrite E.
    pose proof (Z.mod_pos_bound z 2). lia. }
  destruct (b_display && _); destruct (vout_SysManage env _) as [chg r1];
    destruct (Manage cfg _) as [[chg' r2] evm];
    injection H as <- <-; destruct (STATS cfg); simpl in *;
    first [ left; congruence
          | right; split;
            [ rewrite !in_app_iff; simpl; auto 10
            | split; [congruence | apply Hbit] ] ].
Qed.

Lemma RunThread_iteration_swaps_witness :
  i_buffer_index VExamples.dropped_thread = i_buffer_index VExamples.late_thread
  \/ (In EvSysDisplay [EvMsleepIdle; EvSysManage]
      /\ i_buffer_index VExamples.dropped_thread
         = Z.land (int (i_buffer_index VExamples.late_thread + 1)) 1
      /\ 0 <= i_buffer_index VExamples.dropped_thread <= 1).
Proof.
  apply (RunThread_iteration_swaps VExamples.vout_config VExamples.quiet_vout_env
           0 10000 10000 VExamples.late_thread VExamples.dropped_thread
           [EvMsleepIdle; EvSysManage]).
  reflexivity.
Defined.

End Iterations.

(** ** Bands: whole screen, picture region and the ends of the arrays *)

Section Bands.
Import VideoOutput.

(** X7. vout_ClearBuffer on any buffer whose band arrays have
    VOUT_MAX_AREAS entries, whatever they and the band count hold: it
    leaves no picture region and one band, which covers exactly the rows
    of the screen; the list is sorted and in range afterwards. *)
Theorem vout_ClearBuffer_whole_screen (cfg : config) (v : vout_thread_t)
    (b : vout_buffer_t) :
  1 <= VOUT_MAX_AREAS cfg < 2 ^ 30 ->
  Z.of_nat (length (pi_area_begin b)) = VOUT_MAX_AREAS cfg ->
  Z.of_nat (length (pi_area_end b)) = VOUT_MAX_AREAS cfg ->
  1 <= v_i_height v <= 2 ^ 30 ->
  exists b',
    vout_ClearBuffer v b = Done b' /\ bands_wf cfg b'
    /\ i_areas b' = 1
    /\ (forall row, covered b' row <-> 0 <= row < v_i_height v)
    /\ i_pic_x b' = 0 /\ i_pic_y b' = 0
    /\ i_pic_width b' = 0 /\ i_pic_height b' = 0
    /\ buf_data b' = buf_data b.
Proof.
  intros HM Hlb Hle Hh. unfold vout_ClearBuffer. simpl.
  rewrite arr_set_insert by lia. simpl.
  rewrite arr_set_insert by lia. simpl.
  rewrite (int_small (v_i_height v - 1)) by lia.
  eexists. split; [reflexivity|]. split; [|split; [reflexivity|split]].
  - unfold bands_wf. simpl. rewrite !length_insert.
    split; [exact HM|]. split; [exact Hlb|]. split; [exact Hle|].
    split; [lia|]. split.
    + intros [|j] x y Hj Hx Hy; [|lia].
      rewrite list_lookup_insert_eq in Hx by lia.
      rewrite list_lookup_insert_eq in Hy by lia.
      simplify_eq. lia.
    + intros j [|k] y x Hjk Hk; lia.
  - intros row. split.
    + intros ([|j] & x & y & Hj & Hx & Hy & Hr); simpl in Hj; [|lia].
      simpl in Hx, Hy.
      rewrite list_lookup_insert_eq in Hx by lia.
      rewrite list_lookup_insert_eq in Hy by lia.
      simplify_eq. lia.
    + intros Hr. exists 0%nat, 0, (v_i_height v - 1). simpl.
      rewrite !list_lookup_insert_eq by lia. repeat split; lia.
  - repeat split.
Qed.

Lemma vout_ClearBuffer_whole_screen_witness :
  exists b',
    vout_ClearBuffer VExamples.late_thread VExamples.one_band_buffer = Done b'
    /\ bands_wf VExamples.vout_config b'
    /\ i_areas b' = 1
    /\ (forall row, covered b' row <-> 0 <= row < v_i_height VExamples.late_thread)
    /\ i_pic_x b' = 0 /\ i_pic_y b' = 0
    /\ i_pic_width b' = 0 /\ i_pic_height b' = 0
    /\ buf_data b' = buf_data VExamples.one_band_buffer.
Proof.
  apply (vout_ClearBuffer_whole_screen VExamples.vout_config VExamples.late_thread
           VExamples.one_band_buffer).
  - simpl. lia.
  - reflexivity.
  - reflexivity.
  - simpl. lia.
Defined.

(** The copy loop of the new-band-above path counts upward: it leaves
    the arrays at their end. *)
Lemma move_areas_down_overrun (L : Z) :
  L < 2 ^ 30 ->
  forall fuel b i c,
    Z.of_nat (length (pi_area_begin b)) = L ->
    Z.of_nat (length (pi_area_end b)) = L ->
    0 <= i < c -> c <= L -> (Z.to_nat (L - c) < fuel)%nat ->
    move_areas_down fuel b i c = Fault.
Proof.
  intros HL. induction fuel as [|fuel IH]; intros b i c Hlb Hle Hi Hc Hfuel; [lia|].
  simpl. replace (c >? i) with true by (symmetry; apply Z.gtb_lt; lia).
  rewrite (int_small (c - 1)) by lia.
  destruct (lookup_lt_is_Some_2 (pi_area_begin b) (Z.to_nat (c - 1)) ltac:(lia))
    as [x Hx].
  destruct (lookup_lt_is_Some_2 (pi_area_end b) (Z.to_nat (c - 1)) ltac:(lia))
    as [y Hy].
  rewrite (arr_get_lookup (pi_area_begin b) (c - 1) x) by (lia || exact Hx).
  simpl obind.
  destruct (Z.eq_dec c L) as [->|Hne].
  - unfold arr_set at 1.
    replace (L <? Z.of_nat (length (pi_area_begin b))) with false
      by (symmetry; apply Z.ltb_ge; lia).
    rewrite andb_false_r. reflexivity.
  - rewrite arr_set_insert by lia. simpl obind.
    rewrite (arr_get_lookup (pi_area_end b) (c - 1) y) by (lia || exact Hy).
    simpl obind. rewrite arr_set_insert by lia. simpl obind.
    rewrite (int_small (c + 1)) by lia.
    apply IH; simpl; rewrite ?length_insert; lia.
Qed.

(** X8. A mark that has to open a new band above an existing one, while
    the array has room, never returns normally: the loop that moves the
    bands down counts its index upward, past the last entry of the
    arrays. *)
Theorem SetBufferArea_new_band_above_overruns (cfg : config) (fuel : nat)
    (b : vout_buffer_t) (x y w h : Z) :
  bands_wf cfg b -> i_areas b < VOUT_MAX_AREAS cfg ->
  0 <= y -> 1 <= h -> y + h - 1 < 2 ^ 30 ->
  meets_picture b x y w (y + h - 1) = false ->
  in_gap_above b y (y + h - 1) ->
  (Z.to_nat (VOUT_MAX_AREAS cfg) < fuel)%nat ->
  SetBufferArea cfg fuel b x y w h = Fault.
Proof.
  intros Hwf Hroom Hy Hh Hh30 Hout (k & xk & Hk & Hxk & Hgap & Hprev) Hfuel.
  pose proof Hwf as (HM & Hlb & Hle & Hn & Hband & Hsort).
  assert (Hend : int (h + int (y - 1)) = y + h - 1).
  { rewrite (int_small (y - 1)) by lia. rewrite int_small by lia. lia. }
  rewrite SetBufferArea_outside by (rewrite ?Hend; auto; lia).
  rewrite Hend. unfold SetBufferArea_bands.
  destruct (skip_areas_spec cfg b y Hwf fuel 0) as (i & Hskip & Hi & Hbefore & Hat);
    [lia | lia | intros; lia |].
  rewrite Hskip. simpl obind.
  destruct (band_at cfg b k Hwf Hk) as (xk' & ek & Hxk' & Hek & Hxek & Hek30).
  assert (xk' = xk) by congruence. subst xk'.
  assert (Hik : i = Z.of_nat k).
  { destruct (Z.lt_trichotomy i (Z.of_nat k)) as [Hlt|[Heq|Hgt]]; [|exact Heq|].
    - destruct Hat as (e & He & Hye); [lia|].
      assert (e < y); [|lia].
      apply (Hprev (Z.to_nat i) e); [lia | exact He].
    - assert (ek + 1 <= y) by (apply (Hbefore k ek); auto; lia). lia. }
  subst i.
  replace (Z.of_nat k =? i_areas b) with false by (symmetry; apply Z.eqb_neq; lia).
  rewrite (arr_get_lookup (pi_area_begin b) (Z.of_nat k) xk)
    by (lia || (rewrite Nat2Z.id; exact Hxk)).
  simpl obind.
  rewrite (arr_get_lookup (pi_area_end b) (Z.of_nat k) ek)
    by (lia || (rewrite Nat2Z.id; exact Hek)).
  simpl obind.
  replace (y <? xk) with true by (symmetry; apply Z.ltb_lt; lia).
  rewrite (int_small (xk - 1)) by lia.
  replace (y + h - 1 >=? xk - 1) with false
    by (symmetry; rewrite Z.geb_leb; apply Z.leb_gt; lia).
  unfold SetBufferArea_above.
  replace (i_areas b =? VOUT_MAX_AREAS cfg) with false
    by (symmetry; apply Z.eqb_neq; lia).
  simpl obind. rewrite (int_small (i_areas b + 1)) by lia.
  replace (i_areas b + 1 - 1) with (i_areas b) by lia.
  rewrite (int_small (i_areas b)) by lia.
  rewrite (move_areas_down_overrun (VOUT_MAX_AREAS cfg)); simpl; auto; lia.
Qed.

Lemma low_band_buffer_wf : bands_wf VExamples.vout_config VExamples.low_band_buffer.
Proof.
  unfold bands_wf. simpl.
  split; [lia|]. split; [reflexivity|]. split; [reflexivity|]. split; [lia|].
  split.
  - intros [|j] x y Hj Hx Hy; [|lia]. simpl in Hx, Hy. simplify_eq. lia.
  - intros j [|k] y x Hjk Hk; lia.
Qed.

Lemma SetBufferArea_new_band_above_overruns_witness :
  SetBufferArea VExamples.vout_config 6 VExamples.low_band_buffer 0 0 10 5 = Fault.
Proof.
  apply (SetBufferArea_new_band_above_overruns VExamples.vout_config 6
           VExamples.low_band_buffer 0 0 10 5).
  - exact low_band_buffer_wf.
  - simpl. lia.
  - lia.
  - lia.
  - lia.
  - reflexivity.
  - exists 0%nat, 10. simpl. split; [lia|]. split; [reflexivity|].
    split; [lia|]. intros j e Hj. lia.
  - simpl. lia.
Defined.

(** X9. A mark whose columns lie inside the picture's and whose first
    row lies in the picture region changes nothing, however far below the
    picture it reaches: the stripe below is handed on from the last row of
    the picture, and so it is cut again and again until nothing is left. *)
Theorem SetBufferArea_from_picture_row_ignored (cfg : config) (b : vout_buffer_t)
    (x w : Z) :
  (x >=? i_pic_x b) && (int (x + w) <=? int (i_pic_x b + i_pic_width b)) = true ->
  0 <= i_pic_y b -> 1 <= i_pic_height b -> i_pic_y b + i_pic_height b <= 2 ^ 30 ->
  forall (fuel : nat) (y h : Z),
    i_pic_y b <= y <= i_pic_y b + i_pic_height b - 1 ->
    1 <= h -> y + h <= 2 ^ 30 -> (Z.to_nat h < fuel)%nat ->
    SetBufferArea cfg fuel b x y w h = Done b.
Proof.
  intros Hcols Hpy Hph Hp30.
  assert (Hpe : int (int (i_pic_y b + i_pic_height b) - 1)
                = i_pic_y b + i_pic_height b - 1).
  { rewrite (int_small (i_pic_y b + i_pic_height b)) by lia.
    rewrite int_small by lia. reflexivity. }
  induction fuel as [|fuel IH]; intros y h Hy Hh Hh30 Hfuel; [lia|].
  cbn [SetBufferArea].
  assert (Hend : int (h + int (y - 1)) = y + h - 1).
  { rewrite (int_small (y - 1)) by lia. rewrite int_small by lia. lia. }
  rewrite Hend. unfold meets_picture. rewrite Hcols, Hpe.
  replace (y >=? i_pic_y b) with true
    by (symmetry; rewrite Z.geb_leb; apply Z.leb_le; lia).
  replace (y <=? i_pic_y b + i_pic_height b - 1) with true
    by (symmetry; apply Z.leb_le; lia).
  simpl.
  replace (y <? i_pic_y b) with false by (symmetry; apply Z.ltb_ge; lia).
  simpl.
  destruct (y + h - 1 >? i_pic_y b + i_pic_height b - 1) eqn:Hbelow;
    [|reflexivity].
  apply Z.gtb_lt in Hbelow.
  rewrite (int_small (y + h - 1 - (i_pic_y b + i_pic_height b - 1))) by lia.
  apply IH; lia.
Qed.

Lemma SetBufferArea_from_picture_row_ignored_witness :
  SetBufferArea VExamples.vout_config 41 VExamples.picture_buffer 0 15 64 40
  = Done VExamples.picture_buffer.
Proof.
  apply (SetBufferArea_from_picture_row_ignored VExamples.vout_config
           VExamples.picture_buffer 0 64).
  - reflexivity.
  - simpl. lia.
  - simpl. lia.
  - simpl. lia.
  - simpl. lia.
  - lia.
  - lia.
  - simpl. lia.
Defined.

Lemma three_band_buffer_wf :
  bands_wf VExamples.vout_config VExamples.three_band_buffer.
Proof.
  unfold bands_wf. simpl.
  split; [lia|]. split; [reflexivity|]. split; [reflexivity|]. split; [lia|].
  split.
  - intros [|[|[|j]]] x y Hj Hx Hy; try lia; simpl in Hx, Hy; simplify_eq; lia.
  - intros [|[|[|j]]] [|[|[|k]]] y x Hjk Hk Hy Hx; try lia;
      simpl in Hx, Hy; simplify_eq; lia.
Qed.

(** X10. A mark that starts in band [i] and ends below it, when band [i]
    is not the last one, leaves [i + 1] bands: band [i] is made to end at
    the end of the last band (or of the mark, if that is lower), and every
    band after it is gone, whether the mark reached it or not. *)
Theorem SetBufferArea_merge_absorbs (cfg : config) (fuel : nat) (b : vout_buffer_t)
    (x y w h i x0 ei el : Z) :
  bands_wf cfg b -> 0 <= i < i_areas b - 1 ->
  pi_area_begin b !! Z.to_nat i = Some x0 ->
  pi_area_end b !! Z.to_nat i = Some ei ->
  pi_area_end b !! Z.to_nat (i_areas b - 1) = Some el ->
  x0 <= y <= ei -> 1 <= h -> ei < y + h - 1 < 2 ^ 30 ->
  meets_picture b x y w (y + h - 1) = false ->
  (Z.to_nat (VOUT_MAX_AREAS cfg) < fuel)%nat ->
  SetBufferArea cfg fuel b x y w h
  = Done (set_areas (i + 1) (pi_area_begin b)
            (<[Z.to_nat i := Z.max (y + h - 1) el]> (pi_area_end b)) b).
Proof.
  intros Hwf Hi Hx0 Hei Hel Hy Hh HH Hout Hfuel.
  pose proof Hwf as (HM & Hlb & Hle & Hn & Hband & Hsort).
  assert (Hi0 : 0 <= x0 <= ei /\ ei < 2 ^ 30)
    by (apply (Hband (Z.to_nat i)); auto; lia).
  assert (Hend : int (h + int (y - 1)) = y + h - 1).
  { rewrite (int_small (y - 1)) by lia. rewrite int_small by lia. lia. }
  rewrite SetBufferArea_outside by (rewrite ?Hend; auto; lia).
  rewrite Hend. unfold SetBufferArea_bands.
  destruct (skip_areas_spec cfg b y Hwf fuel 0) as (i' & Hskip & Hi' & Hbefore & Hat);
    [lia | lia | intros; lia |].
  assert (i' = i).
  { destruct (Z.lt_trichotomy i' i) as [Hlt|[Heq|Hgt]]; [|exact Heq|].
    - destruct Hat as (e & He & Hye); [lia|].
      assert (e < x0); [|lia].
      apply (Hsort (Z.to_nat i') (Z.to_nat i) e x0); auto; lia.
    - assert (ei + 1 <= y); [|lia].
      apply (Hbefore (Z.to_nat i) ei); auto; lia. }
  subst i'. rewrite Hskip. simpl obind.
  replace (i =? i_areas b) with false by (symmetry; apply Z.eqb_neq; lia).
  rewrite (arr_get_lookup (pi_area_begin b) i x0) by (lia || exact Hx0).
  simpl obind.
  rewrite (arr_get_lookup (pi_area_end b) i ei) by (lia || exact Hei).
  simpl obind.
  replace (y <? x0) with false by (symmetry; apply Z.ltb_ge; lia).
  unfold SetBufferArea_below.
  replace (y + h - 1 >? ei) with true by (symmetry; apply Z.gtb_lt; lia).
  rewrite (int_small (i + 1)) by lia.
  rewrite (find_merge_end_all b i (y + h - 1) x0) by (auto; lia).
  simpl obind. rewrite (int_small (i_areas b - 1)) by lia.
  replace (i_areas b - 1 =? i) with false by (symmetry; apply Z.eqb_neq; lia).
  simpl negb. cbv iota.
  rewrite (arr_get_lookup (pi_area_end b) (i_areas b - 1) el) by (lia || exact Hel).
  simpl obind. rewrite arr_set_insert by lia. simpl obind.
  rewrite (int_small (i_areas b - 1 - i)) by lia.
  rewrite (int_small (i_areas b - (i_areas b - 1 - i))) by lia.
  replace (i_areas b - (i_areas b - 1 - i)) with (i + 1) by lia.
  destruct fuel as [|fuel]; [lia|]. simpl.
  rewrite Z.ltb_irrefl. reflexivity.
Qed.

Lemma SetBufferArea_merge_absorbs_witness :
  SetBufferArea VExamples.vout_config 6 VExamples.three_band_buffer 0 2 10 4
  = Done (set_areas (0 + 1) (pi_area_begin VExamples.three_band_buffer)
            (<[Z.to_nat 0 := Z.max (2 + 4 - 1) 24]>
               (pi_area_end VExamples.three_band_buffer))
            VExamples.three_band_buffer).
Proof.
  apply (SetBufferArea_merge_absorbs VExamples.vout_config 6
           VExamples.three_band_buffer 0 2 10 4 0 0 4 24).
  - exact three_band_buffer_wf.
  - simpl. lia.
  - reflexivity.
  - reflexivity.
  - reflexivity.
  - lia.
  - lia.
  - lia.
  - reflexivity.
  - simpl. lia.
Defined.

(** X11. The clearing loop on one band whose size in bytes is not a
    multiple of 256 and leaves a remainder [r] of 4 bytes or more: the
    remainder is cleared with [r / 4] stores of 8 bytes each, so the bytes
    of the band are zeroed and so are the [8 * (r / 4) - r] bytes after
    its last row. *)
Theorem clear_area_runs_over (b : vout_buffer_t) (bpl i x e : Z) :
  0 <= i ->
  pi_area_begin b !! Z.to_nat i = Some x ->
  pi_area_end b !! Z.to_nat i = Some e ->
  0 <= x <= e -> 0 < bpl -> bpl * (e + 1) < 2 ^ 31 ->
  4 <= ((e - x + 1) * bpl) mod 256 ->
  let r := ((e - x + 1) * bpl) mod 256 in
  exists b',
    clear_area bpl b i = Done b'
    /\ 0 < 8 * (r / 4) - r
    /\ forall a, bpl * x <= a < bpl * (e + 1) + (8 * (r / 4) - r) ->
                 buf_data b' a = 0.
Proof.
  intros Hi Hx He Hxe Hbpl Hsz Hr r. unfold clear_area.
  rewrite (arr_get_lookup (pi_area_begin b) i x) by (lia || exact Hx). cbn [obind].
  rewrite (arr_get_lookup (pi_area_end b) i e) by (lia || exact He). cbn [obind].
  rewrite (int_small (bpl * x)) by nia.
  rewrite (int_small (e - x)) by nia.
  rewrite (int_small (e - x + 1)) by nia.
  rewrite (int_small ((e - x + 1) * bpl)) by nia.
  set (bytes := (e - x + 1) * bpl) in *.
  assert (Hbytes : 0 <= bytes < 2 ^ 31) by (unfold bytes; nia).
  rewrite Z.quot_div_nonneg by lia. rewrite Z.rem_mod_nonneg by lia.
  fold r.
  pose proof (Z.mod_pos_bound bytes 256 ltac:(lia)) as Hrb. fold r in Hrb.
  pose proof (Z.div_mod bytes 256 ltac:(lia)) as Hdm. fold r in Hdm.
  assert (Hq : 0 <= bytes / 256 < 2 ^ 31)
    by (split; [apply Z.div_pos; lia | apply Z.div_lt_upper_bound; lia]).
  rewrite Z.quot_div_nonneg by lia.
  assert (Hr4 : 0 <= r / 4 < 64)
    by (split; [apply Z.div_pos; lia | apply Z.div_lt_upper_bound; lia]).
  pose proof (Z.div_mod r 4 ltac:(lia)) as Hdm4.
  pose proof (Z.mod_pos_bound r 4 ltac:(lia)) as Hr4b.
  rewrite (int_small (bytes / 256)) by lia.
  rewrite (int_small (r / 4)) by lia.
  destruct (clear_blocks_spec (Z.to_nat (bytes / 256)) (buf_data b) (bpl * x))
    as [Hp Hm].
  destruct (clear_blocks (Z.to_nat (bytes / 256)) (buf_data b) (bpl * x))
    as [m1 p1] eqn:Hblocks.
  cbn [fst snd] in Hp, Hm.
  destruct (clear_words_spec (Z.to_nat (r / 4)) m1 p1) as [Hp2 Hm2].
  destruct (clear_words (Z.to_nat (r / 4)) m1 p1) as [m2 p2] eqn:Hwords.
  cbn [fst snd] in Hp2, Hm2. unfold sizeof_u64 in *.
  rewrite Z2Nat.id in Hp, Hm, Hp2, Hm2 by lia.
  eexists. split; [reflexivity|]. split; [lia|].
  intros a Ha. simpl. rewrite Hm2, Hm. subst p1.
  assert (bpl * (e + 1) = bpl * x + bytes) by (unfold bytes; lia).
  destruct (bpl * x + 256 * (bytes / 256) <=? a) eqn:E1;
    destruct (a <? bpl * x + 256 * (bytes / 256) + 8 * (r / 4)) eqn:E2;
    destruct (bpl * x <=? a) eqn:E3;
    destruct (a <? bpl * x + 256 * (bytes / 256)) eqn:E4; simpl; auto;
    repeat match goal with
           | H : (_ <=? _) = true |- _ => apply Z.leb_le in H
           | H : (_ <=? _) = false |- _ => apply Z.leb_gt in H
           | H : (_ <? _) = true |- _ => apply Z.ltb_lt in H
           | H : (_ <? _) = false |- _ => apply Z.ltb_ge in H
           end; lia.
Qed.

Lemma clear_area_runs_over_witness :
  exists b',
    clear_area 100 VExamples.one_band_buffer 0 = Done b'
    /\ 0 < 8 * (((4 - 0 + 1) * 100) mod 256 / 4) - ((4 - 0 + 1) * 100) mod 256
    /\ forall a,
         100 * 0 <= a
           < 100 * (4 + 1)
             + (8 * (((4 - 0 + 1) * 100) mod 256 / 4) - ((4 - 0 + 1) * 100) mod 256) ->
         buf_data b' a = 0.
Proof.
  apply (clear_area_runs_over VExamples.one_band_buffer 100 0 0 4).
  - lia.
  - reflexivity.
  - reflexivity.
  - lia.
  - lia.
  - lia.
  - vm_compute. discriminate.
Defined.

End Bands.

(** ** Decoder: entry points *)

Section DecoderEntryPoints.
Import Decoder Examples.

(** X12. The preroll end after a block: updating twice with the same
    block is updating once, and the value never grows except to the
    [INT64_MAX] that a preroll or discontinuity block resets it to. *)
Theorem DecoderUpdatePreroll_idempotent (cfg : config) (t : Z) (p : block_t) :
  DecoderUpdatePreroll cfg (DecoderUpdatePreroll cfg t p) p
  = DecoderUpdatePreroll cfg t p
  /\ (DecoderUpdatePreroll cfg t p = INT64_MAX
      \/ DecoderUpdatePreroll cfg t p <= t).
Proof.
  unfold DecoderUpdatePreroll.
  destruct (negb _); [auto|].
  destruct (i_dts p >? VLC_TS_INVALID cfg);
    [split; [lia | right; lia]|].
  destruct (i_pts p >? VLC_TS_INVALID cfg);
    [split; [lia | right; lia]|].
  split; [reflexivity | right; lia].
Qed.

Lemma vlc_fifo_GetBytes_queue (f : list block_t) (b : block_t) :
  vlc_fifo_GetBytes (vlc_fifo_QueueUnlocked f b) = vlc_fifo_GetBytes f + i_buffer b.
Proof.
  unfold vlc_fifo_GetBytes, vlc_fifo_QueueUnlocked.
  induction f as [|a f IH]; simpl; [lia | rewrite IH; lia].
Qed.

(** X13. An enqueue without pacing never waits, and the block is the
    last of the queue; the queue is emptied first when it holds more than
    400 MiB, every block of it being released, so after the call it holds
    at most 400 MiB besides the new block. *)
Theorem input_DecoderDecode_unpaced (o : decoder_owner_sys_t) (b : block_t) :
  exists o' ev,
    input_DecoderDecode o b false = (Returned o', ev)
    /\ ((p_fifo o' = p_fifo o ++ [b] /\ ev = [])
        \/ (p_fifo o' = [b] /\ ev = EvWarn :: map EvBlockRelease (p_fifo o)))
    /\ vlc_fifo_GetBytes (p_fifo o') <= 400 * 1024 * 1024 + i_buffer b
    /\ last (p_fifo o') = Some b.
Proof.
  unfold input_DecoderDecode. simpl negb. cbv iota.
  destruct (vlc_fifo_GetBytes (p_fifo o) >? 400 * 1024 * 1024) eqn:Hbig.
  - eexists _, _. split; [reflexivity|]. simpl.
    split; [right; auto|]. split; [lia | reflexivity].
  - rewrite Z.gtb_ltb in Hbig. apply Z.ltb_ge in Hbig.
    eexists _, _. split; [reflexivity|]. simpl.
    split; [left; auto|]. split.
    + rewrite vlc_fifo_GetBytes_queue. lia.
    + unfold vlc_fifo_QueueUnlocked. apply last_snoc.
Qed.

(** X14. With an empty queue and a pending drain request the worker
    takes the NULL block once: the request is cleared, and the next pass
    parks the worker, idle, until the queue is signalled. *)
Theorem DecoderThread_drains_once (o : decoder_owner_sys_t) :
  p_fifo o = [] -> b_draining o = true ->
  exists o1,
    DecoderThread_fetch o = Returned (o1, None)
    /\ b_draining o1 = false /\ p_fifo o1 = []
    /\ DecoderThread_fetch o1 = Blocked (set_idle true o1, None) wait_fifo.
Proof.
  intros Hf Hd. unfold DecoderThread_fetch. rewrite Hf, Hd. simpl.
  rewrite Hf. simpl.
  eexists. split; [reflexivity|]. simpl. auto.
Qed.

Lemma DecoderThread_drains_once_witness :
  exists o1,
    DecoderThread_fetch (owner_with [] false None) = Returned (o1, None)
    /\ b_draining o1 = false /\ p_fifo o1 = []
    /\ DecoderThread_fetch o1 = Blocked (set_idle true o1, None) wait_fifo.
Proof.
  apply (DecoderThread_drains_once (owner_with [] false None)); reflexivity.
Defined.

(** X15. input_DecoderStartWait and input_DecoderStopWait bracket a
    wait: the first sets [b_waiting], [b_first] and clears [b_has_data],
    the second clears [b_waiting] only; and each fails its assertion when
    called twice in a row. *)
Theorem input_DecoderStartWait_StopWait (o : decoder_owner_sys_t) :
  b_waiting o = false ->
  exists o1 o2,
    input_DecoderStartWait o = Done (o1, [EvSignal wait_request])
    /\ input_DecoderStartWait o1 = Fault
    /\ input_DecoderStopWait o1 = Done (o2, [EvSignal wait_request])
    /\ input_DecoderStopWait o2 = Fault
    /\ o2 = set_wait false true false o.
Proof.
  intros Hw. unfold input_DecoderStartWait, input_DecoderStopWait.
  rewrite Hw. eexists _, _. simpl. auto 10.
Qed.

Lemma input_DecoderStartWait_StopWait_witness :
  exists o1 o2,
    input_DecoderStartWait cc_owner = Done (o1, [EvSignal wait_request])
    /\ input_DecoderStartWait o1 = Fault
    /\ input_DecoderStopWait o1 = Done (o2, [EvSignal wait_request])
    /\ input_DecoderStopWait o2 = Fault
    /\ o2 = set_wait false true false cc_owner.
Proof.
  apply (input_DecoderStartWait_StopWait cc_owner). reflexivity.
Defined.

(** X16. The first part of a flush, called again on its own result,
    releases no block a second time and leaves the owner as it is: the
    queue empty, the drain request cleared, [b_flushing] set. *)
Theorem DecoderFlush_request_twice (o : decoder_owner_sys_t) :
  DecoderFlush_request (DecoderFlush_request o).1
  = ((DecoderFlush_request o).1, [EvSignal wait_request])
  /\ (DecoderFlush_request o).2
     = map EvBlockRelease (p_fifo o) ++ [EvSignal wait_request]
  /\ p_fifo (DecoderFlush_request o).1 = []
  /\ b_draining (DecoderFlush_request o).1 = false
  /\ b_flushing (DecoderFlush_request o).1 = true.
Proof.
  unfold DecoderFlush_request. simpl. auto.
Qed.

(** X17. While the owner waits or is paused, DecoderGetDisplayDate gives
    the invalid date, whatever the timestamp and the clock. *)
Theorem DecoderGetDisplayDate_held (cfg : config) (env : collaborators)
    (o : decoder_owner_sys_t) (i_ts : Z) :
  b_waiting o || b_paused o = true ->
  DecoderGetDisplayDate cfg env o i_ts = VLC_TS_INVALID cfg.
Proof.
  intros Hheld. unfold DecoderGetDisplayDate. rewrite Hheld.
  destruct (p_clock o); [|reflexivity].
  rewrite Z.leb_refl. reflexivity.
Qed.

Lemma DecoderGetDisplayDate_held_witness :
  DecoderGetDisplayDate vlc_config (quiet_env true)
                        (owner_with [] true (Some 0%nat)) 5000
  = VLC_TS_INVALID vlc_config.
Proof.
  apply (DecoderGetDisplayDate_held vlc_config (quiet_env true)
           (owner_with [] true (Some 0%nat)) 5000).
  reflexivity.
Defined.

(** X18. At the default rate a duration is left as it is. *)
Theorem scale_duration_default_rate (cfg : config) (dur : Z) :
  0 < INPUT_RATE_DEFAULT cfg -> 0 <= dur ->
  dur * INPUT_RATE_DEFAULT cfg + INPUT_RATE_DEFAULT cfg < 2 ^ 63 ->
  scale_duration cfg dur (INPUT_RATE_DEFAULT cfg) = dur.
Proof.
  intros Hd Hn Hb.
  destruct (scale_duration_ceiling cfg dur (INPUT_RATE_DEFAULT cfg) Hd
              ltac:(nia) Hb) as [Hlo Hhi].
  nia.
Qed.

Lemma scale_duration_default_rate_witness :
  scale_duration vlc_config 40000 (INPUT_RATE_DEFAULT vlc_config) = 40000.
Proof.
  apply (scale_duration_default_rate vlc_config 40000); simpl; lia.
Defined.

End DecoderEntryPoints.

(** ** Decoder: the worker and its callers *)

Section DecoderRuns.
Import Decoder Examples.

(** DecoderGetDisplayDate is DecoderFixTs on the one timestamp, for an
    owner that neither waits nor is paused and has no ES delay. *)
Lemma DecoderFixTs_single (cfg : config) (env : collaborators)
    (o : decoder_owner_sys_t) (i_ts : Z) :
  DecoderFixTs cfg env o i_ts None None None INT64_MAX
  = (match p_clock o with
     | None => i_ts
     | Some clock =>
         if i_ts >? VLC_TS_INVALID cfg then
           let '(failed, _, c0, _) :=
             input_clock_ConvertTS env clock (int64 (i_ts + i_ts_delay o)) None
                                   INT64_MAX in
           if failed then VLC_TS_INVALID cfg else c0
         else i_ts
     end, None, None, None).
Proof.
  unfold DecoderFixTs, DecoderFixTs_convert, DecoderFixTs_delay.
  destruct (p_clock o) as [clock|]; [|reflexivity].
  destruct (i_ts >? VLC_TS_INVALID cfg); [|reflexivity].
  rewrite Z.eqb_refl. simpl.
  destruct (input_clock_ConvertTS env clock _ None INT64_MAX) as [[[failed r] c0] c1].
  reflexivity.
Qed.

(** X19. For an owner that neither waits nor is paused and whose ES
    delay is zero, DecoderGetDisplayDate gives the date DecoderFixTs gives
    for the timestamp alone: DecoderGetDisplayDate does not add the ES
    delay. *)
Theorem DecoderGetDisplayDate_DecoderFixTs (cfg : config) (env : collaborators)
    (o : decoder_owner_sys_t) (i_ts : Z) :
  b_waiting o || b_paused o = false -> i_ts_delay o = 0 ->
  - 2 ^ 63 <= i_ts < 2 ^ 63 ->
  DecoderGetDisplayDate cfg env o i_ts
  = (DecoderFixTs cfg env o i_ts None None None INT64_MAX).1.1.1.
Proof.
  intros Hheld Hdelay Hr. rewrite DecoderFixTs_single. simpl.
  unfold DecoderGetDisplayDate. rewrite Hheld, Hdelay.
  destruct (p_clock o) as [clock|]; [|reflexivity].
  rewrite Z.add_0_r, (int64_small i_ts) by lia.
  rewrite Z.gtb_ltb.
  destruct (Z.leb_spec i_ts (VLC_TS_INVALID cfg));
    destruct (Z.ltb_spec (VLC_TS_INVALID cfg) i_ts); try lia; reflexivity.
Qed.

Lemma DecoderGetDisplayDate_DecoderFixTs_witness :
  DecoderGetDisplayDate vlc_config (quiet_env true)
                        (owner_with [] false (Some 0%nat)) 5000
  = (DecoderFixTs vlc_config (quiet_env true) (owner_with [] false (Some 0%nat))
                  5000 None None None INT64_MAX).1.1.1.
Proof.
  apply (DecoderGetDisplayDate_DecoderFixTs vlc_config (quiet_env true)
           (owner_with [] false (Some 0%nat)) 5000).
  - reflexivity.
  - reflexivity.
  - lia.
Defined.

(** X20. With a clock and a first timestamp that is not valid,
    DecoderFixTs asks the clock for no conversion: it leaves both
    timestamps as they are, reports exactly the rate that
    DecoderGetDisplayRate returns and scales the duration by that rate,
    whatever the second timestamp, the duration, the bound and the rate
    passed in. *)
Theorem DecoderFixTs_rate_DecoderGetDisplayRate (cfg : config)
    (env : collaborators) (o : decoder_owner_sys_t) (clock : nat)
    (i_ts r0 i_ts_bound : Z) (pi_ts1 pi_duration : option Z) :
  p_clock o = Some clock -> i_ts <= VLC_TS_INVALID cfg ->
  DecoderFixTs cfg env o i_ts pi_ts1 pi_duration (Some r0) i_ts_bound
  = (i_ts, pi_ts1,
     match pi_duration with
     | Some d => Some (scale_duration cfg d (DecoderGetDisplayRate cfg env o))
     | None => None
     end,
     Some (DecoderGetDisplayRate cfg env o)).
Proof.
  intros Hc Hts.
  unfold DecoderFixTs, DecoderFixTs_convert, DecoderGetDisplayRate. rewrite Hc.
  replace (i_ts >? VLC_TS_INVALID cfg) with false
    by (symmetry; rewrite Z.gtb_ltb; apply Z.ltb_ge; lia).
  destruct pi_ts1 as [t1|]; [|reflexivity].
  destruct (i_ts =? t1); reflexivity.
Qed.

Lemma DecoderFixTs_rate_DecoderGetDisplayRate_witness :
  DecoderFixTs vlc_config (quiet_env true) (owner_with [] false (Some 0%nat))
               0 (Some 40) (Some 2000) (Some 7) 100
  = (0, Some 40,
     match Some 2000 with
     | Some d =>
         Some (scale_duration vlc_config d
                 (DecoderGetDisplayRate vlc_config (quiet_env true)
                    (owner_with [] false (Some 0%nat))))
     | None => None
     end,
     Some (DecoderGetDisplayRate vlc_config (quiet_env true)
             (owner_with [] false (Some 0%nat)))).
Proof.
  apply (DecoderFixTs_rate_DecoderGetDisplayRate vlc_config (quiet_env true)
           (owner_with [] false (Some 0%nat)) 0%nat 0 7 100 (Some 40) (Some 2000)).
  - reflexivity.
  - simpl. lia.
Defined.

(** What DecoderProcess leaves alone besides the queue and the wait
    flag: the drain request and the idle flag. *)
Lemma DecoderProcess_flags (cfg : config) (env : collaborators) (d d' : decoder_t)
    (p_block : option block_t) (ev : list event) :
  DecoderProcess cfg env d p_block = Done (d', ev) ->
  b_draining (p_owner d') = b_draining (p_owner d)
  /\ b_idle (p_owner d') = b_idle (p_owner d)
  /\ b_paused (p_owner d') = b_paused (p_owner d).
Proof.
  unfold DecoderProcess, DecoderProcessOnFlush.
  intros H.
  repeat match type of H with
         | context [match ?x with _ => _ end] => destruct x eqn:?; simpl in H
         end;
    try discriminate; injection H as <- <-; simpl; auto;
    match goal with
    | Hp : (if ?c then _ else _) = (_, _) |- _ =>
        destruct c eqn:?; injection Hp as <- <-; simpl in *; auto
    end.
Qed.

Lemma input_DecoderDecode_idle (o o' : decoder_owner_sys_t) (p_block : block_t)
    (b_do_pace : bool) (ev : list event) :
  input_DecoderDecode o p_block b_do_pace = (Returned o', ev) ->
  b_idle o' = b_idle o.
Proof.
  unfold input_DecoderDecode, vlc_fifo_QueueUnlocked, vlc_fifo_DequeueAllUnlocked.
  intros H.
  repeat match type of H with
         | context [if ?x then _ else _] => destruct x eqn:?; simpl in H
         end;
    try discriminate; injection H as <- <-; reflexivity.
Qed.

Lemma drain_passes_snoc (tr : list label) (l : label) :
  drain_passes (tr ++ [l])
  = (drain_passes tr + if is_drain_pass l then 1 else 0)%nat.
Proof.
  unfold drain_passes. rewrite List.filter_app, length_app. simpl.
  destruct (is_drain_pass l); reflexivity.
Qed.

Lemma drain_requests_snoc (tr : list label) (l : label) :
  drain_requests (tr ++ [l])
  = (drain_requests tr + if is_drain_request l then 1 else 0)%nat.
Proof.
  unfold drain_requests. rewrite List.filter_app, length_app. simpl.
  destruct (is_drain_request l); reflexivity.
Qed.

Lemma step_drain_count (cfg : config) (env : collaborators) (s s' : system)
    (l : label) :
  step cfg env s l s' ->
  ((if is_drain_pass l then 1 else 0) + pending_drain s'
   <= (if is_drain_request l then 1 else 0) + pending_drain s)%nat.
Proof.
  intros Hstep. destruct Hstep; unfold pending_drain, owner in *; simpl.
  - apply input_DecoderDecode_frame in H as (_ & _ & -> & _). lia.
  - unfold input_DecoderStartWait in H0.
    destruct (b_waiting (p_owner (sys_dec s))); [discriminate|].
    injection H0 as <- <-. simpl. lia.
  - unfold input_DecoderStopWait in H0.
    destruct (b_waiting (p_owner (sys_dec s))); [|discriminate].
    injection H0 as <- <-. simpl. lia.
  - destruct (b_draining (p_owner (sys_dec s))); lia.
  - destruct (b_draining (p_owner (sys_dec s))); lia.
  - lia.
  - unfold DecoderFlush_send in H0.
    destruct (DecoderBlockFlushNew cfg env); [|discriminate].
    injection H0 as H0.
    apply input_DecoderDecode_frame in H0 as (_ & _ & -> & _). lia.
  - unfold DecoderFlush_wait in H0.
    destruct (b_flushing (p_owner (sys_dec s))); [discriminate|].
    injection H0 as <-. lia.
  - unfold DecoderThread_fetch in H0.
    destruct (p_fifo (p_owner (sys_dec s))) as [|b rest] eqn:Hf; simpl in H0.
    + destruct (b_draining (p_owner (sys_dec s))); [|discriminate].
      simpl in H0. rewrite Hf in H0. simpl in H0.
      injection H0 as <- <-. simpl. lia.
    + injection H0 as <- <-. simpl. lia.
  - unfold DecoderThread_fetch in H0.
    destruct (p_fifo (p_owner (sys_dec s))) as [|b rest] eqn:Hf; simpl in H0.
    + destruct (b_draining (p_owner (sys_dec s))) eqn:Hd.
      * simpl in H0. rewrite Hf in H0. discriminate.
      * injection H0 as <- <- <-. simpl. rewrite Hd. lia.
    + discriminate.
  - unfold DecoderThread_wake. simpl. lia.
  - apply DecoderProcess_flags in H1 as (Hd & _).
    unfold DecoderThread_after. destruct p_block; simpl; rewrite Hd; lia.
Qed.

(** X21. Along every run the worker takes the NULL block at most once
    for each call of input_DecoderDrain: the passes with a NULL block and
    the request still pending at the end are no more than the calls and
    the request pending at the start. *)
Theorem drain_passes_bounded (cfg : config) (env : collaborators)
    (s s' : system) (tr : list label) :
  steps cfg env s tr s' ->
  (drain_passes tr + pending_drain s' <= drain_requests tr + pending_drain s)%nat.
Proof.
  intros Hrun. induction Hrun as [s|s tr s1 l s2 Hrun IH Hstep].
  - reflexivity.
  - rewrite drain_passes_snoc, drain_requests_snoc.
    apply step_drain_count in Hstep. lia.
Qed.

Lemma drain_passes_bounded_witness :
  (drain_passes drain_trace + pending_drain drain_end
   <= drain_requests drain_trace + pending_drain drain_start)%nat.
Proof.
  apply (drain_passes_bounded vlc_config (quiet_env true)
           drain_start drain_end drain_trace).
  apply (run_steps vlc_config (quiet_env true) drain_schedule
           drain_start [] drain_start); [apply steps_nil | reflexivity].
Defined.

Lemma step_idle_parked (cfg : config) (env : collaborators) (s s' : system)
    (l : label) :
  step cfg env s l s' ->
  (b_idle (owner s) = true <-> sys_worker s = W_parked) ->
  (b_idle (owner s') = true <-> sys_worker s' = W_parked).
Proof.
  intros Hstep Hinv. destruct Hstep; unfold owner in *; simpl.
  - apply input_DecoderDecode_idle in H. rewrite H. exact Hinv.
  - unfold input_DecoderStartWait in H0.
    destruct (b_waiting (p_owner (sys_dec s))); [discriminate|].
    injection H0 as <- <-. exact Hinv.
  - unfold input_DecoderStopWait in H0.
    destruct (b_waiting (p_owner (sys_dec s))); [|discriminate].
    injection H0 as <- <-. exact Hinv.
  - exact Hinv.
  - exact Hinv.
  - exact Hinv.
  - unfold DecoderFlush_send in H0.
    destruct (DecoderBlockFlushNew cfg env); [|discriminate].
    injection H0 as H0.
    apply input_DecoderDecode_idle in H0. rewrite H0. exact Hinv.
  - unfold DecoderFlush_wait in H0.
    destruct (b_flushing (p_owner (sys_dec s))); [discriminate|].
    injection H0 as <-. exact Hinv.
  - assert (Hi : b_idle o' = b_idle (p_owner (sys_dec s))).
    { unfold DecoderThread_fetch in H0.
      destruct (p_fifo (p_owner (sys_dec s))) as [|b rest] eqn:Hf; simpl in H0.
      - destruct (b_draining (p_owner (sys_dec s))); [|discriminate].
        simpl in H0. rewrite Hf in H0. simpl in H0.
        injection H0 as <- <-. reflexivity.
      - injection H0 as <- <-. reflexivity. }
    rewrite Hi. rewrite H in Hinv. split; [|discriminate].
    intros Ht. apply Hinv in Ht. discriminate.
  - unfold DecoderThread_fetch in H0.
    destruct (p_fifo (p_owner (sys_dec s))) as [|b rest] eqn:Hf; simpl in H0.
    + destruct (b_draining (p_owner (sys_dec s))).
      * simpl in H0. rewrite Hf in H0. discriminate.
      * injection H0 as <- <- <-. simpl. tauto.
    + discriminate.
  - unfold DecoderThread_wake. simpl. split; discriminate.
  - apply DecoderProcess_flags in H1 as (_ & Hi & _).
    rewrite H in Hinv.
    assert (b_idle (p_owner d') = false).
    { rewrite Hi. destruct (b_idle (p_owner (sys_dec s))); [|reflexivity].
      destruct Hinv as [Hinv _]. specialize (Hinv eq_refl). discriminate. }
    unfold DecoderThread_after. destruct p_block; simpl;
      split; congruence.
Qed.

(** X22. Along every run [b_idle] is set exactly while the worker is
    parked in the wait on its queue, if it was so at the start. *)
Theorem worker_idle_iff_parked (cfg : config) (env : collaborators)
    (s s' : system) (tr : list label) :
  steps cfg env s tr s' ->
  (b_idle (owner s) = true <-> sys_worker s = W_parked) ->
  (b_idle (owner s') = true <-> sys_worker s' = W_parked).
Proof.
  intros Hrun. induction Hrun as [s|s tr s1 l s2 Hrun IH Hstep].
  - auto.
  - intros Hinv. eapply step_idle_parked; eauto.
Qed.

Lemma worker_idle_iff_parked_witness :
  b_idle (owner drain_end) = true <-> sys_worker drain_end = W_parked.
Proof.
  apply (worker_idle_iff_parked vlc_config (quiet_env true)
           drain_start drain_end drain_trace).
  - apply (run_steps vlc_config (quiet_env true) drain_schedule
             drain_start [] drain_start); [apply steps_nil | reflexivity].
  - split; discriminate.
Defined.

(** X23. DecoderProcess on a block that carries the flush flag and some
    data always returns with [b_flushing] cleared; it signals
    [wait_acknowledge], as the last thing it does, exactly when
    [b_flushing] was set, whatever the category path did and whether or
    not the decoder is in error. *)
Theorem DecoderProcess_flush_block (cfg : config) (env : collaborators)
    (d : decoder_t) (b : block_t) :
  flush_request cfg (Some b) = true -> 0 < i_buffer b ->
  exists d' ev,
    DecoderProcess cfg env d (Some b) = Done (d', ev)
    /\ b_flushing (p_owner d') = false
    /\ existsb is_ack ev = b_flushing (p_owner d)
    /\ (b_flushing (p_owner d) = true ->
        last ev = Some (EvSignal wait_acknowledge)).
Proof.
  intros Hf Hb. unfold DecoderProcess. rewrite Hf.
  replace (i_buffer b <=? 0) with false by (symmetry; apply Z.leb_gt; lia).
  unfold DecoderProcessOnFlush.
  destruct (dec_b_error d);
    [|destruct (ENABLE_SOUT cfg && b_packetizer (p_owner d))];
    simpl; try destruct (fmt_out_i_cat d);
    simpl; destruct (b_flushing (p_owner d)) eqn:Hfl; simpl;
    eexists _, _; (split; [reflexivity|]); simpl; rewrite ?Hfl;
    (split; [reflexivity|]); (split; [reflexivity|]);
    intros; try discriminate; reflexivity.
Qed.

Lemma DecoderProcess_flush_block_witness :
  exists d' ev,
    DecoderProcess vlc_config (quiet_env true)
                   (video_decoder (owner_with [] false None)) (Some flush_block)
    = Done (d', ev)
    /\ b_flushing (p_owner d') = false
    /\ existsb is_ack ev
       = b_flushing (p_owner (video_decoder (owner_with [] false None)))
    /\ (b_flushing (p_owner (video_decoder (owner_with [] false None))) = true ->
        last ev = Some (EvSignal wait_acknowledge)).
Proof.
  apply (DecoderProcess_flush_block vlc_config (quiet_env true)
           (video_decoder (owner_with [] false None)) flush_block).
  - reflexivity.
  - simpl. lia.
Defined.

End DecoderRuns.

(** ** Planes of a picture and rendering *)

Section Planes.
Import VideoOutput.

(** X24. The plane offsets of a new picture of even width: the Y plane
    of [width * height] samples ends where the U plane begins, the U plane
    ends at or before the V plane, and the V plane ends inside the
    requested size; the chroma planes are [chroma_width * height] samples,
    and [chroma_width * (height / 2)] for a 4:2:0 picture. *)
Theorem plane_layout_disjoint (t : picture_type) (w h : Z) :
  t <> EMPTY_PICTURE ->
  0 < w < 2 ^ 13 -> 0 < h < 2 ^ 13 -> w mod 2 = 0 ->
  exists cw n off_u off_v,
    plane_layout t w h = Some (cw, n, off_u, off_v)
    /\ off_u = w * h
    /\ let chroma :=
         match t with
         | YUV_420_PICTURE => cw * (h / 2)
         | _ => cw * h
         end in
       0 < cw /\ off_u + chroma <= off_v /\ off_v + chroma <= n.
Proof.
  intros Ht Hw Hh Heven.
  assert (Hw2 : w = 2 * (w / 2))
    by (pose proof (Z.div_mod w 2 ltac:(lia)); lia).
  assert (Hcw : 0 < w / 2 < 2 ^ 12) by lia.
  pose proof (Z.div_mod h 2 ltac:(lia)) as Hh2.
  pose proof (Z.mod_pos_bound h 2 ltac:(lia)) as Hh2b.
  destruct t; try congruence; unfold plane_layout;
    rewrite ?Z.quot_div_nonneg by lia.
  - set (cw := w / 2) in *.
    rewrite (int_small cw) by lia.
    assert (0 <= h * cw < 2 ^ 25) by nia.
    rewrite (int_small (h * cw)) by lia.
    rewrite (int_small (h * cw * 3)), (int_small (h * cw * 4)),
      (int_small (h * cw * 5)) by lia.
    rewrite !Z.quot_div_nonneg by lia.
    pose proof (Z.div_mod (h * cw * 4) 2 ltac:(lia)).
    pose proof (Z.mod_pos_bound (h * cw * 4) 2 ltac:(lia)).
    pose proof (Z.div_mod (h * cw * 5) 2 ltac:(lia)).
    pose proof (Z.mod_pos_bound (h * cw * 5) 2 ltac:(lia)).
    assert (h * cw * 4 mod 2 = 0).
    { replace (h * cw * 4) with ((h * cw * 2) * 2) by lia. apply Z.mod_mul. lia. }
    rewrite (int_small (h * cw * 4 / 2)), (int_small (h * cw * 5 / 2)) by lia.
    eexists _, _, _, _. split; [reflexivity|]. split; [nia|].
    cbv zeta. split; [lia|]. split; nia.
  - set (cw := w / 2) in *.
    rewrite (int_small cw) by lia.
    assert (0 <= h * cw < 2 ^ 25) by nia.
    rewrite (int_small (h * cw)) by lia.
    rewrite (int_small (h * cw * 4)), (int_small (h * cw * 2)),
      (int_small (h * cw * 3)) by lia.
    eexists _, _, _, _. split; [reflexivity|]. split; [nia|].
    cbv zeta. split; [lia|]. split; nia.
  - assert (0 <= h * w < 2 ^ 26) by nia.
    rewrite (int_small (h * w)) by lia.
    rewrite (int_small (h * w * 3)), (int_small (h * w * 2)) by lia.
    eexists _, _, _, _. split; [reflexivity|]. split; [nia|].
    cbv zeta. split; [lia|]. split; nia.
Qed.

Lemma plane_layout_disjoint_witness :
  exists cw n off_u off_v,
    plane_layout YUV_420_PICTURE 32 32 = Some (cw, n, off_u, off_v)
    /\ off_u = 32 * 32
    /\ let chroma :=
         match YUV_420_PICTURE with
         | YUV_420_PICTURE => cw * (32 / 2)
         | _ => cw * 32
         end in
       0 < cw /\ off_u + chroma <= off_v /\ off_v + chroma <= n.
Proof.
  apply (plane_layout_disjoint YUV_420_PICTURE 32 32).
  - discriminate.
  - lia.
  - lia.
  - reflexivity.
Defined.

(** X25. RenderPicture returns for every picture of positive width on
    a thread with a current buffer and a positive number of bytes per
    pixel, the heights being non-negative (so that no division traps): it
    stores the picture's date as the date of the last picture, and of the
    back buffers it changes only the pixel memory of the current one,
    which is what the converter of the picture's type makes of it (and is
    left alone for a picture of no known type); the picture region and the
    bands of that buffer, and the other buffer, are as they were. *)
Theorem RenderPicture_returns (env : collaborators) (v : vout_thread_t)
    (p : picture_t) (b : vout_buffer_t) :
  current_buffer v = Done b ->
  0 < i_bytes_per_pixel v -> 0 < i_width p ->
  0 <= i_height p < 2 ^ 31 -> 0 <= i_pic_height b < 2 ^ 31 ->
  exists v' m,
    RenderPicture env v p = Done v'
    /\ last_picture_date v' = date p
    /\ p_picture v' = p_picture v
    /\ i_buffer_index v' = i_buffer_index v
    /\ p_buffer v' = <[Z.to_nat (i_buffer_index v) := set_data m b]> (p_buffer v)
    /\ (i_type p = EMPTY_PICTURE -> m = buf_data b)
    /\ (i_type p <> EMPTY_PICTURE ->
        exists dst w h eol pic_eol scale,
          m = Convert env p dst w h eol pic_eol scale (buf_data b)
          /\ dst = int (i_pic_x b * i_bytes_per_pixel v)
                   + int (i_pic_y b * i_bytes_per_line v)
          /\ w = Z.min (i_width p) (i_pic_width b)).
Proof.
  intros Hb Hbpp Hw Hh Hph. unfold RenderPicture. rewrite Hb. cbn [obind].
  rewrite (cdiv_pos _ (i_bytes_per_pixel _)) by (simpl; exact Hbpp).
  cbn [obind].
  rewrite (cdiv_pos _ (i_width p)) by exact Hw.
  assert (Hcur : p_buffer v !! Z.to_nat (i_buffer_index v) = Some b).
  { unfold current_buffer in Hb.
    destruct ((0 <=? i_buffer_index v) && _); [|discriminate].
    destruct (p_buffer v !! Z.to_nat (i_buffer_index v)); congruence. }
  assert (Hsame : <[Z.to_nat (i_buffer_index v) := set_data (buf_data b) b]>
                    (p_buffer v) = p_buffer v).
  { replace (set_data (buf_data b) b) with b by (destruct b; reflexivity).
    apply list_insert_id. exact Hcur. }
  assert (Hscale : exists sc,
    (if i_height p =? i_pic_height b then Done 0
     else cdiv (i_height p) (int (i_height p - i_pic_height b))) = Done sc).
  { destruct (i_height p =? i_pic_height b) eqn:Heq; [eauto|].
    apply Z.eqb_neq in Heq.
    rewrite (int_small (i_height p - i_pic_height b)) by lia.
    unfold cdiv, INT_MAX.
    replace (i_height p - i_pic_height b =? 0) with false
      by (symmetry; apply Z.eqb_neq; lia).
    replace (i_height p =? - (2 ^ 31 - 1) - 1) with false
      by (symmetry; apply Z.eqb_neq; lia).
    simpl. eauto. }
  destruct Hscale as [sc ->]. cbn [obind].
  destruct (i_type p) eqn:Ht.
  - exists (set_run (date p) (i_buffer_index v) (i_changes v) (b_error v) v),
      (buf_data b).
    split; [reflexivity|]. simpl.
    split; [reflexivity|]. split; [reflexivity|]. split; [reflexivity|].
    split; [symmetry; exact Hsame|]. split; [reflexivity | congruence].
  - eexists _, _. split; [reflexivity|]. simpl.
    split; [reflexivity|]. split; [reflexivity|]. split; [reflexivity|].
    split; [reflexivity|]. split; [discriminate|].
    intros _. eexists _, _, _, _, _, _. split; [reflexivity|]. auto.
  - eexists _, _. split; [reflexivity|]. simpl.
    split; [reflexivity|]. split; [reflexivity|]. split; [reflexivity|].
    split; [reflexivity|]. split; [discriminate|].
    intros _. eexists _, _, _, _, _, _. split; [reflexivity|]. auto.
  - eexists _, _. split; [reflexivity|]. simpl.
    split; [reflexivity|]. split; [reflexivity|]. split; [reflexivity|].
    split; [reflexivity|]. split; [discriminate|].
    intros _. eexists _, _, _, _, _, _. split; [reflexivity|]. auto.
Qed.

Lemma RenderPicture_returns_witness :
  exists v' m,
    RenderPicture VExamples.quiet_vout_env VExamples.late_thread
                  (VExamples.slot READY_PICTURE YUV_420_PICTURE 32 32 0 9000 1000)
    = Done v'
    /\ last_picture_date v'
       = date (VExamples.slot READY_PICTURE YUV_420_PICTURE 32 32 0 9000 1000)
    /\ p_picture v' = p_picture VExamples.late_thread
    /\ i_buffer_index v' = i_buffer_index VExamples.late_thread
    /\ p_buffer v'
       = <[Z.to_nat (i_buffer_index VExamples.late_thread)
           := set_data m VExamples.blank_buffer]>
           (p_buffer VExamples.late_thread)
    /\ (i_type (VExamples.slot READY_PICTURE YUV_420_PICTURE 32 32 0 9000 1000)
        = EMPTY_PICTURE -> m = buf_data VExamples.blank_buffer)
    /\ (i_type (VExamples.slot READY_PICTURE YUV_420_PICTURE 32 32 0 9000 1000)
        <> EMPTY_PICTURE ->
        exists dst w h eol pic_eol scale,
          m = Convert VExamples.quiet_vout_env
                (VExamples.slot READY_PICTURE YUV_420_PICTURE 32 32 0 9000 1000)
                dst w h eol pic_eol scale (buf_data VExamples.blank_buffer)
          /\ dst = int (i_pic_x VExamples.blank_buffer
                        * i_bytes_per_pixel VExamples.late_thread)
                   + int (i_pic_y VExamples.blank_buffer
                          * i_bytes_per_line VExamples.late_thread)
          /\ w = Z.min (i_width (VExamples.slot READY_PICTURE YUV_420_PICTURE
                                   32 32 0 9000 1000))
                       (i_pic_width VExamples.blank_buffer)).
Proof.
  apply (RenderPicture_returns VExamples.quiet_vout_env VExamples.late_thread
           (VExamples.slot READY_PICTURE YUV_420_PICTURE 32 32 0 9000 1000)
           VExamples.blank_buffer).
  - reflexivity.
  - simpl. lia.
  - simpl. lia.
  - simpl. lia.
  - simpl. lia.
Defined.

End Planes.
